(** * Tensor implementations of the eager runtime: a shallow embedding

    This development embeds [oneflow/core/framework/tensor_impl.cpp] and the
    collaborators it calls, and proves the properties the specification
    states about them.

    Conventions.
    - [int64_t] values are [Z]; a [Shape] is the list of its extents.
    - A C++ call has one of three outcomes: it returns a value, it returns a
      [Maybe] carrying an error ([CHECK_OR_RETURN], [JUST]), or it does not
      return at all (a null pointer is dereferenced, [CHECK_JUST] aborts, a
      spin loop never ends).
    - Methods that mutate are functions of an explicit state: the receiver
      where the method assigns to its fields, the runtime [World] where it
      reaches shared objects (blobs, storages, the instruction queue). *)

From stdpp Require Import gmap list strings.

Local Open Scope Z_scope.

(** ** Outcomes of a call *)

Inductive Error :=
  | CheckFailedError (msg : string)
  | NullReferenceError.

Inductive Fatal :=
  | NullDereference
  | DanglingPointer
  | ProcessAbort (e : Error)
  | SpinsForever.

Inductive Outcome (A : Type) :=
  | Ok (a : A)
  | Err (e : Error)
  | Crash (f : Fatal).

Arguments Ok {A} a.
Arguments Err {A} e.
Arguments Crash {A} f.

Definition obind {A B} (c : Outcome A) (k : A -> Outcome B) : Outcome B :=
  match c with
  | Ok a => k a
  | Err e => Err e
  | Crash f => Crash f
  end.

Declare Scope outcome_scope.
Delimit Scope outcome_scope with O.
Notation "'let*' x := c 'in' k" := (obind c (fun x => k))
  (at level 10, x name, c at level 100, k at level 200) : outcome_scope.
Notation "'let*' '_' := c 'in' k" := (obind c (fun _ => k))
  (at level 10, c at level 100, k at level 200) : outcome_scope.

(** [CHECK_OR_RETURN(cond) << msg] on a pure path. *)
Definition check_or_return (cond : bool) (msg : string) : Outcome unit :=
  if cond then Ok tt else Err (CheckFailedError msg).

(** ** Value types *)

Abbreviation addr := nat.

Abbreviation Shape := (list Z).

(** The [DataType] enumeration, by its numeric value. *)
Abbreviation DataType := nat.
Definition kInvalidDataType : DataType := 0%nat.

(** [Symbol<T>]: an interned object, or the null symbol [Symbol<T>()].
    Interning makes pointer equality of symbols equality of their objects. *)
Definition Symbol (T : Type) := option T.

(** [*symbol] and [symbol->]: the null symbol has nothing to point to. *)
Definition deref {T} (s : Symbol T) : Outcome T :=
  match s with
  | Some x => Ok x
  | None => Crash NullDereference
  end.

(** [shared_ptr<const T>] to an object that is never written after its
    construction: the address identifies the object, [obj] is what it holds. *)
Record shared_const (T : Type) := SharedConst { get : addr; obj : T }.
Arguments SharedConst {T} get obj.
Arguments get {T} s.
Arguments obj {T} s.

Record Device := { device_type : string; device_id : Z }.

Inductive SbpParallel :=
  | SplitParallel (axis : Z)
  | BroadcastParallel
  | PartialSumParallel.

Abbreviation ParallelDistribution := (list SbpParallel).

(** Modelled from the spec: [ParallelDesc] (parallel_desc.h is not embedded
    here) is the device group: a device kind and the (machine id, device
    id) pairs of the participating ranks, in rank order. *)
Record ParallelDesc := {
  device_tag : string;
  machine_device_ids : list (Z * Z)
}.

Definition parallel_num (pd : ParallelDesc) : Z :=
  Z.of_nat (length (machine_device_ids pd)).

Global Instance Device_eq_dec : EqDecision Device.
Proof. solve_decision. Defined.
Global Instance SbpParallel_eq_dec : EqDecision SbpParallel.
Proof. solve_decision. Defined.
Global Instance ParallelDesc_eq_dec : EqDecision ParallelDesc.
Proof. solve_decision. Defined.

(** ** Placement translation (logical and physical shapes) *)

(** Modelled from the spec: the partition of an extent among [n] ranks that
    [GetPhysicalShape] applies is defined with it, in another translation
    unit.  The spec asks for a contiguous, as-even-as-possible partition
    with one fixed remainder policy; the policy taken is the one it names,
    the first ranks get the extra unit. *)
Definition balanced_part (extent n rank : Z) : Z :=
  extent / n + (if rank <? extent `mod` n then 1 else 0).

(** [shape->Set(axis, f(shape->At(axis)))], failing on an axis out of range. *)
Definition update_axis (f : Z -> Z) (axis : Z) (s : Shape) : Outcome Shape :=
  (let* _ := check_or_return ((0 <=? axis) && (axis <? Z.of_nat (length s)))
               "axis out of range" in
   Ok (alter f (Z.to_nat axis) s))%O.

Definition physical_step (n rank : Z) (sbp : SbpParallel) (s : Shape)
  : Outcome Shape :=
  match sbp with
  | SplitParallel axis => update_axis (fun e => balanced_part e n rank) axis s
  | BroadcastParallel | PartialSumParallel => Ok s
  end.

Fixpoint physical_steps (n rank : Z) (sbps : ParallelDistribution) (s : Shape)
  : Outcome Shape :=
  match sbps with
  | [] => Ok s
  | sbp :: rest =>
      (let* s' := physical_step n rank sbp s in
       physical_steps n rank rest s')%O
  end.

(** Modelled from the spec: [GetPhysicalShape] is declared in operator.h and
    defined in another translation unit.  For each entry of the
    distribution, [Split(axis)] divides that axis's extent among the
    participating ranks; [Broadcast] and [PartialSum] leave the shape as it
    is.  The rank must be one of the group's. *)
Definition GetPhysicalShape (logical_shape : Shape)
    (parallel_distribution : ParallelDistribution)
    (parallel_desc : ParallelDesc) (parallel_id : Z) : Outcome Shape :=
  (let* _ := check_or_return
               ((0 <=? parallel_id) && (parallel_id <? parallel_num parallel_desc))
               "parallel_id out of range" in
   physical_steps (parallel_num parallel_desc) parallel_id
     parallel_distribution logical_shape)%O.

(** The sum, over the [n] participating ranks, of what each rank
    contributes to an extent. *)
Definition sum_over_ranks (n : Z) (contribution : Z -> Z) : Z :=
  foldr Z.add 0 (map contribution (seqZ 0 n)).

Definition logical_step (n : Z) (sbp : SbpParallel) (s : Shape)
  : Outcome Shape :=
  match sbp with
  | SplitParallel axis =>
      update_axis (fun e => sum_over_ranks n (fun _ => e)) axis s
  | BroadcastParallel | PartialSumParallel => Ok s
  end.

Fixpoint logical_steps (n : Z) (sbps : ParallelDistribution) (s : Shape)
  : Outcome Shape :=
  match sbps with
  | [] => Ok s
  | sbp :: rest =>
      (let* s' := logical_steps n rest s in
       logical_step n sbp s')%O
  end.

(** Modelled from the spec: [GetLogicalShape] is declared in operator.h and
    defined in another translation unit.  Its caller in tensor_impl.cpp
    hands it the shape of the physical tensor of the current rank, the
    distribution and the placement, and the spec has it combine the
    current rank's physical shape with these two.  It is the inverse walk:
    for [Split(axis)] the contributions of all participating ranks are
    summed.  The shapes the other ranks hold are not among its arguments,
    so every rank is counted with the extent of the shape given; this is
    the sum of the ranks' shards where the ranks hold equal shards, and
    the properties below show that no function of these arguments is
    where they do not.  [Broadcast] and [PartialSum] pass the extent
    through. *)
Definition GetLogicalShape (physical_shape : Shape)
    (parallel_distribution : ParallelDistribution)
    (parallel_desc : ParallelDesc) : Outcome Shape :=
  logical_steps (parallel_num parallel_desc) parallel_distribution
    physical_shape.

(** The placement divides evenly: going through the entries in order, at
    every [Split(axis)] the extent the axis has by then, after the
    divisions of the entries before, is a multiple of the number of
    ranks. *)
Fixpoint even_split (n : Z) (sbps : ParallelDistribution) (s : Shape) : bool :=
  match sbps with
  | [] => true
  | SplitParallel axis :: rest =>
      match s !! Z.to_nat axis with
      | Some e =>
          (e `mod` n =? 0) && even_split n rest (alter (fun e => e / n) (Z.to_nat axis) s)
      | None => true
      end
  | _ :: rest => even_split n rest s
  end.

(** Every [Split(axis)] names an axis of the shape. *)
Definition split_axes_in_range (sbps : ParallelDistribution) (s : Shape) : bool :=
  forallb (fun sbp =>
             match sbp with
             | SplitParallel axis => (0 <=? axis) && (axis <? Z.of_nat (length s))
             | _ => true
             end) sbps.

Definition four_ranks : ParallelDesc :=
  {| device_tag := "cuda";
     machine_device_ids := [(0, 0); (0, 1); (1, 0); (1, 1)] |}.

(** ** Stateful calls *)

(** A call that reads and writes a state [S]: the state after the call is
    kept whatever the outcome, since a method that fails half-way leaves
    its earlier assignments behind. *)
Definition M (S A : Type) := S -> Outcome A * S.

Definition ret {S A} (a : A) : M S A := fun s => (Ok a, s).

Definition bind {S A B} (c : M S A) (k : A -> M S B) : M S B :=
  fun s =>
    match c s with
    | (Ok a, s') => k a s'
    | (Err e, s') => (Err e, s')
    | (Crash f, s') => (Crash f, s')
    end.

Definition lift {S A} (o : Outcome A) : M S A := fun s => (o, s).
Definition gets {S A} (f : S -> A) : M S A := fun s => (Ok (f s), s).
Definition modify {S} (f : S -> S) : M S unit := fun s => (Ok tt, f s).

Declare Scope method_scope.
Delimit Scope method_scope with M.
Notation "'let*' x := c 'in' k" := (bind c (fun x => k))
  (at level 10, x name, c at level 100, k at level 200) : method_scope.
Notation "'let*' '_' := c 'in' k" := (bind c (fun _ => k))
  (at level 10, c at level 100, k at level 200) : method_scope.

(** [CHECK_OR_RETURN(cond)]: return a failed [Maybe] unless [cond]. *)
Definition CHECK_OR_RETURN {S} (cond : bool) (msg : string) : M S unit :=
  lift (check_or_return cond msg).

(** Modelled from the spec: the macro [CHECK_NOTNULL_OR_RETURN] is defined
    in a header that is not embedded here; on a null pointer the caller gets a
    null-reference error as a failed [Maybe]. *)
Definition CHECK_NOTNULL_OR_RETURN {S T} (p : option T) : M S T :=
  match p with
  | Some x => ret x
  | None => lift (Err NullReferenceError)
  end.

(** [CHECK_JUST(expr)]: a failed [Maybe] ends the process. *)
Definition CHECK_JUST {S A} (c : M S A) : M S A :=
  fun s =>
    match c s with
    | (Err e, s') => (Crash (ProcessAbort e), s')
    | r => r
    end.

(** A method of an object of type [T] running in a runtime state [W]. *)
Definition this {T W} : M (T * W) T := gets fst.
Definition assign {T W} (f : T -> T) : M (T * W) unit :=
  modify (fun tw => (f (fst tw), snd tw)).
Definition in_world {T W A} (c : M W A) : M (T * W) A :=
  fun tw => let '(r, w') := c (snd tw) in (r, (fst tw, w')).

(** ** Tensor metas *)

Record MirroredTensorMeta := {
  shape_ptr : shared_const Shape;
  dtype : DataType;
  device : Symbol Device;
  is_dynamic : bool
}.

Record ConsistentTensorMeta := {
  consistent_shape_ptr : shared_const Shape;
  consistent_dtype : DataType;
  parallel_distribution : Symbol ParallelDistribution;
  parallel_desc : Symbol ParallelDesc;
  consistent_is_dynamic : bool
}.

Definition with_is_dynamic (b : bool) (m : MirroredTensorMeta) : MirroredTensorMeta :=
  {| shape_ptr := shape_ptr m; dtype := dtype m; device := device m;
     is_dynamic := b |}.

Definition with_consistent_is_dynamic (b : bool) (m : ConsistentTensorMeta)
  : ConsistentTensorMeta :=
  {| consistent_shape_ptr := consistent_shape_ptr m;
     consistent_dtype := consistent_dtype m;
     parallel_distribution := parallel_distribution m;
     parallel_desc := parallel_desc m;
     consistent_is_dynamic := b |}.

(** The [std::hash] specialisations the metas combine; they are defined
    with the value types, in other translation units, and enter as an
    interface. *)
Class Hashers := {
  hash_Shape : Shape -> Z;
  hash_DataType : DataType -> Z;
  hash_Device : Device -> Z;
  hash_Symbol_ParallelDistribution : Symbol ParallelDistribution -> Z;
  hash_Symbol_ParallelDesc : Symbol ParallelDesc -> Z
}.

(** [MirroredTensorMeta::operator==].  [&&] evaluates left to right, so the
    device symbols are dereferenced only once shapes and dtypes agree. *)
Definition MirroredTensorMeta_eq (self other : MirroredTensorMeta)
  : Outcome bool :=
  if bool_decide (obj (shape_ptr self) = obj (shape_ptr other))
     && bool_decide (dtype self = dtype other)
  then (let* d := deref (device self) in
        let* d' := deref (device other) in
        Ok (bool_decide (d = d')))%O
  else Ok false.

(** [MirroredTensorMeta::CalcHashValue]. *)
Definition MirroredTensorMeta_CalcHashValue `{Hashers}
    (self : MirroredTensorMeta) : Outcome Z :=
  (let* d := deref (device self) in
   Ok (Z.lxor (Z.lxor (hash_Shape (obj (shape_ptr self)))
                      (hash_DataType (dtype self)))
              (hash_Device d)))%O.

(** [ConsistentTensorMeta::operator==]: the two symbols are compared as
    symbols, nothing is dereferenced. *)
Definition ConsistentTensorMeta_eq (self other : ConsistentTensorMeta) : bool :=
  bool_decide (obj (consistent_shape_ptr self) = obj (consistent_shape_ptr other))
  && bool_decide (consistent_dtype self = consistent_dtype other)
  && bool_decide (parallel_distribution self = parallel_distribution other)
  && bool_decide (parallel_desc self = parallel_desc other).

(** [ConsistentTensorMeta::CalcHashValue]. *)
Definition ConsistentTensorMeta_CalcHashValue `{Hashers}
    (self : ConsistentTensorMeta) : Z :=
  Z.lxor
    (Z.lxor
       (Z.lxor (hash_Shape (obj (consistent_shape_ptr self)))
               (hash_DataType (consistent_dtype self)))
       (hash_Symbol_ParallelDistribution (parallel_distribution self)))
    (hash_Symbol_ParallelDesc (parallel_desc self)).

(** ** The gradient slot of [TensorImpl] *)

(** Modelled from the spec: [AutogradMeta] is defined outside the sources
    at hand.  It is the holder of the gradient slot: the getters return
    what the slot holds, the setters overwrite it.  Tensors are named by
    their address; a null [shared_ptr<Tensor>] is [None]. *)
Record AutogradMeta := {
  acc_grad_ : option addr;
  current_grad_ : addr;
  retain_grad_ : bool
}.

Definition AutogradMeta_acc_grad (m : AutogradMeta) : option addr := acc_grad_ m.
Definition AutogradMeta_current_grad (m : AutogradMeta) : addr := current_grad_ m.
Definition AutogradMeta_mut_acc_grad (m : AutogradMeta) : option addr := acc_grad_ m.
Definition AutogradMeta_set_acc_grad (grad : option addr) (m : AutogradMeta)
  : AutogradMeta :=
  {| acc_grad_ := grad; current_grad_ := current_grad_ m;
     retain_grad_ := retain_grad_ m |}.
Definition AutogradMeta_set_retain_grad (retain_grad : bool) (m : AutogradMeta)
  : AutogradMeta :=
  {| acc_grad_ := acc_grad_ m; current_grad_ := current_grad_ m;
     retain_grad_ := retain_grad |}.

(** Modelled from the spec: the members of the base class [TensorImpl]
    (tensor_impl.h is not embedded here): the two flags its
    constructor stores, and the gradient metadata, null until one is set. *)
Record TensorImpl := {
  requires_grad_ : bool;
  is_leaf_ : bool;
  autograd_meta_ : option AutogradMeta
}.

Definition new_TensorImpl (requires_grad is_leaf : bool) : TensorImpl :=
  {| requires_grad_ := requires_grad; is_leaf_ := is_leaf;
     autograd_meta_ := None |}.

Definition set_autograd_meta (m : option AutogradMeta) (t : TensorImpl)
  : TensorImpl :=
  {| requires_grad_ := requires_grad_ t; is_leaf_ := is_leaf_ t;
     autograd_meta_ := m |}.

(** [TensorImpl::acc_grad]. *)
Definition acc_grad : M TensorImpl (option addr) :=
  (let* self := gets id in
   let* autograd_meta := CHECK_NOTNULL_OR_RETURN (autograd_meta_ self) in
   ret (AutogradMeta_acc_grad autograd_meta))%M.

(** [TensorImpl::current_grad]. *)
Definition current_grad : M TensorImpl addr :=
  (let* self := gets id in
   let* autograd_meta := CHECK_NOTNULL_OR_RETURN (autograd_meta_ self) in
   ret (AutogradMeta_current_grad autograd_meta))%M.

(** [TensorImpl::set_acc_grad]. *)
Definition set_acc_grad (grad : option addr) : M TensorImpl unit :=
  (let* self := gets id in
   let* autograd_meta := CHECK_NOTNULL_OR_RETURN (autograd_meta_ self) in
   let* _ := modify (set_autograd_meta
                       (Some (AutogradMeta_set_acc_grad grad autograd_meta))) in
   ret tt)%M.

(** [TensorImpl::mut_acc_grad]. *)
Definition mut_acc_grad : M TensorImpl (option addr) :=
  (let* self := gets id in
   let* autograd_meta := CHECK_NOTNULL_OR_RETURN (autograd_meta_ self) in
   ret (AutogradMeta_mut_acc_grad autograd_meta))%M.

(** [TensorImpl::set_retain_grad]. *)
Definition set_retain_grad (retain_grad : bool) : M TensorImpl unit :=
  (let* self := gets id in
   let* autograd_meta := CHECK_NOTNULL_OR_RETURN (autograd_meta_ self) in
   let* _ := modify (set_autograd_meta
                       (Some (AutogradMeta_set_retain_grad retain_grad autograd_meta))) in
   ret tt)%M.

(** ** The runtime: blobs, storages and the instruction queue *)

Record MemoryCase := { mem_device_type : string; mem_device_id : Z }.

Record BlobDesc := {
  blob_shape_ptr : shared_const Shape;
  data_type : DataType
}.

(** Modelled from the spec: [vm::EagerBlobObject] (eager_blob_object.h is
    not embedded here): the buffer descriptor, the address of the
    tensor buffer, and the shape-synced flag. *)
Record EagerBlobObject := {
  mem_case_ : MemoryCase;
  blob_desc : BlobDesc;
  tensor_buffer : addr;
  blob_parallel_desc : ParallelDesc;
  is_shape_synced : bool
}.

Definition set_is_shape_synced (val : bool) (b : EagerBlobObject)
  : EagerBlobObject :=
  {| mem_case_ := mem_case_ b; blob_desc := blob_desc b;
     tensor_buffer := tensor_buffer b;
     blob_parallel_desc := blob_parallel_desc b;
     is_shape_synced := val |}.

(** The closure [UpdateTensorStorage] installs, by the two values it
    captures. *)
Record ReleaserHook := {
  captured_eager_blob_object : addr;
  captured_parallel_desc : ParallelDesc
}.

(** Modelled from the spec: [TensorStorage] (tensor_storage.h is not
    embedded here) owns the buffer and an optional release hook. *)
Record TensorStorage := {
  buffer : addr;
  releaser_hook_ : option ReleaserHook
}.

(** A [shared_ptr<TensorStorage>] target with the count of its owners. *)
Record StorageCell := {
  storage : TensorStorage;
  use_count : nat
}.

Inductive Callback :=
  | SetFlag (flag : addr).

Inductive Instruction :=
  | LocalCallOpKernel (outputs : list addr)
  | AccessBlobByCallback (blob : addr) (callback : Callback) (modifier : string)
  | ReleaseTensor (blob : addr) (pd : ParallelDesc).

Record World := {
  blobs : gmap addr EagerBlobObject;
  storages : gmap addr StorageCell;
  live_buffers : gset addr;
  atomic_flags : gmap addr bool;
  vm_queue : list Instruction;
  foreign_lock_held : bool;
  process_ctx : Z * Z;
  next_addr : addr;
  hook_log : list addr
}.

Definition with_blobs (f : gmap addr EagerBlobObject -> gmap addr EagerBlobObject)
    (w : World) : World :=
  {| blobs := f (blobs w); storages := storages w;
     live_buffers := live_buffers w; atomic_flags := atomic_flags w;
     vm_queue := vm_queue w; foreign_lock_held := foreign_lock_held w;
     process_ctx := process_ctx w; next_addr := next_addr w;
     hook_log := hook_log w |}.

Definition with_storages (f : gmap addr StorageCell -> gmap addr StorageCell)
    (w : World) : World :=
  {| blobs := blobs w; storages := f (storages w);
     live_buffers := live_buffers w; atomic_flags := atomic_flags w;
     vm_queue := vm_queue w; foreign_lock_held := foreign_lock_held w;
     process_ctx := process_ctx w; next_addr := next_addr w;
     hook_log := hook_log w |}.

Definition with_live_buffers (f : gset addr -> gset addr) (w : World) : World :=
  {| blobs := blobs w; storages := storages w;
     live_buffers := f (live_buffers w); atomic_flags := atomic_flags w;
     vm_queue := vm_queue w; foreign_lock_held := foreign_lock_held w;
     process_ctx := process_ctx w; next_addr := next_addr w;
     hook_log := hook_log w |}.

Definition with_atomic_flags (f : gmap addr bool -> gmap addr bool)
    (w : World) : World :=
  {| blobs := blobs w; storages := storages w;
     live_buffers := live_buffers w; atomic_flags := f (atomic_flags w);
     vm_queue := vm_queue w; foreign_lock_held := foreign_lock_held w;
     process_ctx := process_ctx w; next_addr := next_addr w;
     hook_log := hook_log w |}.

Definition with_vm_queue (f : list Instruction -> list Instruction)
    (w : World) : World :=
  {| blobs := blobs w; storages := storages w;
     live_buffers := live_buffers w; atomic_flags := atomic_flags w;
     vm_queue := f (vm_queue w); foreign_lock_held := foreign_lock_held w;
     process_ctx := process_ctx w; next_addr := next_addr w;
     hook_log := hook_log w |}.

Definition with_foreign_lock_held (held : bool) (w : World) : World :=
  {| blobs := blobs w; storages := storages w;
     live_buffers := live_buffers w; atomic_flags := atomic_flags w;
     vm_queue := vm_queue w; foreign_lock_held := held;
     process_ctx := process_ctx w; next_addr := next_addr w;
     hook_log := hook_log w |}.

Definition with_next_addr (f : addr -> addr) (w : World) : World :=
  {| blobs := blobs w; storages := storages w;
     live_buffers := live_buffers w; atomic_flags := atomic_flags w;
     vm_queue := vm_queue w; foreign_lock_held := foreign_lock_held w;
     process_ctx := process_ctx w; next_addr := f (next_addr w);
     hook_log := hook_log w |}.

Definition with_hook_log (f : list addr -> list addr) (w : World) : World :=
  {| blobs := blobs w; storages := storages w;
     live_buffers := live_buffers w; atomic_flags := atomic_flags w;
     vm_queue := vm_queue w; foreign_lock_held := foreign_lock_held w;
     process_ctx := process_ctx w; next_addr := next_addr w;
     hook_log := f (hook_log w) |}.

(** A fresh address, as [make_shared] or a local variable gets one. *)
Definition alloc : M World addr :=
  fun w => (Ok (next_addr w), with_next_addr S w).

(** [blob->...]: the blob behind a [shared_ptr<vm::EagerBlobObject>]. *)
Definition load_blob (p : option addr) : M World EagerBlobObject :=
  fun w =>
    match p with
    | None => (Crash NullDereference, w)
    | Some a =>
        match blobs w !! a with
        | Some b => (Ok b, w)
        | None => (Crash DanglingPointer, w)
        end
    end.

Definition load_storage (p : option addr) : M World StorageCell :=
  fun w =>
    match p with
    | None => (Crash NullDereference, w)
    | Some a =>
        match storages w !! a with
        | Some c => (Ok c, w)
        | None => (Crash DanglingPointer, w)
        end
    end.

(** *** The instruction builder and [PhysicalRun] *)

(** The builder, by the instructions it has collected. *)
Abbreviation InstructionsBuilder := (list Instruction).

(** Modelled from the spec: [InstructionsBuilder::AccessBlobByCallback]
    queues an instruction on the tensor's blob that calls the callback once
    the blob is materialised; a tensor without a blob is a failed [Maybe]. *)
Definition Builder_AccessBlobByCallback (tensor_blob : option addr)
    (callback : Callback) (modifier : string) : M InstructionsBuilder unit :=
  match tensor_blob with
  | None => lift (Err (CheckFailedError "eager_blob_object_"))
  | Some b => modify (fun l => l ++ [AccessBlobByCallback b callback modifier])
  end.

(** Modelled from the spec: [InstructionsBuilder::ReleaseTensor] queues the
    disposal of a blob's resources. *)
Definition Builder_ReleaseTensor (eager_blob_object : addr)
    (pd : ParallelDesc) : M InstructionsBuilder unit :=
  modify (fun l => l ++ [ReleaseTensor eager_blob_object pd]).

(** Modelled from the spec: [PhysicalRun(build_fn)] runs the builder
    callback and appends what it produced to the queue, then returns;
    nothing is executed by the call itself. *)
Definition PhysicalRun (build : M InstructionsBuilder unit) : M World unit :=
  fun w =>
    match build [] with
    | (Ok _, instructions) =>
        (Ok tt, with_vm_queue (fun q => q ++ instructions) w)
    | (Err e, _) => (Err e, w)
    | (Crash f, _) => (Crash f, w)
    end.

(** *** The executor *)

(** Modelled from the spec: what executing one instruction does to the
    runtime state.  The access instruction calls its callback, the release
    instruction disposes of the blob's buffer, and a kernel launch changes
    tensor contents only, which are not part of this state. *)
Definition execute (i : Instruction) (w : World) : World :=
  match i with
  | LocalCallOpKernel _ => w
  | AccessBlobByCallback _ (SetFlag flag) _ =>
      with_atomic_flags (fun m => <[flag := true]> m) w
  | ReleaseTensor b _ =>
      match blobs w !! b with
      | Some blob =>
          with_live_buffers (fun s => s ∖ {[tensor_buffer blob]}) w
      | None => w
      end
  end.

Definition flag_is_set (flag : addr) (w : World) : bool :=
  match atomic_flags w !! flag with
  | Some true => true
  | _ => false
  end.

(** Modelled from the spec: the executor beside the spinning caller (the
    virtual machine is not embedded here).  Instructions leave the queue in
    the order they were queued until the flag is seen set; [None] when the
    queue runs dry first, and the caller would spin for ever. *)
Fixpoint run_until_flag (flag : addr) (queue : list Instruction) (w : World)
  : option World :=
  if flag_is_set flag w then Some (with_vm_queue (fun _ => queue) w)
  else
    match queue with
    | [] => None
    | i :: rest => run_until_flag flag rest (execute i w)
    end.

(** [while (!synced) {}].  The executor needs the foreign lock: while the
    caller holds it, no instruction runs. *)
Definition spin_wait (flag : addr) : M World unit :=
  fun w =>
    if foreign_lock_held w then
      if flag_is_set flag w then (Ok tt, w) else (Crash SpinsForever, w)
    else
      match run_until_flag flag (vm_queue w) w with
      | Some w' => (Ok tt, w')
      | None => (Crash SpinsForever, w)
      end.

(** Modelled from the spec: [ForeignLockHelper::WithScopedRelease(fn)]
    releases the foreign lock for the duration of [fn]. *)
Definition WithScopedRelease {A} (fn : M World A) : M World A :=
  fun w =>
    let held := foreign_lock_held w in
    let '(r, w') := fn (with_foreign_lock_held false w) in
    (r, with_foreign_lock_held held w').

(** *** Ownership of a [TensorStorage] *)

(** The hook body:
    [CHECK_JUST(PhysicalRun([&](builder) { JUST(builder->ReleaseTensor(...)); }))]. *)
Definition invoke_releaser_hook (h : ReleaserHook) : M World unit :=
  CHECK_JUST (PhysicalRun
    (let* _ := Builder_ReleaseTensor (captured_eager_blob_object h)
                 (captured_parallel_desc h) in
     ret tt)%M).

(** Modelled from the spec: the destructor of [TensorStorage] calls the
    release hook if one is installed.  [hook_log] notes whose hook ran; it
    is bookkeeping for the proofs and nothing reads it. *)
Definition destroy_TensorStorage (a : addr) (s : TensorStorage) : M World unit :=
  match releaser_hook_ s with
  | Some h =>
      (let* _ := modify (with_hook_log (fun l => l ++ [a])) in
       invoke_releaser_hook h)%M
  | None => ret tt
  end.

(** Copying a [shared_ptr<TensorStorage>]: one more owner. *)
Definition copy_storage_ref (p : option addr) : M World unit :=
  match p with
  | None => ret tt
  | Some a =>
      (let* c := load_storage p in
       modify (with_storages
                 (fun m => <[a := {| storage := storage c;
                                     use_count := S (use_count c) |}]> m)))%M
  end.

(** Dropping a [shared_ptr<TensorStorage>]: one owner less, and the last
    one destroys the storage. *)
Definition drop_storage_ref (p : option addr) : M World unit :=
  match p with
  | None => ret tt
  | Some a =>
      (let* c := load_storage p in
       if (use_count c <=? 1)%nat then
         let* _ := modify (with_storages (fun m => delete a m)) in
         destroy_TensorStorage a (storage c)
       else
         modify (with_storages
                   (fun m => <[a := {| storage := storage c;
                                       use_count := pred (use_count c) |}]> m)))%M
  end.

(** [std::make_shared<TensorStorage>(tensor_buffer)]. *)
Definition make_shared_TensorStorage (tensor_buffer : addr) : M World addr :=
  (let* a := alloc in
   let* _ := modify (with_storages
               (fun m => <[a := {| storage := {| buffer := tensor_buffer;
                                                 releaser_hook_ := None |};
                                   use_count := 1 |}]> m)) in
   ret a)%M.

(** [storage->set_releaser_hook(hook)]. *)
Definition set_releaser_hook (p : option addr) (h : ReleaserHook) : M World unit :=
  (let* c := load_storage p in
   match p with
   | Some a =>
       modify (with_storages
                 (fun m => <[a := {| storage := {| buffer := buffer (storage c);
                                                   releaser_hook_ := Some h |};
                                     use_count := use_count c |}]> m))
   | None => ret tt
   end)%M.

(** ** Mirrored tensor implementations *)

Record LazyMirroredTensorImpl := {
  lazy_base : TensorImpl;
  lazy_tensor_meta_ : shared_const MirroredTensorMeta
}.

Record EagerMirroredTensorImpl := {
  base : TensorImpl;
  tensor_meta_ : shared_const MirroredTensorMeta;
  eager_blob_object_ : option addr;
  tensor_storage_ : option addr
}.

Inductive MirroredTensorImpl :=
  | LazyImpl (impl : LazyMirroredTensorImpl)
  | EagerImpl (impl : EagerMirroredTensorImpl).

Definition set_eager_blob_object_ (p : option addr)
    (t : EagerMirroredTensorImpl) : EagerMirroredTensorImpl :=
  {| base := base t; tensor_meta_ := tensor_meta_ t;
     eager_blob_object_ := p; tensor_storage_ := tensor_storage_ t |}.

Definition set_tensor_storage_ (p : option addr)
    (t : EagerMirroredTensorImpl) : EagerMirroredTensorImpl :=
  {| base := base t; tensor_meta_ := tensor_meta_ t;
     eager_blob_object_ := eager_blob_object_ t; tensor_storage_ := p |}.

(** [LazyMirroredTensorImpl(tensor_meta, requires_grad, is_leaf)]. *)
Definition new_LazyMirroredTensorImpl
    (tensor_meta : shared_const MirroredTensorMeta)
    (requires_grad is_leaf : bool) : LazyMirroredTensorImpl :=
  {| lazy_base := new_TensorImpl requires_grad is_leaf;
     lazy_tensor_meta_ := tensor_meta |}.

(** [NewDefaultMirroredTensorMeta]. *)
Definition NewDefaultMirroredTensorMeta : M World (shared_const MirroredTensorMeta) :=
  (let* shape_addr := alloc in
   let* meta_addr := alloc in
   ret (SharedConst meta_addr
          {| shape_ptr := SharedConst shape_addr [];
             dtype := kInvalidDataType;
             device := None;
             is_dynamic := false |}))%M.

(** [EagerMirroredTensorImpl(tensor_meta, requires_grad, is_leaf)]. *)
Definition new_EagerMirroredTensorImpl
    (tensor_meta : shared_const MirroredTensorMeta)
    (requires_grad is_leaf : bool) : EagerMirroredTensorImpl :=
  {| base := new_TensorImpl requires_grad is_leaf;
     tensor_meta_ := tensor_meta;
     eager_blob_object_ := None;
     tensor_storage_ := None |}.

(** [EagerMirroredTensorImpl()]. *)
Definition new_default_EagerMirroredTensorImpl : M World EagerMirroredTensorImpl :=
  (let* meta := NewDefaultMirroredTensorMeta in
   ret (new_EagerMirroredTensorImpl meta false false))%M.

(** [EagerMirroredTensorImpl(tensor_meta, tensor_storage, requires_grad,
    is_leaf)]: the member keeps a copy of the storage pointer. *)
Definition new_EagerMirroredTensorImpl_with_storage
    (tensor_meta : shared_const MirroredTensorMeta)
    (tensor_storage : option addr) (requires_grad is_leaf : bool)
  : M World EagerMirroredTensorImpl :=
  (let* _ := copy_storage_ref tensor_storage in
   ret {| base := new_TensorImpl requires_grad is_leaf;
          tensor_meta_ := tensor_meta;
          eager_blob_object_ := None;
          tensor_storage_ := tensor_storage |})%M.

(** [~EagerMirroredTensorImpl]: the members go, and with them this owner
    of the storage. *)
Definition delete_EagerMirroredTensorImpl (t : EagerMirroredTensorImpl)
  : M World unit :=
  drop_storage_ref (tensor_storage_ t).

(** [LazyMirroredTensorImpl::detach]. *)
Definition LazyMirroredTensorImpl_detach (self : LazyMirroredTensorImpl)
  : Outcome MirroredTensorImpl :=
  let detached_impl :=
    new_LazyMirroredTensorImpl (lazy_tensor_meta_ self) false true in
  Ok (LazyImpl detached_impl).

(** Modelled from the spec: [Device::parallel_desc_ptr] and
    [Device::mem_case] (device.h is not embedded here): the
    one-device group of the device on this machine, and its memory. *)
Definition parallel_desc_ptr (d : Device) (w : World) : ParallelDesc :=
  {| device_tag := device_type d;
     machine_device_ids := [(fst (process_ctx w), device_id d)] |}.

Definition mem_case (d : Device) : MemoryCase :=
  {| mem_device_type := device_type d; mem_device_id := device_id d |}.

(** [EagerMirroredTensorImpl::UpdateTensorStorage]. *)
Definition UpdateTensorStorage : M (EagerMirroredTensorImpl * World) unit :=
  (let* self := this in
   let eager_blob_object := eager_blob_object_ self in
   let* blob := in_world (load_blob eager_blob_object) in
   let* new_storage := in_world (make_shared_TensorStorage (tensor_buffer blob)) in
   let* _ := assign (set_tensor_storage_ (Some new_storage)) in
   let* _ := in_world (drop_storage_ref (tensor_storage_ self)) in
   let* d := lift (deref (device (obj (tensor_meta_ self)))) in
   let* pd := in_world (gets (parallel_desc_ptr d)) in
   match eager_blob_object with
   | Some b =>
       in_world (set_releaser_hook (Some new_storage)
                   {| captured_eager_blob_object := b;
                      captured_parallel_desc := pd |})
   | None => ret tt
   end)%M.

(** [EagerMirroredTensorImpl::set_eager_blob_object]. *)
Definition set_eager_blob_object (eager_blob_object : option addr)
  : M (EagerMirroredTensorImpl * World) unit :=
  (let* _ := assign (set_eager_blob_object_ eager_blob_object) in
   let* self := this in
   let* blob := in_world (load_blob (eager_blob_object_ self)) in
   let* _ := CHECK_OR_RETURN
               (bool_decide (get (blob_shape_ptr (blob_desc blob))
                             = get (shape_ptr (obj (tensor_meta_ self))))) "" in
   let* _ := CHECK_OR_RETURN
               (bool_decide (data_type (blob_desc blob)
                             = dtype (obj (tensor_meta_ self)))) "" in
   let* _ := UpdateTensorStorage in
   ret tt)%M.

(** [std::make_shared<vm::TensorBuffer>()]. *)
Definition make_shared_TensorBuffer : M World addr :=
  (let* a := alloc in
   let* _ := modify (with_live_buffers (fun s => {[a]} ∪ s)) in
   ret a)%M.

(** Modelled from the spec: the constructor of [vm::EagerBlobObject]; a
    new blob shares the shape object it is given and has nothing pending,
    so its shape counts as synced. *)
Definition make_shared_EagerBlobObject (mc : MemoryCase)
    (shape : shared_const Shape) (dt : DataType) (tensor_buffer : addr)
    (pd : ParallelDesc) : M World addr :=
  (let* a := alloc in
   let* _ := modify (with_blobs
               (fun m => <[a := {| mem_case_ := mc;
                                   blob_desc := {| blob_shape_ptr := shape;
                                                   data_type := dt |};
                                   tensor_buffer := tensor_buffer;
                                   blob_parallel_desc := pd;
                                   is_shape_synced := true |}]> m)) in
   ret a)%M.

(** [EagerMirroredTensorImpl::InitEagerBlobObject]. *)
Definition InitEagerBlobObject (mc : MemoryCase)
  : M (EagerMirroredTensorImpl * World) unit :=
  (let* self := this in
   let tensor_device := device (obj (tensor_meta_ self)) in
   let* _ := CHECK_OR_RETURN (bool_decide (is_Some tensor_device)) "" in
   let mut_shape := shape_ptr (obj (tensor_meta_ self)) in
   let* tensor_buffer := in_world make_shared_TensorBuffer in
   let* d := lift (deref tensor_device) in
   let* pd := in_world (gets (parallel_desc_ptr d)) in
   let* eager_blob_object :=
     in_world (make_shared_EagerBlobObject mc mut_shape
                 (dtype (obj (tensor_meta_ self))) tensor_buffer pd) in
   let* _ := set_eager_blob_object (Some eager_blob_object) in
   ret tt)%M.

(** [EagerMirroredTensorImpl::InitEagerBlobObjectAndTensorStorage]. *)
Definition InitEagerBlobObjectAndTensorStorage
    (eager_blob_object tensor_storage : option addr)
  : M (EagerMirroredTensorImpl * World) unit :=
  (let* self := this in
   let* blob := in_world (load_blob eager_blob_object) in
   let* cell := in_world (load_storage tensor_storage) in
   let* _ := CHECK_OR_RETURN
               (bool_decide (tensor_buffer blob = buffer (storage cell))) "" in
   let* _ := assign (set_eager_blob_object_ eager_blob_object) in
   let* _ := in_world (copy_storage_ref tensor_storage) in
   let* _ := assign (set_tensor_storage_ tensor_storage) in
   let* _ := in_world (drop_storage_ref (tensor_storage_ self)) in
   ret tt)%M.

(** [std::atomic<bool> synced(false)], a local of [shape]. *)
Definition new_atomic_flag (init : bool) : M World addr :=
  (let* a := alloc in
   let* _ := modify (with_atomic_flags (fun m => <[a := init]> m)) in
   ret a)%M.

Definition end_atomic_flag (flag : addr) : M World unit :=
  modify (with_atomic_flags (fun m => delete flag m)).

(** [EagerMirroredTensorImpl::shape]. *)
Definition shape (self : EagerMirroredTensorImpl) : M World (shared_const Shape) :=
  match eager_blob_object_ self with
  | None => ret (shape_ptr (obj (tensor_meta_ self)))
  | Some b =>
      (let* blob := load_blob (Some b) in
       if is_shape_synced blob then ret (blob_shape_ptr (blob_desc blob))
       else
         let* synced := new_atomic_flag false in
         let* _ := CHECK_JUST (PhysicalRun
                     (let* _ := Builder_AccessBlobByCallback
                                  (eager_blob_object_ self) (SetFlag synced) "const" in
                      ret tt)) in
         let* _ := WithScopedRelease (spin_wait synced) in
         let* _ := end_atomic_flag synced in
         let* _ := modify (with_blobs (alter (set_is_shape_synced true) b)) in
         let* blob' := load_blob (Some b) in
         ret (blob_shape_ptr (blob_desc blob')))%M
  end.

(** [EagerMirroredTensorImpl::detach]. *)
Definition EagerMirroredTensorImpl_detach (self : EagerMirroredTensorImpl)
  : M World MirroredTensorImpl :=
  (let* detached_impl :=
     new_EagerMirroredTensorImpl_with_storage
       (tensor_meta_ self) (tensor_storage_ self) false true in
   let detached_impl :=
     set_eager_blob_object_ (eager_blob_object_ self) detached_impl in
   ret (EagerImpl detached_impl))%M.

(** The virtual [detach] of a mirrored implementation. *)
Definition detach (self : MirroredTensorImpl) : M World MirroredTensorImpl :=
  match self with
  | LazyImpl i => lift (LazyMirroredTensorImpl_detach i)
  | EagerImpl i => EagerMirroredTensorImpl_detach i
  end.

Definition impl_base (i : MirroredTensorImpl) : TensorImpl :=
  match i with
  | LazyImpl l => lazy_base l
  | EagerImpl e => base e
  end.

Definition impl_tensor_meta (i : MirroredTensorImpl)
  : shared_const MirroredTensorMeta :=
  match i with
  | LazyImpl l => lazy_tensor_meta_ l
  | EagerImpl e => tensor_meta_ e
  end.

(** ** Mirrored tensors and consistent tensor implementations *)

(** Modelled from the spec: [MirroredTensor] (tensor.h is not
    embedded here) wraps an implementation and forwards the capability
    set to it. *)
Record MirroredTensor := { impl_ : MirroredTensorImpl }.

Definition MirroredTensor_is_lazy (t : MirroredTensor) : bool :=
  match impl_ t with
  | LazyImpl _ => true
  | EagerImpl _ => false
  end.

Definition MirroredTensor_requires_grad (t : MirroredTensor) : bool :=
  requires_grad_ (impl_base (impl_ t)).

Definition MirroredTensor_is_leaf (t : MirroredTensor) : bool :=
  is_leaf_ (impl_base (impl_ t)).

Definition MirroredTensor_dtype (t : MirroredTensor) : DataType :=
  dtype (obj (impl_tensor_meta (impl_ t))).

Definition MirroredTensor_device (t : MirroredTensor) : Outcome (Symbol Device) :=
  Ok (device (obj (impl_tensor_meta (impl_ t)))).

Definition MirroredTensor_shape (t : MirroredTensor) : M World (shared_const Shape) :=
  match impl_ t with
  | LazyImpl l => ret (shape_ptr (obj (lazy_tensor_meta_ l)))
  | EagerImpl e => shape e
  end.

Record EagerConsistentTensorImpl := {
  consistent_base : TensorImpl;
  consistent_tensor_meta_ : Symbol ConsistentTensorMeta;
  cur_rank_phy_tensor_ : option MirroredTensor
}.

(** The four-argument constructor of [EagerConsistentTensorImpl]:
    the base is initialised from [cur_rank_phy_tensor->requires_grad()] and
    [cur_rank_phy_tensor->is_leaf()]; the parameters [requires_grad] and
    [is_leaf] are not read. *)
Definition new_EagerConsistentTensorImpl
    (consistent_tensor_meta : Symbol ConsistentTensorMeta)
    (requires_grad is_leaf : bool)
    (cur_rank_phy_tensor : option MirroredTensor)
  : Outcome EagerConsistentTensorImpl :=
  (let* t := deref cur_rank_phy_tensor in
   Ok {| consistent_base :=
           new_TensorImpl (MirroredTensor_requires_grad t)
                          (MirroredTensor_is_leaf t);
         consistent_tensor_meta_ := consistent_tensor_meta;
         cur_rank_phy_tensor_ := cur_rank_phy_tensor |})%O.

(** [GlobalProcessCtx::GetCurrentMachineIdAndDeviceId]. *)
Definition GetCurrentMachineIdAndDeviceId : M World (Z * Z) := gets process_ctx.

(** Modelled from the spec: [Device::ThreadLocalGetOrNew] (device.h is
    not embedded here) gives the interned device of a kind and a
    device id. *)
Definition Device_ThreadLocalGetOrNew (type : string) (id : Z)
  : Outcome (Symbol Device) :=
  Ok (Some {| device_type := type; device_id := id |}).

Fixpoint index_of (x : Z * Z) (l : list (Z * Z)) (i : Z) : option Z :=
  match l with
  | [] => None
  | y :: rest => if bool_decide (x = y) then Some i else index_of x rest (i + 1)
  end.

(** Modelled from the spec: [ParallelDesc::GetDevice4CurrentProcessCtx]
    (parallel_desc.h is not embedded here) yields, for the
    current process, its rank's device and parallel id, and no device when
    the process does not take part; [parallel_id] is then left as it was. *)
Definition GetDevice4CurrentProcessCtx (pd : ParallelDesc) (parallel_id : Z)
  : M World (Symbol Device * Z) :=
  (let* ctx := gets process_ctx in
   match index_of ctx (machine_device_ids pd) 0 with
   | Some i => ret (Some {| device_type := device_tag pd; device_id := snd ctx |}, i)
   | None => ret (None, parallel_id)
   end)%M.

(** [EagerConsistentTensorImpl::New(cur_rank_phy_tensor,
    parallel_distribution, parallel_desc)]. *)
Definition New_from_phy_tensor (cur_rank_phy_tensor : option MirroredTensor)
    (sbp : Symbol ParallelDistribution) (pd : Symbol ParallelDesc)
  : M World EagerConsistentTensorImpl :=
  (let* t := lift (deref cur_rank_phy_tensor) in
   let* _ := CHECK_OR_RETURN (negb (MirroredTensor_is_lazy t)) "" in
   let* ids := GetCurrentMachineIdAndDeviceId in
   let* desc := lift (deref pd) in
   let* device := lift (Device_ThreadLocalGetOrNew (device_tag desc) (snd ids)) in
   let* cur_rank_phy_device := lift (MirroredTensor_device t) in
   let* d := lift (deref device) in
   let* d' := lift (deref cur_rank_phy_device) in
   let* _ := CHECK_OR_RETURN (bool_decide (d = d'))
               "only LocalTensors on current rank Device can be casted to ConsistentTensor" in
   let* phy_shape := MirroredTensor_shape t in
   let* distribution := lift (deref sbp) in
   let* logical := lift (GetLogicalShape (obj phy_shape) distribution desc) in
   let* shape_addr := alloc in
   let consistent_tensor_meta :=
     Some {| consistent_shape_ptr := SharedConst shape_addr logical;
             consistent_dtype := MirroredTensor_dtype t;
             parallel_distribution := sbp;
             parallel_desc := pd;
             consistent_is_dynamic := false |} in
   lift (new_EagerConsistentTensorImpl consistent_tensor_meta
           (MirroredTensor_requires_grad t) (MirroredTensor_is_leaf t)
           cur_rank_phy_tensor))%M.

(** Running a method on an object local to the caller. *)
Definition on_object {T W A} (o : T) (c : M (T * W) A) : M W (A * T) :=
  fun w =>
    match c (o, w) with
    | (Ok a, (o', w')) => (Ok (a, o'), w')
    | (Err e, (_, w')) => (Err e, w')
    | (Crash f, (_, w')) => (Crash f, w')
    end.

(** [EagerConsistentTensorImpl::NewWithPhyTensor]. *)
Definition NewWithPhyTensor (consistent_tensor_meta : Symbol ConsistentTensorMeta)
    (device : Symbol Device) (parallel_id : Z) (requires_grad is_leaf : bool)
  : M World EagerConsistentTensorImpl :=
  (let* meta := lift (deref consistent_tensor_meta) in
   let* distribution := lift (deref (parallel_distribution meta)) in
   let* desc := lift (deref (parallel_desc meta)) in
   let* phy := lift (GetPhysicalShape (obj (consistent_shape_ptr meta))
                       distribution desc parallel_id) in
   let* shape_addr := alloc in
   let* meta_addr := alloc in
   let cur_rank_phy_tensor_meta :=
     SharedConst meta_addr
       {| shape_ptr := SharedConst shape_addr phy;
          dtype := consistent_dtype meta;
          device := device;
          is_dynamic := false |} in
   let cur_rank_phy_tensor_impl :=
     new_EagerMirroredTensorImpl cur_rank_phy_tensor_meta requires_grad is_leaf in
   let* d := lift (deref device) in
   let* r := on_object cur_rank_phy_tensor_impl (InitEagerBlobObject (mem_case d)) in
   let cur_rank_phy_tensor := {| impl_ := EagerImpl (snd r) |} in
   lift (new_EagerConsistentTensorImpl consistent_tensor_meta
           (MirroredTensor_requires_grad cur_rank_phy_tensor)
           (MirroredTensor_is_leaf cur_rank_phy_tensor)
           (Some cur_rank_phy_tensor)))%M.

(** [EagerConsistentTensorImpl::NewWithoutPhyTensor]. *)
Definition NewWithoutPhyTensor (consistent_tensor_meta : Symbol ConsistentTensorMeta)
    (device : Symbol Device) (parallel_id : Z) (requires_grad is_leaf : bool)
  : M World EagerConsistentTensorImpl :=
  lift (new_EagerConsistentTensorImpl consistent_tensor_meta requires_grad is_leaf
          None).

(** [EagerConsistentTensorImpl::New(consistent_tensor_meta, requires_grad,
    is_leaf)]. *)
Definition New_from_meta (consistent_tensor_meta : Symbol ConsistentTensorMeta)
    (requires_grad is_leaf : bool) : M World EagerConsistentTensorImpl :=
  (let* meta := lift (deref consistent_tensor_meta) in
   let* desc := lift (deref (parallel_desc meta)) in
   let* r := GetDevice4CurrentProcessCtx desc (-1) in
   let device := fst r in
   let parallel_id := snd r in
   let NewImpl :=
     if bool_decide (is_Some device) then NewWithPhyTensor else NewWithoutPhyTensor in
   NewImpl consistent_tensor_meta device parallel_id requires_grad is_leaf)%M.

(** ** Sequences of owner events on storages *)

(** What the owners of tensor storages do over time: an implementation is
    detached, which makes one more owner of its storage, or an
    implementation is deleted, which makes one owner less. *)
Inductive OwnerEvent :=
  | Detached (impl : EagerMirroredTensorImpl)
  | Deleted (impl : EagerMirroredTensorImpl).

Definition owner_event (ev : OwnerEvent) (w : World) : World :=
  match ev with
  | Detached impl => snd (EagerMirroredTensorImpl_detach impl w)
  | Deleted impl => snd (delete_EagerMirroredTensorImpl impl w)
  end.

Definition owner_events (evs : list OwnerEvent) (w : World) : World :=
  fold_left (fun w ev => owner_event ev w) evs w.

(** How often the hook of the storage at [a] has run. *)
Definition hook_runs (a : addr) (w : World) : nat :=
  length (filter (fun x => x = a) (hook_log w)).

(** What is left of the hook of the storage at [a]: the runs so far, and
    one more while the storage is alive. *)
Definition hook_budget (a : addr) (w : World) : nat :=
  (hook_runs a w + match storages w !! a with Some _ => 1 | None => 0 end)%nat.

(** ** Observers used in the statements *)

(** A [shared_ptr<TensorStorage>] is null or points to a storage that is
    alive. *)
Definition valid_storage_ref (p : option addr) (w : World) : Prop :=
  match p with
  | None => True
  | Some a => is_Some (storages w !! a)
  end.

Definition impl_blob (i : MirroredTensorImpl) : option addr :=
  match i with
  | LazyImpl _ => None
  | EagerImpl e => eager_blob_object_ e
  end.

Definition impl_storage (i : MirroredTensorImpl) : option addr :=
  match i with
  | LazyImpl _ => None
  | EagerImpl e => tensor_storage_ e
  end.

Definition impl_is_lazy (i : MirroredTensorImpl) : bool :=
  match i with
  | LazyImpl _ => true
  | EagerImpl _ => false
  end.

(** The blob and the storage bound to an implementation sit on one
    buffer. *)
Definition bound_one_to_one (self : EagerMirroredTensorImpl) (w : World) : Prop :=
  forall b s blob cell,
    eager_blob_object_ self = Some b ->
    tensor_storage_ self = Some s ->
    blobs w !! b = Some blob ->
    storages w !! s = Some cell ->
    tensor_buffer blob = buffer (storage cell).

(** ** Concrete objects for examples *)

Definition cuda0 : Device := {| device_type := "cuda"; device_id := 0 |}.
Definition cuda1 : Device := {| device_type := "cuda"; device_id := 1 |}.

(** A runtime with nothing allocated, on machine 0, device 0. *)
Definition idle_world : World :=
  {| blobs := ∅; storages := ∅; live_buffers := ∅; atomic_flags := ∅;
     vm_queue := []; foreign_lock_held := true; process_ctx := (0, 0);
     next_addr := 100%nat; hook_log := [] |}.

(** The same runtime in a process that is machine 7, device 0. *)
Definition outsider_world : World :=
  {| blobs := ∅; storages := ∅; live_buffers := ∅; atomic_flags := ∅;
     vm_queue := []; foreign_lock_held := true; process_ctx := (7, 0);
     next_addr := 100%nat; hook_log := [] |}.

(** The same runtime in the process that drives device 1 of machine 0. *)
Definition device1_world : World :=
  {| blobs := ∅; storages := ∅; live_buffers := ∅; atomic_flags := ∅;
     vm_queue := []; foreign_lock_held := true; process_ctx := (0, 1);
     next_addr := 100%nat; hook_log := [] |}.

Definition meta_2_4 (dynamic : bool) : MirroredTensorMeta :=
  {| shape_ptr := SharedConst 1%nat [2; 4]; dtype := 2%nat;
     device := Some cuda0; is_dynamic := dynamic |}.

Definition consistent_meta_8_4 (dynamic : bool) : ConsistentTensorMeta :=
  {| consistent_shape_ptr := SharedConst 2%nat [8; 4];
     consistent_dtype := 2%nat;
     parallel_distribution := Some [SplitParallel 0];
     parallel_desc := Some four_ranks;
     consistent_is_dynamic := dynamic |}.

Definition blob_2_4 (synced : bool) : EagerBlobObject :=
  {| mem_case_ := mem_case cuda0;
     blob_desc := {| blob_shape_ptr := SharedConst 1%nat [2; 4];
                     data_type := 2%nat |};
     tensor_buffer := 20%nat;
     blob_parallel_desc := {| device_tag := "cuda";
                              machine_device_ids := [(0, 0)] |};
     is_shape_synced := synced |}.

(** A runtime in the middle of work: the blob at 10 awaits its producer,
    the storage at 30 owns the blob's buffer and carries the release hook,
    the storage at 31 owns another buffer. *)
Definition busy_world : World :=
  {| blobs := {[ 10%nat := blob_2_4 false ]};
     storages :=
       {[ 30%nat := {| storage :=
                         {| buffer := 20%nat;
                            releaser_hook_ :=
                              Some {| captured_eager_blob_object := 10%nat;
                                      captured_parallel_desc :=
                                        {| device_tag := "cuda";
                                           machine_device_ids := [(0, 0)] |} |} |};
                       use_count := 1 |};
          31%nat := {| storage := {| buffer := 21%nat; releaser_hook_ := None |};
                       use_count := 1 |} ]};
     live_buffers := {[ 20%nat; 21%nat ]};
     atomic_flags := ∅;
     vm_queue := [LocalCallOpKernel [10%nat]];
     foreign_lock_held := true;
     process_ctx := (0, 0);
     next_addr := 100%nat;
     hook_log := [] |}.

Definition bound_impl : EagerMirroredTensorImpl :=
  {| base := new_TensorImpl true false;
     tensor_meta_ := SharedConst 3%nat (meta_2_4 false);
     eager_blob_object_ := Some 10%nat;
     tensor_storage_ := Some 30%nat |}.

Definition lazy_tensor_2_4 : MirroredTensor :=
  {| impl_ := LazyImpl (new_LazyMirroredTensorImpl
                          (SharedConst 3%nat (meta_2_4 false)) true false) |}.

Definition eager_impl_2_4 : EagerMirroredTensorImpl :=
  new_EagerMirroredTensorImpl (SharedConst 3%nat (meta_2_4 false)) true false.

Definition eager_tensor_2_4 : MirroredTensor :=
  {| impl_ := EagerImpl eager_impl_2_4 |}.

(** ** Sequences of calls on the gradient slot *)

(** What a user of an implementation can ask of its gradient slot. *)
Inductive GradientCall :=
  | CallAccGrad
  | CallCurrentGrad
  | CallSetAccGrad (grad : option addr)
  | CallMutAccGrad
  | CallSetRetainGrad (retain_grad : bool).

(** The implementation after one call, whatever the call returned. *)
Definition gradient_call (c : GradientCall) (t : TensorImpl) : TensorImpl :=
  match c with
  | CallAccGrad => snd (acc_grad t)
  | CallCurrentGrad => snd (current_grad t)
  | CallSetAccGrad grad => snd (set_acc_grad grad t)
  | CallMutAccGrad => snd (mut_acc_grad t)
  | CallSetRetainGrad retain_grad => snd (set_retain_grad retain_grad t)
  end.

Definition gradient_calls (cs : list GradientCall) (t : TensorImpl) : TensorImpl :=
  fold_left (fun t c => gradient_call c t) cs t.

(** Whether a call returned without error. *)
Definition gradient_call_returns (c : GradientCall) (t : TensorImpl) : bool :=
  match c with
  | CallAccGrad => match fst (acc_grad t) with Ok _ => true | _ => false end
  | CallCurrentGrad => match fst (current_grad t) with Ok _ => true | _ => false end
  | CallSetAccGrad grad =>
      match fst (set_acc_grad grad t) with Ok _ => true | _ => false end
  | CallMutAccGrad => match fst (mut_acc_grad t) with Ok _ => true | _ => false end
  | CallSetRetainGrad retain_grad =>
      match fst (set_retain_grad retain_grad t) with Ok _ => true | _ => false end
  end.

(** Whether every call of a sequence returns, each on the implementation
    the calls before it left; and whether none does. *)
Fixpoint all_calls_return (cs : list GradientCall) (t : TensorImpl) : bool :=
  match cs with
  | [] => true
  | c :: rest => gradient_call_returns c t && all_calls_return rest (gradient_call c t)
  end.

Fixpoint no_call_returns (cs : list GradientCall) (t : TensorImpl) : bool :=
  match cs with
  | [] => true
  | c :: rest =>
      negb (gradient_call_returns c t) && no_call_returns rest (gradient_call c t)
  end.

(** A meta as [NewDefaultMirroredTensorMeta] makes it, at given addresses:
    no extent, the invalid dtype, the null device. *)
Definition default_meta_at (shape_addr meta_addr : addr)
  : shared_const MirroredTensorMeta :=
  SharedConst meta_addr
    {| shape_ptr := SharedConst shape_addr [];
       dtype := kInvalidDataType;
       device := None;
       is_dynamic := false |}.

(** An eager tensor on an implementation as [EagerMirroredTensorImpl()]
    builds it: the meta has the null device. *)
Definition null_device_tensor : MirroredTensor :=
  {| impl_ := EagerImpl (new_EagerMirroredTensorImpl
                           (default_meta_at 1%nat 2%nat) false false) |}.



(** A consistent meta whose split names an axis the shape does not have. *)
Definition consistent_meta_bad_axis : ConsistentTensorMeta :=
  {| consistent_shape_ptr := SharedConst 2%nat [8; 4];
     consistent_dtype := 2%nat;
     parallel_distribution := Some [SplitParallel 5];
     parallel_desc := Some four_ranks;
     consistent_is_dynamic := false |}.

(** ** Shape inference of the matmul operators *)

(** Modelled from the spec: [Shape] (shape.h is not embedded here) is the
    ordered sequence of extents; [NumAxes], [At] and [Set] count, read and
    write its axes.  An index that is not an axis is an error of the
    caller and ends the process; the inference functions below are shown
    never to get there. *)
Definition NumAxes (s : Shape) : Z := Z.of_nat (length s).

Definition Shape_At (s : Shape) (index : Z) : Outcome Z :=
  if (0 <=? index) && (index <? NumAxes s) then
    match s !! Z.to_nat index with
    | Some e => Ok e
    | None => Crash (ProcessAbort (CheckFailedError "axis"))
    end
  else Crash (ProcessAbort (CheckFailedError "axis")).

Definition Shape_Set (s : Shape) (index : Z) (val : Z) : Outcome Shape :=
  if (0 <=? index) && (index <? NumAxes s) then
    Ok (<[Z.to_nat index := val]> s)
  else Crash (ProcessAbort (CheckFailedError "axis")).

(** What the inference functions read and write of a tensor. *)
Record TensorDesc := {
  desc_shape : Shape;
  desc_data_type : DataType;
  desc_is_dynamic : bool
}.

Definition set_desc_shape (s : Shape) (t : TensorDesc) : TensorDesc :=
  {| desc_shape := s; desc_data_type := desc_data_type t;
     desc_is_dynamic := desc_is_dynamic t |}.

Definition set_desc_is_dynamic (b : bool) (t : TensorDesc) : TensorDesc :=
  {| desc_shape := desc_shape t; desc_data_type := desc_data_type t;
     desc_is_dynamic := b |}.

(** A matmul operator as the inference context and the operator wrapper
    show it: its name, its attributes ([alpha] by the bits of the double),
    its inputs, and for which inputs a gradient is wanted. *)
Record MatmulOp := {
  op_name : string;
  op_transpose_a : bool;
  op_transpose_b : bool;
  op_alpha : Z;
  op_input_a : TensorDesc;
  op_input_b : TensorDesc;
  op_add_to_output : option TensorDesc;
  op_need_grad_a : bool;
  op_need_grad_b : bool
}.

(** [CHECK_EQ_OR_RETURN(a.shape().At(i), b.shape().At(i))] for [i] in a
    range of axes. *)
Fixpoint check_axes_equal (a b : Shape) (indices : list Z) : Outcome unit :=
  match indices with
  | [] => Ok tt
  | i :: rest =>
      (let* x := Shape_At a i in
       let* y := Shape_At b i in
       let* _ := check_or_return (x =? y) "" in
       check_axes_equal a b rest)%O
  end.

(** The optional [_add_to_output] input must have the shape of [out]. *)
Definition check_add_to_output (op : MatmulOp) : M TensorDesc unit :=
  match op_add_to_output op with
  | Some add_to_output =>
      (let* out := gets id in
       CHECK_OR_RETURN
         (bool_decide (desc_shape add_to_output = desc_shape out)) "")%M
  | None => ret tt
  end.

(** [InferTensorDesc4Matmul], on the descriptor of [out]. *)
Definition InferTensorDesc4Matmul (op : MatmulOp) : M TensorDesc unit :=
  (let transpose_a := op_transpose_a op in
   let transpose_b := op_transpose_b op in
   let a := desc_shape (op_input_a op) in
   let b := desc_shape (op_input_b op) in
   let* _ := CHECK_OR_RETURN (NumAxes a =? NumAxes b) "" in
   let* _ := CHECK_OR_RETURN (2 <=? NumAxes a) "" in
   let num_axes := NumAxes a in
   let* _ := if 2 <? num_axes
             then lift (check_axes_equal a b (seqZ 0 (num_axes - 2)))
             else ret tt in
   let* _ := modify (set_desc_shape a) in
   let* _ := modify (set_desc_is_dynamic (desc_is_dynamic (op_input_a op))) in
   let* m := lift (Shape_At a (if transpose_a then num_axes - 1 else num_axes - 2)) in
   let* k := lift (Shape_At a (if transpose_a then num_axes - 2 else num_axes - 1)) in
   let* k_b := lift (Shape_At b (if transpose_b then num_axes - 1 else num_axes - 2)) in
   let* _ := CHECK_OR_RETURN (k =? k_b) "" in
   let* n := lift (Shape_At b (if transpose_b then num_axes - 2 else num_axes - 1)) in
   let* out := gets id in
   let* s1 := lift (Shape_Set (desc_shape out) (num_axes - 2) m) in
   let* s2 := lift (Shape_Set s1 (num_axes - 1) n) in
   let* _ := modify (set_desc_shape s2) in
   check_add_to_output op)%M.

(** The shape inference of [broadcast_matmul]. *)
Definition InferTensorDesc4BroadcastMatmul (op : MatmulOp) : M TensorDesc unit :=
  (let transpose_a := op_transpose_a op in
   let transpose_b := op_transpose_b op in
   let a := desc_shape (op_input_a op) in
   let b := desc_shape (op_input_b op) in
   let* _ := CHECK_OR_RETURN (NumAxes b <? NumAxes a) "" in
   let* _ := CHECK_OR_RETURN (NumAxes b =? 2) "" in
   let* _ := CHECK_OR_RETURN (negb transpose_a) "" in
   let out_dim_vec := take (Z.to_nat (NumAxes a - 1)) a in
   let* k := lift (Shape_At a (NumAxes a - 1)) in
   let* k_b := lift (Shape_At b (if transpose_b then NumAxes b - 1 else NumAxes b - 2)) in
   let* _ := CHECK_OR_RETURN (k =? k_b) "" in
   let* n := lift (Shape_At b (if transpose_b then NumAxes b - 2 else NumAxes b - 1)) in
   let* _ := modify (set_desc_shape (out_dim_vec ++ [n])) in
   check_add_to_output op)%M.

(** The shape inference of [broadcast_matmul_grad_b]. *)
Definition InferTensorDesc4BroadcastMatmulGradB (op : MatmulOp)
  : M TensorDesc unit :=
  (let a := desc_shape (op_input_a op) in
   let b := desc_shape (op_input_b op) in
   let* _ := CHECK_OR_RETURN (NumAxes a =? NumAxes b) "" in
   let* _ := lift (check_axes_equal a b (seqZ 0 (NumAxes a - 1))) in
   let* x := lift (Shape_At a (NumAxes a - 1)) in
   let* y := lift (Shape_At b (NumAxes b - 1)) in
   let* _ := modify (set_desc_shape [x; y]) in
   check_add_to_output op)%M.

(** The registry: which inference function an operator type name runs. *)
Definition TensorDescInferFn (op_type_name : string)
  : option (MatmulOp -> M TensorDesc unit) :=
  if bool_decide (op_type_name = "matmul") then Some InferTensorDesc4Matmul
  else if bool_decide (op_type_name = "batch_matmul") then Some InferTensorDesc4Matmul
  else if bool_decide (op_type_name = "broadcast_matmul")
       then Some InferTensorDesc4BroadcastMatmul
  else if bool_decide (op_type_name = "broadcast_matmul_grad_b")
       then Some InferTensorDesc4BroadcastMatmulGradB
  else None.

(** *** The gradient operators *)

(** A tensor a gradient operator can take: an input of the forward
    operator, or the gradient of its output. *)
Inductive FwTensor :=
  | FwInput (arg_name : string)
  | FwOutputGrad (arg_name : string).

(** An operator configuration as the builders assemble it. *)
Record UserOpConf := {
  conf_op_name : string;
  conf_op_type_name : string;
  conf_inputs : list (string * FwTensor);
  conf_outputs : list string;
  conf_bool_attrs : list (string * bool);
  conf_alpha : Z
}.

(** [GenBackwardOpConf4Matmul]: the operators it adds, in order, each with
    the forward input whose gradient its output is bound to. *)
Definition GenBackwardOpConf4Matmul (op_type_name : string) (op : MatmulOp)
  : list (UserOpConf * string) :=
  let transpose_a := op_transpose_a op in
  let transpose_b := op_transpose_b op in
  let alpha := op_alpha op in
  (if op_need_grad_a op then
     if transpose_a then
       [({| conf_op_name := op_name op +:+ "_grad_a";
            conf_op_type_name := op_type_name;
            conf_inputs := [("a", FwInput "b"); ("b", FwOutputGrad "out")];
            conf_outputs := ["out"];
            conf_bool_attrs := [("transpose_a", transpose_b); ("transpose_b", true)];
            conf_alpha := alpha |}, "a")]
     else
       [({| conf_op_name := op_name op +:+ "_grad_a";
            conf_op_type_name := op_type_name;
            conf_inputs := [("a", FwOutputGrad "out"); ("b", FwInput "b")];
            conf_outputs := ["out"];
            conf_bool_attrs := [("transpose_a", false);
                                ("transpose_b", negb transpose_b)];
            conf_alpha := alpha |}, "a")]
   else [])
  ++
  (if op_need_grad_b op then
     if transpose_b then
       [({| conf_op_name := op_name op +:+ "_grad_b";
            conf_op_type_name := op_type_name;
            conf_inputs := [("a", FwOutputGrad "out"); ("b", FwInput "a")];
            conf_outputs := ["out"];
            conf_bool_attrs := [("transpose_a", true); ("transpose_b", transpose_a)];
            conf_alpha := alpha |}, "b")]
     else
       [({| conf_op_name := op_name op +:+ "_grad_b";
            conf_op_type_name := op_type_name;
            conf_inputs := [("a", FwInput "a"); ("b", FwOutputGrad "out")];
            conf_outputs := ["out"];
            conf_bool_attrs := [("transpose_a", negb transpose_a);
                                ("transpose_b", false)];
            conf_alpha := alpha |}, "b")]
   else []).

(** The backward generator of [broadcast_matmul]: [CHECK(!transpose_a)],
    then the two operators it defines. *)
Definition GenBackwardOpConf4BroadcastMatmul (op : MatmulOp)
  : Outcome (list (UserOpConf * string)) :=
  let transpose_a := op_transpose_a op in
  let transpose_b := op_transpose_b op in
  let alpha := op_alpha op in
  if transpose_a then Crash (ProcessAbort (CheckFailedError "!transpose_a"))
  else
    Ok [({| conf_op_name := op_name op +:+ "_a_grad";
            conf_op_type_name := "broadcast_matmul";
            conf_inputs := [("a", FwOutputGrad "out"); ("b", FwInput "b")];
            conf_outputs := ["out"];
            conf_bool_attrs := [("transpose_a", transpose_a);
                                ("transpose_b", negb transpose_b)];
            conf_alpha := alpha |}, "a");
        (if negb transpose_b then
           {| conf_op_name := op_name op +:+ "_b_grad";
              conf_op_type_name := "broadcast_matmul_grad_b";
              conf_inputs := [("a", FwInput "a"); ("b", FwOutputGrad "out")];
              conf_outputs := ["out"];
              conf_bool_attrs := [];
              conf_alpha := alpha |}
         else
           {| conf_op_name := op_name op +:+ "_b_grad";
              conf_op_type_name := "broadcast_matmul_grad_b";
              conf_inputs := [("a", FwOutputGrad "out"); ("b", FwInput "a")];
              conf_outputs := ["out"];
              conf_bool_attrs := [];
              conf_alpha := alpha |}, "b")].

(** *** Running the inference of a generated operator *)

Fixpoint assoc {A} (key : string) (l : list (string * A)) : option A :=
  match l with
  | [] => None
  | (k, v) :: rest => if bool_decide (k = key) then Some v else assoc key rest
  end.

(** The descriptor behind a tensor of the forward operator, as the
    builder calls of the generators name it: [op.input(name, 0)] is the
    input [name] of the forward operator, [GetGradTensorWithOpOutput] or
    [output_grad] the gradient of its output, whose descriptor [out_grad]
    is given.  The operator framework itself (framework.h) is not embedded. *)
Definition fw_tensor_desc (fw : MatmulOp) (out_grad : TensorDesc) (t : FwTensor)
  : option TensorDesc :=
  match t with
  | FwInput name =>
      if bool_decide (name = "a") then Some (op_input_a fw)
      else if bool_decide (name = "b") then Some (op_input_b fw)
      else None
  | FwOutputGrad name =>
      if bool_decide (name = "out") then Some out_grad else None
  end.

(** The operator a configuration describes, once its inputs are resolved
    against the forward operator; an attribute the configuration does not
    set has its registered default, [false]. *)
Definition conf_as_op (fw : MatmulOp) (out_grad : TensorDesc) (conf : UserOpConf)
  : option MatmulOp :=
  match assoc "a" (conf_inputs conf), assoc "b" (conf_inputs conf) with
  | Some ta, Some tb =>
      match fw_tensor_desc fw out_grad ta, fw_tensor_desc fw out_grad tb with
      | Some da, Some db =>
          Some {| op_name := conf_op_name conf;
                  op_transpose_a := default false (assoc "transpose_a" (conf_bool_attrs conf));
                  op_transpose_b := default false (assoc "transpose_b" (conf_bool_attrs conf));
                  op_alpha := conf_alpha conf;
                  op_input_a := da;
                  op_input_b := db;
                  op_add_to_output := None;
                  op_need_grad_a := false;
                  op_need_grad_b := false |}
      | _, _ => None
      end
  | _, _ => None
  end.

(** The shape a generated operator infers for its output, from an output
    descriptor [blank] that inference has not touched yet. *)
Definition inferred_shape (fw : MatmulOp) (out_grad blank : TensorDesc)
    (conf : UserOpConf) : option Shape :=
  match TensorDescInferFn (conf_op_type_name conf), conf_as_op fw out_grad conf with
  | Some infer, Some op =>
      match infer op blank with
      | (Ok _, out) => Some (desc_shape out)
      | _ => None
      end
  | _, _ => None
  end.

(** The shape of the forward input a gradient is bound to. *)
Definition fw_input_shape (fw : MatmulOp) (arg_name : string) : option Shape :=
  if bool_decide (arg_name = "a") then Some (desc_shape (op_input_a fw))
  else if bool_decide (arg_name = "b") then Some (desc_shape (op_input_b fw))
  else None.

Definition blank_desc : TensorDesc :=
  {| desc_shape := []; desc_data_type := kInvalidDataType; desc_is_dynamic := false |}.

Definition matmul_op (transpose_a transpose_b : bool) (a b : Shape) : MatmulOp :=
  {| op_name := "mm";
     op_transpose_a := transpose_a; op_transpose_b := transpose_b;
     op_alpha := 0;
     op_input_a := {| desc_shape := a; desc_data_type := 2%nat;
                      desc_is_dynamic := false |};
     op_input_b := {| desc_shape := b; desc_data_type := 2%nat;
                      desc_is_dynamic := false |};
     op_add_to_output := None;
     op_need_grad_a := true; op_need_grad_b := true |}.

(** ** Shape inference of the gather operators *)

(** A [dim_gather] operator as its inference context shows it. *)
Record DimGatherOp := {
  gather_op_name : string;
  gather_dim : Z;
  gather_input : TensorDesc;
  gather_index : TensorDesc
}.

(** A [dim_scatter_add_like] operator. *)
Record DimScatterAddLikeOp := {
  scatter_op_name : string;
  scatter_dim : Z;
  scatter_like : TensorDesc;
  scatter_input : TensorDesc;
  scatter_index : TensorDesc
}.

(** The loop of [dim_gather] over the axes: the axis [dim] is skipped, the
    other extents must agree. *)
Fixpoint check_axes_equal_but (dim : Z) (a b : Shape) (indices : list Z)
  : Outcome unit :=
  match indices with
  | [] => Ok tt
  | i :: rest =>
      if i =? dim then check_axes_equal_but dim a b rest
      else
        (let* x := Shape_At a i in
         let* y := Shape_At b i in
         let* _ := check_or_return (x =? y) "" in
         check_axes_equal_but dim a b rest)%O
  end.

Section DimGather.

(** The largest number of axes the gather kernels take, a constant of
    dim_gather_kernel_util.h. *)
Variable kDimGatherMaxDimCount : Z.

(** The shape inference of [dim_gather]. *)
Definition InferTensorDesc4DimGather (op : DimGatherOp) : M TensorDesc unit :=
  (let in_ := gather_input op in
   let input_num_axes := NumAxes (desc_shape in_) in
   let* _ := CHECK_OR_RETURN (0 <? input_num_axes) "" in
   let* _ := CHECK_OR_RETURN (input_num_axes <=? kDimGatherMaxDimCount) "" in
   let index := gather_index op in
   let index_num_axes := NumAxes (desc_shape index) in
   let dim := gather_dim op in
   let* _ := CHECK_OR_RETURN (0 <=? dim) "" in
   let* _ := CHECK_OR_RETURN (dim <? input_num_axes) "" in
   let* _ := CHECK_OR_RETURN (input_num_axes =? index_num_axes) "" in
   let* _ := CHECK_OR_RETURN
               (bool_decide (desc_is_dynamic in_ = desc_is_dynamic index)) "" in
   let* _ := lift (check_axes_equal_but dim (desc_shape in_) (desc_shape index)
                     (seqZ 0 input_num_axes)) in
   modify (set_desc_shape (desc_shape index)))%M.

(** The shape inference of [dim_scatter_add_like]. *)
Definition InferTensorDesc4DimScatterAddLike (op : DimScatterAddLikeOp)
  : M TensorDesc unit :=
  (let input := scatter_input op in
   let index := scatter_index op in
   let like := scatter_like op in
   let like_shape := desc_shape like in
   let input_num_axes := NumAxes (desc_shape input) in
   let* _ := CHECK_OR_RETURN (0 <? input_num_axes) "" in
   let* _ := CHECK_OR_RETURN (input_num_axes <=? kDimGatherMaxDimCount) "" in
   let index_num_axes := NumAxes (desc_shape index) in
   let* _ := CHECK_OR_RETURN (input_num_axes =? index_num_axes) "" in
   let* _ := CHECK_OR_RETURN (input_num_axes =? NumAxes like_shape) "" in
   let* _ := lift (check_axes_equal (desc_shape index) (desc_shape input)
                     (seqZ 0 input_num_axes)) in
   modify (set_desc_shape like_shape))%M.

End DimGather.

(** The configuration of a [dim_scatter_add_like] as the builder of the
    backward generator binds it. *)
Record DimScatterAddLikeConf := {
  scatter_conf_op_name : string;
  scatter_conf_index : FwTensor;
  scatter_conf_input : FwTensor;
  scatter_conf_like : FwTensor;
  scatter_conf_dim : Z
}.

(** The backward generator of [dim_gather]: the operator it defines, and
    the forward input whose gradient its output is bound to. *)
Definition GenBackwardOpConf4DimGather (fw : DimGatherOp)
  : DimScatterAddLikeConf * string :=
  ({| scatter_conf_op_name := gather_op_name fw +:+ "_grad";
      scatter_conf_index := FwInput "index";
      scatter_conf_input := FwOutputGrad "output";
      scatter_conf_like := FwInput "input";
      scatter_conf_dim := gather_dim fw |}, "input").

(** The descriptor behind a tensor of the forward [dim_gather], as the
    [InputBind] calls of the generator name it; [out_grad] is the
    descriptor of the gradient of its output. *)
Definition gather_tensor_desc (fw : DimGatherOp) (out_grad : TensorDesc)
    (t : FwTensor) : option TensorDesc :=
  match t with
  | FwInput name =>
      if bool_decide (name = "input") then Some (gather_input fw)
      else if bool_decide (name = "index") then Some (gather_index fw)
      else None
  | FwOutputGrad name =>
      if bool_decide (name = "output") then Some out_grad else None
  end.

(** The operator a configuration describes, once its inputs are resolved
    against the forward operator. *)
Definition scatter_conf_as_op (fw : DimGatherOp) (out_grad : TensorDesc)
    (conf : DimScatterAddLikeConf) : option DimScatterAddLikeOp :=
  match gather_tensor_desc fw out_grad (scatter_conf_like conf),
        gather_tensor_desc fw out_grad (scatter_conf_input conf),
        gather_tensor_desc fw out_grad (scatter_conf_index conf) with
  | Some like, Some input, Some index =>
      Some {| scatter_op_name := scatter_conf_op_name conf;
              scatter_dim := scatter_conf_dim conf;
              scatter_like := like;
              scatter_input := input;
              scatter_index := index |}
  | _, _, _ => None
  end.

Definition gather_op (dim : Z) (input index : Shape) : DimGatherOp :=
  {| gather_op_name := "g";
     gather_dim := dim;
     gather_input := {| desc_shape := input; desc_data_type := 2%nat;
                        desc_is_dynamic := false |};
     gather_index := {| desc_shape := index; desc_data_type := 4%nat;
                        desc_is_dynamic := false |} |}.

(** A concrete choice of hash functions, for running examples. *)
Definition simple_hashers : Hashers :=
  {| hash_Shape := fun s => foldr Z.add 0 s;
     hash_DataType := fun d => Z.of_nat d;
     hash_Device := fun d => device_id d;
     hash_Symbol_ParallelDistribution :=
       fun s => match s with Some l => Z.of_nat (length l) | None => 0 end;
     hash_Symbol_ParallelDesc :=
       fun s => match s with Some pd => parallel_num pd | None => 0 end |}.

(** ** Tactics for monadic code *)

Ltac unfold_monad :=
  unfold bind, ret, lift, gets, modify, this, assign, in_world, on_object,
    CHECK_OR_RETURN, CHECK_NOTNULL_OR_RETURN, CHECK_JUST, check_or_return,
    obind, deref in *.

Ltac run := unfold_monad; simpl in *.

(* ================================================================== *)
(** * Properties *)
(* ================================================================== *)

(** ** Placement translation *)

Section Placement.

Implicit Types (s p : Shape) (sbps : ParallelDistribution) (n r : Z).

Lemma update_axis_Ok f axis s s' :
  update_axis f axis s = Ok s' ->
  (exists e, s !! Z.to_nat axis = Some e) /\ s' = alter f (Z.to_nat axis) s.
Proof.
  unfold update_axis, check_or_return.
  destruct (0 <=? axis) eqn:H0; destruct (axis <? Z.of_nat (length s)) eqn:H1;
    simpl; try discriminate.
  intros [= <-]. split; [|done].
  apply lookup_lt_is_Some_2. lia.
Qed.

Lemma update_axis_in_range f axis s e :
  0 <= axis -> s !! Z.to_nat axis = Some e ->
  update_axis f axis s = Ok (alter f (Z.to_nat axis) s).
Proof.
  intros H0 Hl. apply lookup_lt_Some in Hl.
  unfold update_axis, check_or_return.
  destruct (0 <=? axis) eqn:E0; [|lia].
  destruct (axis <? Z.of_nat (length s)) eqn:E1; [done|lia].
Qed.

Lemma update_axis_nonneg f axis s s' :
  update_axis f axis s = Ok s' -> 0 <= axis.
Proof.
  unfold update_axis, check_or_return.
  destruct (0 <=? axis) eqn:H0; [lia|discriminate].
Qed.

Lemma balanced_part_even e n r :
  0 <= r -> e `mod` n = 0 -> balanced_part e n r = e / n.
Proof.
  intros Hr He. unfold balanced_part. rewrite He.
  destruct (r <? 0) eqn:E; lia.
Qed.

(** An even division followed by taking the extent once per rank gives the
    extent back. *)
Lemma div_mul_even e n : 0 < n -> e `mod` n = 0 -> e / n * n = e.
Proof.
  intros Hn He. pose proof (Z.div_mod e n ltac:(lia)). lia.
Qed.

Lemma sum_over_ranks_succ n f :
  0 <= n -> sum_over_ranks (Z.succ n) f = sum_over_ranks n f + f n.
Proof.
  intros Hn. unfold sum_over_ranks.
  replace (Z.succ n) with (n + 1) by lia.
  rewrite seqZ_app by lia. rewrite map_app, foldr_app.
  change (seqZ (0 + n) 1) with [0 + (0 + n)].
  replace (0 + (0 + n)) with n by lia. simpl.
  generalize (seqZ 0 n). intros l.
  induction l as [|x l IH]; simpl; [|rewrite IH]; lia.
Qed.

(** Ranks that all contribute the same extent contribute it once each. *)
Lemma sum_over_ranks_const n e : 0 <= n -> sum_over_ranks n (fun _ => e) = e * n.
Proof.
  intros Hn. pattern n. apply natlike_ind; [| |done].
  - unfold sum_over_ranks. simpl. lia.
  - intros k Hk IH. rewrite sum_over_ranks_succ by done. lia.
Qed.

Lemma sum_over_ranks_balanced_upto e n k :
  0 <= k ->
  sum_over_ranks k (balanced_part e n) = e / n * k + Z.min k (Z.max 0 (e `mod` n)).
Proof.
  intros Hk. pattern k. apply natlike_ind; [| |done].
  - unfold sum_over_ranks. simpl. lia.
  - intros j Hj IH. rewrite sum_over_ranks_succ by done. rewrite IH.
    unfold balanced_part. destruct (j <? e `mod` n) eqn:E.
    + apply Z.ltb_lt in E. lia.
    + apply Z.ltb_ge in E. lia.
Qed.

(** The partition covers the extent: the shards of all the ranks, summed,
    are the extent, whether or not it divides evenly. *)
Lemma shards_sum_to_extent e n :
  0 < n -> sum_over_ranks n (balanced_part e n) = e.
Proof.
  intros Hn. rewrite sum_over_ranks_balanced_upto by lia.
  pose proof (Z.mod_pos_bound e n Hn) as Hm.
  pose proof (Z.div_mod e n ltac:(lia)) as Hd. lia.
Qed.

(** Where the extent divides evenly every rank holds the same shard, and
    counting the shard of one rank once per rank is summing the shards of
    all of them. *)
Lemma equal_shards_sum e n r :
  0 < n -> 0 <= r -> e `mod` n = 0 ->
  sum_over_ranks n (fun _ => balanced_part e n r)
  = sum_over_ranks n (balanced_part e n).
Proof.
  intros Hn Hr He. rewrite shards_sum_to_extent by done.
  rewrite sum_over_ranks_const by lia. rewrite balanced_part_even by done.
  by apply div_mul_even.
Qed.

Lemma logical_physical_steps n r sbps : forall s p,
  0 <= r -> 0 < n ->
  physical_steps n r sbps s = Ok p ->
  even_split n sbps s = true ->
  logical_steps n sbps p = Ok s.
Proof.
  induction sbps as [|sbp rest IH]; intros s p Hr Hn Hp He; simpl in *.
  - by inversion Hp.
  - destruct sbp as [axis| |]; simpl in *; [|by rewrite (IH s p)..].
    destruct (update_axis _ axis s) as [s1| |] eqn:Hu; simpl in Hp; try done.
    pose proof (update_axis_nonneg _ _ _ _ Hu) as Hax.
    apply update_axis_Ok in Hu as [[e Hl] ->].
    rewrite Hl in He. apply andb_prop in He as [Hm He].
    apply Z.eqb_eq in Hm.
    assert (Halt : alter (fun e => balanced_part e n r) (Z.to_nat axis) s
                   = alter (fun e => e / n) (Z.to_nat axis) s).
    { apply list_alter_ext; [|done]. intros x Hx.
      assert (x = e) as -> by congruence. by apply balanced_part_even. }
    rewrite Halt in Hp. rewrite (IH _ _ Hr Hn Hp He). simpl.
    erewrite update_axis_in_range; [|done|].
    + f_equal. rewrite list_alter_alter_eq.
      rewrite <- (list_alter_id id s (Z.to_nat axis)) at 2 by done.
      apply list_alter_ext; [|done]. intros x Hx. simpl.
      assert (x = e) as -> by congruence.
      rewrite sum_over_ranks_const by lia. by apply div_mul_even.
    + rewrite list_lookup_alter_eq, Hl. done.
Qed.

Lemma physical_steps_Ok n r sbps : forall s,
  split_axes_in_range sbps s = true ->
  exists p, physical_steps n r sbps s = Ok p.
Proof.
  induction sbps as [|sbp rest IH]; intros s Hs; simpl in *.
  - by exists s.
  - apply andb_prop in Hs as [Hh Ht].
    destruct sbp as [axis| |]; simpl; [|by apply IH..].
    apply andb_prop in Hh as [H0 H1].
    apply Z.leb_le in H0. apply Z.ltb_lt in H1.
    destruct (lookup_lt_is_Some_2 s (Z.to_nat axis) ltac:(lia)) as [e He].
    erewrite update_axis_in_range by done. simpl.
    apply IH. unfold split_axes_in_range in *.
    by rewrite length_alter.
Qed.

Lemma logical_steps_no_split n sbps s :
  forallb (fun sbp => match sbp with SplitParallel _ => false | _ => true end) sbps = true ->
  logical_steps n sbps s = Ok s /\ forall r, physical_steps n r sbps s = Ok s.
Proof.
  induction sbps as [|sbp rest IH]; simpl; [done|].
  intros [Hh Ht]%andb_prop. destruct (IH Ht) as [Hl Hp].
  destruct sbp; try done; simpl; rewrite Hl; split; try done; intros r; apply Hp.
Qed.

End Placement.

(** The scenario of the specification: [8, 4] split on axis 0 across four
    ranks gives [2, 4] on every rank, and [2, 4] gives [8, 4] back. *)
Example physical_8_4_every_rank :
  map (GetPhysicalShape [8; 4] [SplitParallel 0] four_ranks) [0; 1; 2; 3]
  = [Ok [2; 4]; Ok [2; 4]; Ok [2; 4]; Ok [2; 4]]
  /\ GetLogicalShape [2; 4] [SplitParallel 0] four_ranks = Ok [8; 4].
Proof. split; reflexivity. Qed.

(** With nine rows the first rank holds three of them and the others two. *)
Example physical_9_4_every_rank :
  map (GetPhysicalShape [9; 4] [SplitParallel 0] four_ranks) [0; 1; 2; 3]
  = [Ok [3; 4]; Ok [2; 4]; Ok [2; 4]; Ok [2; 4]].
Proof. reflexivity. Qed.

(** A distribution without [Split] leaves the shape alone in both
    directions, on every rank of the group. *)
Lemma broadcast_only_shapes shape sbps pd rank :
  forallb (fun sbp => match sbp with SplitParallel _ => false | _ => true end) sbps = true ->
  0 <= rank < parallel_num pd ->
  GetPhysicalShape shape sbps pd rank = Ok shape /\
  GetLogicalShape shape sbps pd = Ok shape.
Proof.
  intros Hb Hr. destruct (logical_steps_no_split (parallel_num pd) sbps shape Hb) as [Hl Hp].
  split; [|done]. unfold GetPhysicalShape, check_or_return.
  destruct (0 <=? rank) eqn:E0; [|lia].
  destruct (rank <? parallel_num pd) eqn:E1; [|lia]. simpl. apply Hp.
Qed.

(** C1 (as amended): for a rank of the group and a distribution in which
    every [Split] names an axis of the shape and, going through the
    entries in order, finds the extent its axis has by then a multiple of
    the number of ranks, [GetPhysicalShape] returns a shape and
    [GetLogicalShape] of that shape is the logical shape again.  Both are
    functions of their arguments alone. *)
Theorem GetLogicalShape_GetPhysicalShape_even
    (shape : Shape) (sbp : ParallelDistribution) (pd : ParallelDesc) (rank : Z)
    (Hrank : 0 <= rank < parallel_num pd)
    (Haxes : split_axes_in_range sbp shape = true)
    (Heven : even_split (parallel_num pd) sbp shape = true) :
  exists physical,
    GetPhysicalShape shape sbp pd rank = Ok physical /\
    GetLogicalShape physical sbp pd = Ok shape.
Proof.
  destruct (physical_steps_Ok (parallel_num pd) rank sbp shape Haxes) as [p Hp].
  exists p. split.
  - unfold GetPhysicalShape, check_or_return.
    destruct (0 <=? rank) eqn:E0; [|lia].
    destruct (rank <? parallel_num pd) eqn:E1; [|lia]. done.
  - unfold GetLogicalShape.
    apply (logical_physical_steps _ rank); [lia|lia|done|done].
Qed.

Lemma GetLogicalShape_GetPhysicalShape_even_witness :
  exists physical,
    GetPhysicalShape [8; 4] [SplitParallel 0] four_ranks 2 = Ok physical /\
    GetLogicalShape physical [SplitParallel 0] four_ranks = Ok [8; 4].
Proof.
  apply (GetLogicalShape_GetPhysicalShape_even [8; 4] [SplitParallel 0] four_ranks 2).
  - vm_compute. split; [discriminate|reflexivity].
  - reflexivity.
  - reflexivity.
Defined.

(** Nine rows over four ranks are 3 + 2 + 2 + 2: the shards of all four
    ranks sum to the extent, and the shard of rank 1 alone is the shard
    rank 1 holds of eight rows. *)
Example nine_rows_over_four_ranks :
  map (balanced_part 9 4) [0; 1; 2; 3] = [3; 2; 2; 2] /\
  sum_over_ranks 4 (balanced_part 9 4) = 9 /\
  GetPhysicalShape [9; 4] [SplitParallel 0] four_ranks 1
  = GetPhysicalShape [8; 4] [SplitParallel 0] four_ranks 1.
Proof. split; [|split]; reflexivity. Qed.

(** C1 (as stated) fails when the split is uneven.  Rank 1 of four holds
    two of nine rows, and [GetLogicalShape] of its shape is not the shape
    of nine rows; nor would any other function of the one shape, the
    distribution and the placement do: rank 1 holds the same shape of
    eight rows and of nine, and one shape cannot be mapped back to both. *)
Lemma roundtrip_uneven_split_counterexample :
  (exists physical,
     GetPhysicalShape [9; 4] [SplitParallel 0] four_ranks 1 = Ok physical /\
     GetLogicalShape physical [SplitParallel 0] four_ranks <> Ok [9; 4]) /\
  ~ (exists inverse : Shape -> ParallelDistribution -> ParallelDesc -> Outcome Shape,
       forall shape, shape = [8; 4] \/ shape = [9; 4] ->
         exists physical,
           GetPhysicalShape shape [SplitParallel 0] four_ranks 1 = Ok physical /\
           inverse physical [SplitParallel 0] four_ranks = Ok shape).
Proof.
  split.
  - exists [2; 4]. split; [reflexivity|]. vm_compute. discriminate.
  - intros [inverse Hinv].
    destruct (Hinv [8; 4] (or_introl eq_refl)) as (p8 & Hp8 & H8).
    destruct (Hinv [9; 4] (or_intror eq_refl)) as (p9 & Hp9 & H9).
    vm_compute in Hp8, Hp9. injection Hp8 as <-. injection Hp9 as <-.
    rewrite H8 in H9. discriminate.
Qed.

(** The failure does not hang on the remainder policy.  Whatever sizes an
    as-even-as-possible partition gives the four ranks, and whatever
    function maps one rank's shard back, nine rows and eight rows look the
    same from some rank. *)
Section AnyRemainderPolicy.

Variable part : Z -> Z -> Z -> Z.
Hypothesis part_even : forall e n r,
  0 <= r < n -> part e n r = e / n \/ part e n r = e / n + 1.
Hypothesis part_covers : forall e,
  part e 4 0 + part e 4 1 + part e 4 2 + part e 4 3 = e.

Variable logical_of : Shape -> Outcome Shape.

Lemma no_inverse_from_one_shard :
  ~ (forall e r, 0 <= r < 4 -> logical_of [part e 4 r; 4] = Ok [e; 4]).
Proof.
  intros Hinv.
  assert (H8 : forall r, 0 <= r < 4 -> part 8 4 r = 2).
  { pose proof (part_covers 8) as Hc.
    pose proof (part_even 8 4 0 ltac:(lia)) as H0.
    pose proof (part_even 8 4 1 ltac:(lia)) as H1.
    pose proof (part_even 8 4 2 ltac:(lia)) as H2.
    pose proof (part_even 8 4 3 ltac:(lia)) as H3.
    change (8 / 4) with 2 in *.
    intros r Hr.
    assert (r = 0 \/ r = 1 \/ r = 2 \/ r = 3) as [ -> | [ -> | [ -> | -> ] ] ] by lia; lia. }
  assert (H9 : exists r, 0 <= r < 4 /\ part 9 4 r = 2).
  { pose proof (part_covers 9) as Hc.
    pose proof (part_even 9 4 0 ltac:(lia)) as H0.
    pose proof (part_even 9 4 1 ltac:(lia)) as H1.
    pose proof (part_even 9 4 2 ltac:(lia)) as H2.
    pose proof (part_even 9 4 3 ltac:(lia)) as H3.
    change (9 / 4) with 2 in *.
    destruct H0 as [H0|H0]; [exists 0; lia|].
    destruct H1 as [H1|H1]; [exists 1; lia|].
    exists 2. lia. }
  destruct H9 as (r & Hr & H9).
  pose proof (Hinv 8 r Hr) as E8. pose proof (Hinv 9 r Hr) as E9.
  rewrite (H8 r Hr) in E8. rewrite H9 in E9. congruence.
Qed.

End AnyRemainderPolicy.

(** ** The gradient slot *)


(** A setter that succeeded is seen by the getter, so the delegation is
    not a no-op. *)
Lemma set_acc_grad_then_acc_grad t m grad :
  autograd_meta_ t = Some m ->
  acc_grad (snd (set_acc_grad grad t)) = (Ok grad, snd (set_acc_grad grad t)).
Proof.
  intros Hm. unfold acc_grad, set_acc_grad. run. rewrite Hm. reflexivity.
Qed.

(** ** Equality and hash of metas *)

Section MetaEquality.

Context `{Hashers}.


(** The flag is never read: changing it on either side changes neither
    the comparison nor the hash, also where they do not return. *)
Lemma meta_equality_never_reads_is_dynamic m1 m2 c1 c2 b1 b2 :
  MirroredTensorMeta_eq (with_is_dynamic b1 m1) (with_is_dynamic b2 m2)
    = MirroredTensorMeta_eq m1 m2 /\
  MirroredTensorMeta_CalcHashValue (with_is_dynamic b1 m1)
    = MirroredTensorMeta_CalcHashValue m1 /\
  ConsistentTensorMeta_eq (with_consistent_is_dynamic b1 c1)
      (with_consistent_is_dynamic b2 c2)
    = ConsistentTensorMeta_eq c1 c2 /\
  ConsistentTensorMeta_CalcHashValue (with_consistent_is_dynamic b1 c1)
    = ConsistentTensorMeta_CalcHashValue c1.
Proof. done. Qed.

(** A meta without a device cannot be compared with an equal one: the
    comparison dereferences the null symbol. *)
Lemma MirroredTensorMeta_eq_null_device m :
  device m = None -> MirroredTensorMeta_eq m m = Crash NullDereference.
Proof.
  intros Hd. unfold MirroredTensorMeta_eq.
  rewrite !bool_decide_eq_true_2 by done. simpl. by rewrite Hd.
Qed.

End MetaEquality.

#[local] Existing Instance simple_hashers.



(** ** Detach *)

(** Writing the cell a pointer leads to is changing the map at that
    pointer. *)
Lemma insert_cell_alter (m : gmap addr StorageCell) a c (f : StorageCell -> StorageCell) :
  m !! a = Some c -> <[a := f c]> m = alter f a m.
Proof.
  intros Hc. apply map_eq. intros i. destruct (decide (i = a)) as [->|Hne].
  - by rewrite lookup_insert_eq, lookup_alter_eq, Hc.
  - by rewrite lookup_insert_ne, lookup_alter_ne.
Qed.

(** C7: [detach] of a lazy or an eager mirrored implementation returns an
    implementation of the same kind with [requires_grad] false and
    [is_leaf] true, holding the very meta of the source; the eager one
    also holds the source's blob and the source's storage.  Nothing is
    copied: the runtime after the call is the one before it, but for one
    more owner of the storage the eager source holds. *)
Theorem detach_shares_meta_blob_and_storage
    (self : MirroredTensorImpl) (w : World)
    (Hstorage : valid_storage_ref (impl_storage self) w) :
  exists detached w',
    detach self w = (Ok detached, w') /\
    requires_grad_ (impl_base detached) = false /\
    is_leaf_ (impl_base detached) = true /\
    impl_tensor_meta detached = impl_tensor_meta self /\
    impl_is_lazy detached = impl_is_lazy self /\
    impl_blob detached = impl_blob self /\
    impl_storage detached = impl_storage self /\
    w' = match impl_storage self with
         | Some a =>
             with_storages
               (alter (fun c => {| storage := storage c;
                                   use_count := S (use_count c) |}) a) w
         | None => w
         end.
Proof.
  destruct self as [l|e]; simpl in *.
  - eexists _, w. unfold LazyMirroredTensorImpl_detach. run. repeat split.
  - unfold EagerMirroredTensorImpl_detach,
      new_EagerMirroredTensorImpl_with_storage, copy_storage_ref, load_storage.
    destruct (tensor_storage_ e) as [a|] eqn:Hs; run.
    + destruct Hstorage as [c Hc]. rewrite Hc. simpl.
      eexists _, _. split; [reflexivity|]. simpl.
      do 6 (split; [done|]).
      unfold with_storages. f_equal.
      by apply (insert_cell_alter _ a c
                  (fun c => {| storage := storage c; use_count := S (use_count c) |})).
    + eexists _, w. repeat split; done.
Qed.

Lemma detach_shares_meta_blob_and_storage_witness :
  exists detached w',
    detach (EagerImpl bound_impl) busy_world = (Ok detached, w') /\
    requires_grad_ (impl_base detached) = false /\
    is_leaf_ (impl_base detached) = true /\
    impl_tensor_meta detached = SharedConst 3%nat (meta_2_4 false) /\
    impl_is_lazy detached = false /\
    impl_blob detached = Some 10%nat /\
    impl_storage detached = Some 30%nat /\
    (exists cell,
       storages w' !! 30%nat = Some cell /\ use_count cell = 2%nat /\
       buffer (storage cell) = 20%nat) /\
    blobs w' = blobs busy_world /\ vm_queue w' = vm_queue busy_world.
Proof.
  destruct (detach_shares_meta_blob_and_storage (EagerImpl bound_impl) busy_world)
    as (detached & w' & Hdetach & Hrg & Hleaf & Hmeta & Hlazy & Hblob & Hst & Hw).
  - simpl. by eexists.
  - exists detached, w'. split; [exact Hdetach|].
    split; [exact Hrg|]. split; [exact Hleaf|]. split; [exact Hmeta|].
    split; [exact Hlazy|]. split; [exact Hblob|]. split; [exact Hst|].
    rewrite Hw. simpl. split; [|split; reflexivity].
    eexists. split; [vm_compute; reflexivity|]. split; reflexivity.
Defined.

(** A lazy implementation detaches without touching the runtime. *)
Example detach_lazy_tensor :
  exists detached,
    detach (impl_ lazy_tensor_2_4) busy_world = (Ok detached, busy_world) /\
    impl_is_lazy detached = true /\
    impl_tensor_meta detached = impl_tensor_meta (impl_ lazy_tensor_2_4) /\
    requires_grad_ (impl_base detached) = false /\
    is_leaf_ (impl_base detached) = true.
Proof. eexists. split; [reflexivity|]. repeat split. Qed.

(** The detached eager implementation is one more owner of the storage. *)
Lemma detach_adds_an_owner e w a c :
  tensor_storage_ e = Some a ->
  storages w !! a = Some c ->
  storages (snd (EagerMirroredTensorImpl_detach e w)) !! a
    = Some {| storage := storage c; use_count := S (use_count c) |}.
Proof.
  intros Hs Hc.
  unfold EagerMirroredTensorImpl_detach,
    new_EagerMirroredTensorImpl_with_storage, copy_storage_ref, load_storage.
  rewrite Hs. run. rewrite Hc. simpl. by rewrite lookup_insert_eq.
Qed.

(** ** Construction of consistent implementations *)

(** C4: the four-argument constructor reads [requires_grad()] and
    [is_leaf()] through [cur_rank_phy_tensor] and never its own
    [requires_grad] and [is_leaf] parameters; with a null
    [cur_rank_phy_tensor] it dereferences null, and that is how
    [NewWithoutPhyTensor] calls it. *)
Theorem constructor_dereferences_cur_rank_phy_tensor
    (meta : Symbol ConsistentTensorMeta) (requires_grad is_leaf : bool) :
  new_EagerConsistentTensorImpl meta requires_grad is_leaf None
    = Crash NullDereference /\
  (forall t : MirroredTensor,
     new_EagerConsistentTensorImpl meta requires_grad is_leaf (Some t)
     = Ok {| consistent_base :=
               new_TensorImpl (MirroredTensor_requires_grad t)
                              (MirroredTensor_is_leaf t);
             consistent_tensor_meta_ := meta;
             cur_rank_phy_tensor_ := Some t |}) /\
  (forall (device : Symbol Device) (parallel_id : Z) (w : World),
     NewWithoutPhyTensor meta device parallel_id requires_grad is_leaf w
     = (Crash NullDereference, w)).
Proof. repeat split. Qed.

(** The constructor returns exactly when the tensor pointer is not null. *)
Lemma constructor_returns_iff_non_null meta requires_grad is_leaf p :
  (exists impl, new_EagerConsistentTensorImpl meta requires_grad is_leaf p = Ok impl)
  <-> p <> None.
Proof.
  destruct p as [t|]; simpl; split; try done.
  - intros _. by eexists.
  - intros [impl Himpl]. discriminate.
Qed.

(** With a process that is in the group, [New] builds the physical tensor
    of the rank. *)
Example New_from_meta_present_rank :
  exists impl w',
    New_from_meta (Some (consistent_meta_8_4 false)) true false idle_world
      = (Ok impl, w') /\
    exists t, cur_rank_phy_tensor_ impl = Some t /\
      obj (shape_ptr (obj (impl_tensor_meta (impl_ t)))) = [2; 4].
Proof. eexists _, _. split; [vm_compute; reflexivity|]. eexists. split; reflexivity. Qed.

(** C3 at a process outside the group: [New] selects
    [NewWithoutPhyTensor], whose constructor call dereferences the null
    tensor pointer; no implementation is returned. *)
Theorem New_from_meta_absent_rank_null_dereference :
  GetDevice4CurrentProcessCtx four_ranks (-1) outsider_world
    = (Ok (None, -1), outsider_world) /\
  New_from_meta (Some (consistent_meta_8_4 false)) true false outsider_world
    = (Crash NullDereference, outsider_world).
Proof. split; reflexivity. Qed.

(** The same for every process outside the group of the meta. *)
Lemma New_from_meta_outside_group meta desc requires_grad is_leaf w :
  parallel_desc meta = Some desc ->
  index_of (process_ctx w) (machine_device_ids desc) 0 = None ->
  New_from_meta (Some meta) requires_grad is_leaf w = (Crash NullDereference, w).
Proof.
  intros Hpd Hout. unfold New_from_meta, GetDevice4CurrentProcessCtx.
  run. rewrite Hpd. simpl. rewrite Hout. reflexivity.
Qed.

(** Whatever [New] from a meta returns holds a physical tensor, and the
    process is in the group: the state without a physical tensor is never
    reached. *)
Lemma New_from_meta_Ok_has_phy_tensor meta requires_grad is_leaf w impl w' :
  New_from_meta meta requires_grad is_leaf w = (Ok impl, w') ->
  exists m desc i t,
    meta = Some m /\ parallel_desc m = Some desc /\
    index_of (process_ctx w) (machine_device_ids desc) 0 = Some i /\
    cur_rank_phy_tensor_ impl = Some t.
Proof.
  unfold New_from_meta, GetDevice4CurrentProcessCtx. run.
  destruct meta as [m|]; [|discriminate].
  destruct (parallel_desc m) as [desc|] eqn:Hdesc; [|discriminate]. simpl.
  destruct (index_of (process_ctx w) (machine_device_ids desc) 0) as [i|] eqn:Hi;
    simpl; [|discriminate].
  intros Hnew. exists m, desc, i.
  unfold NewWithPhyTensor in Hnew. run. rewrite Hdesc in Hnew.
  destruct (parallel_distribution m); simpl in Hnew; [|discriminate].
  destruct (GetPhysicalShape _ _ _ _); simpl in Hnew; try discriminate.
  match type of Hnew with
  | context [InitEagerBlobObject ?mc ?st] =>
      destruct (InitEagerBlobObject mc st) as [[[]| |] [impl1 w1]]
  end; simpl in Hnew; try discriminate.
  injection Hnew as <- <-. by eexists.
Qed.

(** C5 (as amended): [New] from a physical tensor returns a failed [Maybe]
    when the tensor is lazy, and when the tensor has a device and it is
    not the device of the placement's device kind with the device id of
    the current process, whether or not the process is a rank of the
    placement; when it returns an implementation, the logical shape of its
    meta is [GetLogicalShape] of the tensor's shape under the given
    distribution and placement. *)
Theorem New_from_phy_tensor_checks
    (t : MirroredTensor) (sbp : Symbol ParallelDistribution)
    (pd : Symbol ParallelDesc) (w : World) :
  (MirroredTensor_is_lazy t = true ->
   New_from_phy_tensor (Some t) sbp pd w = (Err (CheckFailedError ""), w)) /\
  (forall desc d,
     MirroredTensor_is_lazy t = false ->
     pd = Some desc ->
     device (obj (impl_tensor_meta (impl_ t))) = Some d ->
     d <> {| device_type := device_tag desc; device_id := snd (process_ctx w) |} ->
     New_from_phy_tensor (Some t) sbp pd w
     = (Err (CheckFailedError
          "only LocalTensors on current rank Device can be casted to ConsistentTensor"),
        w)) /\
  (forall impl w',
     New_from_phy_tensor (Some t) sbp pd w = (Ok impl, w') ->
     exists meta distribution desc phy_shape w1,
       consistent_tensor_meta_ impl = Some meta /\
       sbp = Some distribution /\ pd = Some desc /\
       MirroredTensor_shape t w = (Ok phy_shape, w1) /\
       GetLogicalShape (obj phy_shape) distribution desc
         = Ok (obj (consistent_shape_ptr meta)) /\
       parallel_distribution meta = sbp /\
       parallel_desc meta = pd /\
       consistent_dtype meta = MirroredTensor_dtype t /\
       cur_rank_phy_tensor_ impl = Some t).
Proof.
  unfold New_from_phy_tensor, GetCurrentMachineIdAndDeviceId,
    Device_ThreadLocalGetOrNew, MirroredTensor_device.
  repeat split.
  - intros Hlazy. run. rewrite Hlazy. reflexivity.
  - intros desc d Hlazy -> Hd Hne. run. rewrite Hlazy, Hd. simpl.
    rewrite bool_decide_eq_false_2 by congruence. reflexivity.
  - intros impl w' Hnew. run.
    destruct (MirroredTensor_is_lazy t); simpl in Hnew; [discriminate|].
    destruct pd as [desc|]; simpl in Hnew; [|discriminate].
    destruct (device (obj (impl_tensor_meta (impl_ t)))) as [d|];
      simpl in Hnew; [|discriminate].
    destruct (bool_decide _); simpl in Hnew; [|discriminate].
    destruct (MirroredTensor_shape t w) as [[phy_shape| |] w1];
      simpl in Hnew; try discriminate.
    destruct sbp as [distribution|]; simpl in Hnew; [|discriminate].
    destruct (GetLogicalShape (obj phy_shape) distribution desc) as [logical| |]
      eqn:Hlogical; simpl in Hnew; try discriminate.
    unfold alloc in Hnew. simpl in Hnew. injection Hnew as <- <-.
    eexists _, distribution, desc, phy_shape, w1. simpl. repeat split.
    exact Hlogical.
Qed.

Lemma New_from_phy_tensor_checks_witness :
  New_from_phy_tensor (Some lazy_tensor_2_4) (Some [SplitParallel 0])
    (Some four_ranks) idle_world
  = (Err (CheckFailedError ""), idle_world) /\
  New_from_phy_tensor (Some eager_tensor_2_4) (Some [SplitParallel 0])
    (Some four_ranks) device1_world
  = (Err (CheckFailedError
       "only LocalTensors on current rank Device can be casted to ConsistentTensor"),
     device1_world) /\
  exists impl w',
    New_from_phy_tensor (Some eager_tensor_2_4) (Some [SplitParallel 0])
      (Some four_ranks) idle_world = (Ok impl, w') /\
    exists meta,
      consistent_tensor_meta_ impl = Some meta /\
      obj (consistent_shape_ptr meta) = [8; 4].
Proof.
  split; [|split].
  - apply (proj1 (New_from_phy_tensor_checks lazy_tensor_2_4 (Some [SplitParallel 0])
                    (Some four_ranks) idle_world)).
    reflexivity.
  - apply (proj1 (proj2 (New_from_phy_tensor_checks eager_tensor_2_4
                           (Some [SplitParallel 0]) (Some four_ranks) device1_world))
             four_ranks cuda0); try reflexivity.
    discriminate.
  - eexists _, _. split; [vm_compute; reflexivity|].
    eexists. split; reflexivity.
Defined.

(** C5 (as stated) fails in two places.  An eager tensor whose meta has
    the null device, which differs from every device, makes [New]
    dereference the null symbol instead of returning an error.  And in a
    process that is no rank of the placement, for which the placement
    computes no device, [New] accepts a tensor on the device of the
    process's device id and returns an implementation that holds it. *)
Lemma New_from_phy_tensor_counterexample :
  (MirroredTensor_is_lazy null_device_tensor = false /\
   MirroredTensor_device null_device_tensor = Ok None /\
   New_from_phy_tensor (Some null_device_tensor) (Some [SplitParallel 0])
     (Some four_ranks) idle_world
   = (Crash NullDereference, idle_world)) /\
  (fst (GetDevice4CurrentProcessCtx four_ranks (-1) outsider_world) = Ok (None, -1) /\
   MirroredTensor_device eager_tensor_2_4 = Ok (Some cuda0) /\
   exists impl w',
     New_from_phy_tensor (Some eager_tensor_2_4) (Some [SplitParallel 0])
       (Some four_ranks) outsider_world = (Ok impl, w') /\
     cur_rank_phy_tensor_ impl = Some eager_tensor_2_4).
Proof.
  split.
  - split; [reflexivity|]. split; [reflexivity|]. vm_compute. reflexivity.
  - split; [vm_compute; reflexivity|]. split; [reflexivity|].
    eexists _, _. split; [vm_compute; reflexivity|]. reflexivity.
Qed.

(** ** Shape materialisation *)

Lemma execute_blobs i w : blobs (execute i w) = blobs w.
Proof.
  destruct i as [outs|b [f] m|b pd]; simpl; try done.
  by destruct (blobs w !! b).
Qed.

Lemma flag_is_set_after_access b f m w :
  flag_is_set f (execute (AccessBlobByCallback b (SetFlag f) m) w) = true.
Proof. unfold flag_is_set. simpl. by rewrite lookup_insert_eq. Qed.

Lemma execute_next_addr i w : next_addr (execute i w) = next_addr w.
Proof.
  destruct i as [outs|b [f] m|b pd]; simpl; try done.
  by destruct (blobs w !! b).
Qed.

#[local] Arguments execute : simpl never.

(** The rendezvous ends: once the access instruction is in the queue, the
    flag is seen set after finitely many instructions, and no instruction
    touches the blobs' descriptors. *)
Lemma run_until_flag_access f b m q : forall w,
  exists w', run_until_flag f (q ++ [AccessBlobByCallback b (SetFlag f) m]) w = Some w'
             /\ blobs w' = blobs w /\ next_addr w' = next_addr w.
Proof.
  induction q as [|i q IH]; intros w; simpl.
  - destruct (flag_is_set f w); [by eexists|].
    rewrite flag_is_set_after_access. eexists. split; [done|].
    unfold with_vm_queue. simpl. done.
  - destruct (flag_is_set f w); [by eexists|].
    destruct (IH (execute i w)) as (w' & Hrun & Hblobs & Hnext).
    exists w'. split; [done|].
    by rewrite Hblobs, Hnext, execute_blobs, execute_next_addr.
Qed.

(** The slow path of [shape] returns, with the blob marked synced. *)
Lemma shape_slow_path self w b blob :
  eager_blob_object_ self = Some b ->
  blobs w !! b = Some blob ->
  is_shape_synced blob = false ->
  exists w1,
    shape self w = (Ok (blob_shape_ptr (blob_desc blob)), w1) /\
    blobs w1 = <[b := set_is_shape_synced true blob]> (blobs w) /\
    next_addr w1 = S (next_addr w).
Proof.
  intros Hb Hblob Hsync. unfold shape. rewrite Hb.
  unfold load_blob at 1. unfold bind at 1. rewrite Hblob, Hsync.
  unfold new_atomic_flag, alloc, PhysicalRun, Builder_AccessBlobByCallback,
    WithScopedRelease, spin_wait, end_atomic_flag, load_blob.
  run.
  match goal with
  | |- context [run_until_flag ?f (?q ++ [AccessBlobByCallback ?b' (SetFlag ?f) ?m]) ?w0] =>
      destruct (run_until_flag_access f b' m q w0) as (w' & Hrun & Hblobs & Hnext);
      rewrite Hrun
  end.
  simpl in *. rewrite lookup_alter_eq, Hblobs, Hblob. simpl.
  eexists. split; [reflexivity|]. simpl. split; [|done].
  rewrite Hblobs. apply map_eq. intros k.
  destruct (decide (k = b)) as [->|Hne].
  - by rewrite lookup_alter_eq, lookup_insert_eq, Hblob.
  - by rewrite lookup_alter_ne, lookup_insert_ne.
Qed.

(** C2: without a blob [shape] returns the meta's shape, and with a synced
    blob the blob's shape, and in both cases the runtime is untouched: no
    flag, no instruction, no wait.  With any blob, [shape] returns; a
    second call then returns the same pointer and leaves the runtime as
    the first call left it, the blob being marked synced. *)
Theorem shape_fast_path_and_idempotence
    (self : EagerMirroredTensorImpl) (w : World) :
  (eager_blob_object_ self = None ->
   shape self w = (Ok (shape_ptr (obj (tensor_meta_ self))), w)) /\
  (forall b blob,
     eager_blob_object_ self = Some b ->
     blobs w !! b = Some blob ->
     is_shape_synced blob = true ->
     shape self w = (Ok (blob_shape_ptr (blob_desc blob)), w)) /\
  (forall b blob,
     eager_blob_object_ self = Some b ->
     blobs w !! b = Some blob ->
     exists w1 blob1,
       shape self w = (Ok (blob_shape_ptr (blob_desc blob)), w1) /\
       blobs w1 !! b = Some blob1 /\ is_shape_synced blob1 = true /\
       shape self w1 = (Ok (blob_shape_ptr (blob_desc blob)), w1)).
Proof.
  assert (Hfast : forall w0 b blob,
            eager_blob_object_ self = Some b ->
            blobs w0 !! b = Some blob ->
            is_shape_synced blob = true ->
            shape self w0 = (Ok (blob_shape_ptr (blob_desc blob)), w0)).
  { intros w0 b blob Hb Hblob Hsync. unfold shape, load_blob. rewrite Hb.
    run. by rewrite Hblob, Hsync. }
  split; [|split].
  - intros Hnone. unfold shape. by rewrite Hnone.
  - apply Hfast.
  - intros b blob Hb Hblob.
    destruct (is_shape_synced blob) eqn:Hsync.
    + exists w, blob. repeat split; try done; by apply (Hfast w b).
    + destruct (shape_slow_path self w b blob Hb Hblob Hsync)
        as (w1 & Hshape & Hblobs & _).
      exists w1, (set_is_shape_synced true blob).
      assert (Hblob1 : blobs w1 !! b = Some (set_is_shape_synced true blob))
        by (by rewrite Hblobs, lookup_insert_eq).
      repeat split; try done.
      by rewrite (Hfast w1 b _ Hb Hblob1).
Qed.

(** ** Owners of a storage *)

Lemma PhysicalRun_ReleaseTensor b pd w :
  PhysicalRun (let* _ := Builder_ReleaseTensor b pd in ret tt)%M w
  = (Ok tt, with_vm_queue (fun q => q ++ [ReleaseTensor b pd]) w).
Proof. reflexivity. Qed.

Lemma invoke_releaser_hook_enqueues h w :
  invoke_releaser_hook h w
  = (Ok tt,
     with_vm_queue
       (fun q => q ++ [ReleaseTensor (captured_eager_blob_object h)
                         (captured_parallel_desc h)]) w).
Proof. reflexivity. Qed.

(** Copying a reference changes a count and nothing else. *)
Lemma copy_storage_ref_preserves p w r w' :
  copy_storage_ref p w = (r, w') ->
  blobs w' = blobs w /\ hook_log w' = hook_log w /\
  (forall a, is_Some (storages w' !! a) <-> is_Some (storages w !! a)) /\
  (forall a c', storages w' !! a = Some c' ->
     exists c, storages w !! a = Some c /\ storage c = storage c').
Proof.
  unfold copy_storage_ref, load_storage. destruct p as [a0|]; run.
  - destruct (storages w !! a0) as [c0|] eqn:Hc0; simpl; intros [= <- <-];
      simpl; repeat split; try done; try (intros; by eexists).
    + intros [c Hc]. destruct (decide (a = a0)) as [->|Hne]; [by eexists|].
      rewrite lookup_insert_ne in Hc by done. by eexists.
    + intros [c Hc]. destruct (decide (a = a0)) as [->|Hne].
      * rewrite lookup_insert_eq. by eexists.
      * rewrite lookup_insert_ne by done. by eexists.
    + intros a c' Hc'. destruct (decide (a = a0)) as [->|Hne].
      * rewrite lookup_insert_eq in Hc'. injection Hc' as <-. by eexists.
      * rewrite lookup_insert_ne in Hc' by done. by eexists.
  - intros [= <- <-]. repeat split; try done. intros; by eexists.
Qed.

(** Dropping a reference never changes the [TensorStorage] of a cell that
    stays, and never creates a cell. *)
Lemma drop_storage_ref_preserves p w r w' :
  drop_storage_ref p w = (r, w') ->
  blobs w' = blobs w /\
  (forall a c', storages w' !! a = Some c' ->
     exists c, storages w !! a = Some c /\ storage c = storage c') /\
  process_ctx w' = process_ctx w /\
  live_buffers w' = live_buffers w.
Proof.
  unfold drop_storage_ref, load_storage, destroy_TensorStorage.
  destruct p as [a0|]; run.
  - destruct (storages w !! a0) as [c0|] eqn:Hc0; simpl.
    + destruct (use_count c0 <=? 1)%nat.
      * destruct (releaser_hook_ (storage c0)) as [h|]; simpl;
          intros [= <- <-]; simpl; (split; [done|]); (split; [|done]);
          intros a c' Hc'; apply lookup_delete_Some in Hc' as [_ Hc'];
          by eexists.
      * intros [= <- <-]. simpl. split; [done|]. split; [|done]. intros a c' Hc'.
        destruct (decide (a = a0)) as [->|Hne].
        -- rewrite lookup_insert_eq in Hc'. injection Hc' as <-. by eexists.
        -- rewrite lookup_insert_ne in Hc' by done. by eexists.
    + intros [= <- <-]. split; [done|]. split; [|done]. intros; by eexists.
  - intros [= <- <-]. split; [done|]. split; [|done]. intros; by eexists.
Qed.

(** ** Binding a blob and a storage *)

#[local] Arguments copy_storage_ref : simpl never.
#[local] Arguments drop_storage_ref : simpl never.

(** *** Inversion of monadic code that returned *)

Lemma bind_Ok_inv {S A B} (c : M S A) (k : A -> M S B) s b s2 :
  bind c k s = (Ok b, s2) ->
  exists a s1, c s = (Ok a, s1) /\ k a s1 = (Ok b, s2).
Proof.
  unfold bind. destruct (c s) as [[a| |] s1]; try discriminate.
  intros Hk. by exists a, s1.
Qed.

Lemma in_world_Ok_inv {T W A} (c : M W A) (t : T) w a s :
  in_world c (t, w) = (Ok a, s) ->
  exists w', c w = (Ok a, w') /\ s = (t, w').
Proof.
  unfold in_world. simpl. destruct (c w) as [r w'].
  intros [= -> <-]. by exists w'.
Qed.

Lemma this_Ok_inv {T W} (tw : T * W) a s :
  this tw = (Ok a, s) -> a = fst tw /\ s = tw.
Proof. unfold this, gets. by intros [= <- <-]. Qed.

Lemma assign_Ok_inv {T W} (f : T -> T) (tw : T * W) a s :
  assign f tw = (Ok a, s) -> s = (f (fst tw), snd tw).
Proof. unfold assign, modify. by intros [= <-]. Qed.

Lemma CHECK_OR_RETURN_Ok_inv {S} cond msg (s0 : S) a s :
  CHECK_OR_RETURN cond msg s0 = (Ok a, s) -> cond = true /\ s = s0.
Proof.
  unfold CHECK_OR_RETURN, lift, check_or_return.
  destruct cond; [by intros [= <- <-]|discriminate].
Qed.

Lemma lift_Ok_inv {S A} (o : Outcome A) (s0 : S) a s :
  lift o s0 = (Ok a, s) -> o = Ok a /\ s = s0.
Proof. unfold lift. by intros [= <- <-]. Qed.

Lemma ret_Ok_inv {S A} (x : A) (s0 : S) a s :
  ret x s0 = (Ok a, s) -> a = x /\ s = s0.
Proof. unfold ret. by intros [= <- <-]. Qed.

Lemma load_blob_Ok_inv p w blob w' :
  load_blob p w = (Ok blob, w') ->
  exists b, p = Some b /\ blobs w !! b = Some blob /\ w' = w.
Proof.
  unfold load_blob. destruct p as [b|]; [|discriminate].
  destruct (blobs w !! b) eqn:Hb; [|discriminate].
  intros [= <- <-]. by exists b.
Qed.

Lemma load_storage_Ok_inv p w cell w' :
  load_storage p w = (Ok cell, w') ->
  exists a, p = Some a /\ storages w !! a = Some cell /\ w' = w.
Proof.
  unfold load_storage. destruct p as [a|]; [|discriminate].
  destruct (storages w !! a) eqn:Ha; [|discriminate].
  intros [= <- <-]. by exists a.
Qed.

(** One step of a computation that returned: split off the first call. *)
Ltac step_as H a :=
  let s := fresh "st" in
  let H1 := fresh "Hstep" in
  apply bind_Ok_inv in H as (a & s & H1 & H).

Ltac step H := let a := fresh "a" in step_as H a.

Lemma InitEagerBlobObjectAndTensorStorage_Ok self w p_blob p_storage self' w' :
  InitEagerBlobObjectAndTensorStorage p_blob p_storage (self, w)
    = (Ok tt, (self', w')) ->
  exists b s blob cell,
    p_blob = Some b /\ p_storage = Some s /\
    blobs w !! b = Some blob /\ storages w !! s = Some cell /\
    tensor_buffer blob = buffer (storage cell) /\
    eager_blob_object_ self' = Some b /\ tensor_storage_ self' = Some s /\
    bound_one_to_one self' w'.
Proof.
  unfold InitEagerBlobObjectAndTensorStorage. intros H.
  step H. apply this_Ok_inv in Hstep as [-> ->]. simpl in H.
  step_as H blob. apply in_world_Ok_inv in Hstep as (? & Hblob & ->).
  apply load_blob_Ok_inv in Hblob as (b & -> & Hblob & ->).
  step_as H cell. apply in_world_Ok_inv in Hstep as (? & Hcell & ->).
  apply load_storage_Ok_inv in Hcell as (s & -> & Hcell & ->).
  step H. apply CHECK_OR_RETURN_Ok_inv in Hstep as [Hbuf ->].
  apply bool_decide_eq_true_1 in Hbuf.
  step H. apply assign_Ok_inv in Hstep as ->. simpl in H.
  step H. apply in_world_Ok_inv in Hstep as (w1 & Hcopy & ->).
  pose proof (copy_storage_ref_preserves _ _ _ _ Hcopy) as (Hb1 & _ & _ & Hs1).
  step H. apply assign_Ok_inv in Hstep as ->. simpl in H.
  step H. apply in_world_Ok_inv in Hstep as (w2 & Hdrop & ->).
  pose proof (drop_storage_ref_preserves _ _ _ _ Hdrop) as (Hb2 & Hs2 & _).
  apply ret_Ok_inv in H as [_ [= -> ->]].
  exists b, s, blob, cell. repeat split; try done.
  intros b' s' blob' cell' [= <-] [= <-] Hblob' Hcell'. simpl in *.
  rewrite Hb2, Hb1, Hblob in Hblob'. injection Hblob' as <-.
  destruct (Hs2 _ _ Hcell') as (c1 & Hc1 & <-).
  destruct (Hs1 _ _ Hc1) as (c0 & Hc0 & <-).
  rewrite Hcell in Hc0. by injection Hc0 as <-.
Qed.

(** What [UpdateTensorStorage] leaves behind when it returns: a new storage
    on the blob's buffer, carrying a hook that captured the blob and the
    device's placement. *)
Lemma UpdateTensorStorage_Ok self w self' w' :
  UpdateTensorStorage (self, w) = (Ok tt, (self', w')) ->
  exists b blob d cell,
    eager_blob_object_ self = Some b /\ blobs w !! b = Some blob /\
    device (obj (tensor_meta_ self)) = Some d /\
    self' = set_tensor_storage_ (Some (next_addr w)) self /\
    storages w' !! next_addr w = Some cell /\
    buffer (storage cell) = tensor_buffer blob /\
    releaser_hook_ (storage cell)
      = Some {| captured_eager_blob_object := b;
                captured_parallel_desc := parallel_desc_ptr d w |} /\
    blobs w' = blobs w /\ live_buffers w' = live_buffers w.
Proof.
  unfold UpdateTensorStorage. intros H.
  step H. apply this_Ok_inv in Hstep as [-> ->]. simpl in H.
  step_as H blob. apply in_world_Ok_inv in Hstep as (? & Hblob & ->).
  apply load_blob_Ok_inv in Hblob as (b & Hb & Hblob & ->).
  step_as H new_storage. apply in_world_Ok_inv in Hstep as (w1 & Hnew & ->).
  unfold make_shared_TensorStorage, alloc, bind, modify, ret in Hnew.
  simpl in Hnew. injection Hnew as <- <-.
  step H. apply assign_Ok_inv in Hstep as ->. simpl in H.
  step H. apply in_world_Ok_inv in Hstep as (w2 & Hdrop & ->).
  pose proof (drop_storage_ref_preserves _ _ _ _ Hdrop) as (Hb2 & Hs2 & Hctx & Hlive).
  step_as H d. apply lift_Ok_inv in Hstep as [Hd ->].
  destruct (device (obj (tensor_meta_ self))) as [d'|] eqn:Hdev; [|discriminate].
  injection Hd as ->.
  step_as H pd. apply in_world_Ok_inv in Hstep as (? & Hpd & ->).
  injection Hpd as <- <-.
  rewrite Hb in H.
  apply in_world_Ok_inv in H as (w3 & Hhook & [= -> ->]).
  unfold set_releaser_hook in Hhook.
  step_as Hhook c. apply load_storage_Ok_inv in Hstep as (? & [= <-] & Hc & ->).
  injection Hhook as <-.
  destruct (Hs2 _ _ Hc) as (c0 & Hc0 & Hst). simpl in Hc0.
  rewrite lookup_insert_eq in Hc0. injection Hc0 as <-. simpl in Hst.
  exists b, blob, d. eexists. repeat split; try done.
  - simpl. by rewrite lookup_insert_eq.
  - simpl. by rewrite <- Hst.
  - simpl. unfold parallel_desc_ptr. by rewrite Hctx.
Qed.

Lemma set_eager_blob_object_Ok self w p_blob self' w' :
  set_eager_blob_object p_blob (self, w) = (Ok tt, (self', w')) ->
  exists b blob s cell,
    p_blob = Some b /\ blobs w !! b = Some blob /\
    get (blob_shape_ptr (blob_desc blob)) = get (shape_ptr (obj (tensor_meta_ self))) /\
    data_type (blob_desc blob) = dtype (obj (tensor_meta_ self)) /\
    eager_blob_object_ self' = Some b /\ tensor_storage_ self' = Some s /\
    storages w' !! s = Some cell /\
    buffer (storage cell) = tensor_buffer blob /\
    bound_one_to_one self' w'.
Proof.
  unfold set_eager_blob_object. intros H.
  step H. apply assign_Ok_inv in Hstep as ->. simpl in H.
  step H. apply this_Ok_inv in Hstep as [-> ->]. simpl in H.
  step_as H blob. apply in_world_Ok_inv in Hstep as (? & Hblob & ->).
  apply load_blob_Ok_inv in Hblob as (b & -> & Hblob & ->).
  step H. apply CHECK_OR_RETURN_Ok_inv in Hstep as [Hptr ->].
  step H. apply CHECK_OR_RETURN_Ok_inv in Hstep as [Hdt ->].
  apply bool_decide_eq_true_1 in Hptr. apply bool_decide_eq_true_1 in Hdt.
  step_as H u. destruct u. destruct st as [self1 w1].
  apply ret_Ok_inv in H as [_ [= -> ->]].
  apply UpdateTensorStorage_Ok in Hstep
    as (b' & blob' & d & cell & [= <-] & Hblob' & Hd & -> & Hcell & Hbuf & _ & Hblobs & _).
  simpl in *. rewrite Hblob in Hblob'. injection Hblob' as <-.
  exists b, blob, (next_addr w), cell. repeat split; try done.
  intros b2 s2 blob2 cell2 [= <-] [= <-] Hblob2 Hcell2.
  rewrite Hblobs, Hblob in Hblob2. rewrite Hcell in Hcell2.
  injection Hblob2 as <-. injection Hcell2 as <-. done.
Qed.

(** What the two binding methods do keep to.
    [InitEagerBlobObjectAndTensorStorage] fails, changing nothing, when the
    buffers differ; [set_eager_blob_object] fails, before any storage is
    made, unless the blob's shape pointer and dtype are the meta's; and
    when either returns, the blob and the storage it bound hold the same
    buffer. *)
Theorem blob_and_storage_bound_on_one_buffer
    (self : EagerMirroredTensorImpl) (w : World) (b s : addr)
    (blob : EagerBlobObject) (cell : StorageCell)
    (Hblob : blobs w !! b = Some blob)
    (Hcell : storages w !! s = Some cell) :
  (tensor_buffer blob <> buffer (storage cell) ->
   InitEagerBlobObjectAndTensorStorage (Some b) (Some s) (self, w)
   = (Err (CheckFailedError ""), (self, w))) /\
  (forall self' w',
     InitEagerBlobObjectAndTensorStorage (Some b) (Some s) (self, w)
       = (Ok tt, (self', w')) ->
     tensor_buffer blob = buffer (storage cell) /\
     eager_blob_object_ self' = Some b /\ tensor_storage_ self' = Some s /\
     bound_one_to_one self' w') /\
  (get (blob_shape_ptr (blob_desc blob)) <> get (shape_ptr (obj (tensor_meta_ self)))
   \/ data_type (blob_desc blob) <> dtype (obj (tensor_meta_ self)) ->
   set_eager_blob_object (Some b) (self, w)
   = (Err (CheckFailedError ""), (set_eager_blob_object_ (Some b) self, w))) /\
  (forall self' w',
     set_eager_blob_object (Some b) (self, w) = (Ok tt, (self', w')) ->
     get (blob_shape_ptr (blob_desc blob)) = get (shape_ptr (obj (tensor_meta_ self))) /\
     data_type (blob_desc blob) = dtype (obj (tensor_meta_ self)) /\
     eager_blob_object_ self' = Some b /\
     (exists s' cell',
        tensor_storage_ self' = Some s' /\ storages w' !! s' = Some cell' /\
        buffer (storage cell') = tensor_buffer blob) /\
     bound_one_to_one self' w').
Proof.
  split; [|split; [|split]].
  - intros Hne. unfold InitEagerBlobObjectAndTensorStorage, load_blob, load_storage.
    run. rewrite Hblob. simpl. rewrite Hcell. simpl.
    by rewrite bool_decide_eq_false_2.
  - intros self' w' HOk.
    apply InitEagerBlobObjectAndTensorStorage_Ok in HOk
      as (b' & s' & blob' & cell' & [= <-] & [= <-] & Hb' & Hc' & Hbuf & ? & ? & ?).
    rewrite Hblob in Hb'. rewrite Hcell in Hc'.
    injection Hb' as <-. injection Hc' as <-. done.
  - intros Hne. unfold set_eager_blob_object, load_blob. run.
    rewrite Hblob. simpl. destruct Hne as [Hne|Hne].
    + by rewrite bool_decide_eq_false_2.
    + destruct (bool_decide (get _ = get _)); simpl; [|done].
      by rewrite bool_decide_eq_false_2.
  - intros self' w' HOk.
    apply set_eager_blob_object_Ok in HOk
      as (b' & blob' & s' & cell' & [= <-] & Hb' & ? & ? & ? & ? & ? & ? & ?).
    rewrite Hblob in Hb'. injection Hb' as <-.
    repeat split; try done. by exists s', cell'.
Qed.

Lemma blob_and_storage_bound_on_one_buffer_witness :
  InitEagerBlobObjectAndTensorStorage (Some 10%nat) (Some 31%nat)
      (eager_impl_2_4, busy_world)
    = (Err (CheckFailedError ""), (eager_impl_2_4, busy_world)) /\
  (exists self' w',
     InitEagerBlobObjectAndTensorStorage (Some 10%nat) (Some 30%nat)
       (eager_impl_2_4, busy_world) = (Ok tt, (self', w')) /\
     bound_one_to_one self' w') /\
  (exists self' w',
     set_eager_blob_object (Some 10%nat) (eager_impl_2_4, busy_world)
       = (Ok tt, (self', w')) /\
     bound_one_to_one self' w').
Proof.
  split; [|split].
  - apply (proj1 (blob_and_storage_bound_on_one_buffer eager_impl_2_4 busy_world
                    10%nat 31%nat (blob_2_4 false)
                    {| storage := {| buffer := 21%nat; releaser_hook_ := None |};
                       use_count := 1 |} eq_refl eq_refl)).
    discriminate.
  - eexists _, _. split; [vm_compute; reflexivity|].
    eapply (proj1 (proj2 (blob_and_storage_bound_on_one_buffer eager_impl_2_4
                            busy_world 10%nat 30%nat (blob_2_4 false) _
                            eq_refl eq_refl))).
    vm_compute. reflexivity.
  - eexists _, _. split; [vm_compute; reflexivity|].
    eapply (proj2 (proj2 (proj2 (blob_and_storage_bound_on_one_buffer eager_impl_2_4
                            busy_world 10%nat 30%nat (blob_2_4 false) _
                            eq_refl eq_refl)))).
    vm_compute. reflexivity.
Defined.



(** The other two ways a blob and a storage come to one implementation
    bind them on one buffer.  [InitEagerBlobObject] builds the blob from the
    meta's own shape pointer and dtype, so the checks of
    [set_eager_blob_object] pass and the new storage sits on the new
    blob's buffer. *)
Lemma InitEagerBlobObject_Ok mc self w self' w' :
  InitEagerBlobObject mc (self, w) = (Ok tt, (self', w')) ->
  (exists b s, eager_blob_object_ self' = Some b /\ tensor_storage_ self' = Some s) /\
  bound_one_to_one self' w'.
Proof.
  unfold InitEagerBlobObject. intros H.
  step H. apply this_Ok_inv in Hstep as [-> ->]. simpl in H.
  step H. apply CHECK_OR_RETURN_Ok_inv in Hstep as [_ ->].
  step_as H buf. apply in_world_Ok_inv in Hstep as (w1 & _ & ->).
  step_as H d. apply lift_Ok_inv in Hstep as [_ ->].
  step_as H pd. apply in_world_Ok_inv in Hstep as (? & Hpd & ->).
  injection Hpd as _ <-.
  step_as H blob. apply in_world_Ok_inv in Hstep as (w2 & _ & ->).
  step_as H u. destruct u. destruct st as [self1 w3].
  apply ret_Ok_inv in H as [_ [= -> ->]].
  apply set_eager_blob_object_Ok in Hstep
    as (b & blob' & s & cell & _ & _ & _ & _ & Hb & Hs & _ & _ & Hbound).
  split; [by exists b, s|done].
Qed.

(** A detached implementation holds the pair of its source. *)
Lemma detach_preserves_binding e w e' w' :
  bound_one_to_one e w ->
  EagerMirroredTensorImpl_detach e w = (Ok (EagerImpl e'), w') ->
  bound_one_to_one e' w'.
Proof.
  intros Hbound. unfold EagerMirroredTensorImpl_detach,
    new_EagerMirroredTensorImpl_with_storage. intros H.
  step_as H d. step_as Hstep u.
  pose proof (copy_storage_ref_preserves _ _ _ _ Hstep0) as (Hblobs & _ & _ & Hst).
  apply ret_Ok_inv in Hstep as [-> ->].
  apply ret_Ok_inv in H as [[= ->] ->].
  intros b s blob cell Hb Hs Hblob Hcell. simpl in *.
  rewrite Hblobs in Hblob.
  destruct (Hst _ _ Hcell) as (c0 & Hc0 & <-).
  by apply (Hbound b s).
Qed.

(** ** The release hook *)

Lemma hook_runs_app a l w :
  hook_runs a (with_hook_log (fun l0 => l0 ++ l) w)
  = (hook_runs a w + length (filter (fun x => x = a) l))%nat.
Proof. unfold hook_runs. simpl. by rewrite filter_app, length_app. Qed.

(** To the runtime, a detach is one copy of the storage pointer. *)
Lemma detach_world e w :
  snd (EagerMirroredTensorImpl_detach e w) = snd (copy_storage_ref (tensor_storage_ e) w).
Proof.
  unfold EagerMirroredTensorImpl_detach, new_EagerMirroredTensorImpl_with_storage.
  unfold bind, ret.
  by destruct (copy_storage_ref (tensor_storage_ e) w) as [[[]| |] w'].
Qed.

Lemma copy_storage_ref_budget p a w :
  hook_budget a (snd (copy_storage_ref p w)) = hook_budget a w.
Proof.
  destruct (copy_storage_ref p w) as [r w'] eqn:Hcopy. simpl.
  apply copy_storage_ref_preserves in Hcopy as (_ & Hlog & Halive & _).
  unfold hook_budget, hook_runs. rewrite Hlog.
  destruct (storages w' !! a) eqn:H1; destruct (storages w !! a) eqn:H2; try done.
  - destruct (proj1 (Halive a)) as [? ?]; [by eexists|congruence].
  - destruct (proj2 (Halive a)) as [? ?]; [by eexists|congruence].
Qed.

Lemma drop_storage_ref_budget p a w :
  (hook_budget a (snd (drop_storage_ref p w)) <= hook_budget a w)%nat.
Proof.
  unfold drop_storage_ref, load_storage, destroy_TensorStorage, invoke_releaser_hook,
    PhysicalRun, Builder_ReleaseTensor.
  destruct p as [a0|]; run; [|done].
  destruct (storages w !! a0) as [c0|] eqn:Hc0; simpl; [|done].
  destruct (use_count c0 <=? 1)%nat.
  - destruct (releaser_hook_ (storage c0)) as [h|]; simpl; unfold hook_budget, hook_runs;
      simpl.
    + rewrite filter_app, length_app.
      destruct (decide (a = a0)) as [->|Hne].
      * rewrite lookup_delete_eq, Hc0. rewrite filter_cons_True by done. simpl. lia.
      * rewrite lookup_delete_ne by done.
        rewrite filter_cons_False by congruence. simpl. lia.
    + destruct (decide (a = a0)) as [->|Hne].
      * rewrite lookup_delete_eq, Hc0. lia.
      * by rewrite lookup_delete_ne.
  - unfold hook_budget, hook_runs. simpl.
    destruct (decide (a = a0)) as [->|Hne].
    + by rewrite lookup_insert_eq, Hc0.
    + by rewrite lookup_insert_ne.
Qed.

Lemma owner_events_budget evs : forall a w,
  (hook_budget a (owner_events evs w) <= hook_budget a w)%nat.
Proof.
  unfold owner_events.
  induction evs as [|ev evs IH]; intros a w; simpl; [done|].
  etransitivity; [apply IH|].
  destruct ev as [e|e]; simpl.
  - by rewrite detach_world, copy_storage_ref_budget.
  - apply drop_storage_ref_budget.
Qed.


(** Once the hook has run the storage is gone, and the hook never runs
    again. *)
Lemma hook_runs_never_again evs a w :
  storages w !! a = None ->
  hook_runs a (owner_events evs w) = hook_runs a w.
Proof.
  intros Hgone.
  pose proof (owner_events_budget evs a w) as Hb. unfold hook_budget in Hb.
  rewrite Hgone in Hb.
  assert (hook_runs a w <= hook_runs a (owner_events evs w))%nat; [|lia].
  clear Hb Hgone. revert w. unfold owner_events.
  induction evs as [|ev evs IH]; intros w; simpl; [done|].
  etransitivity; [|apply IH].
  destruct ev as [e|e]; simpl.
  - rewrite detach_world.
    destruct (copy_storage_ref (tensor_storage_ e) w) as [r w'] eqn:Hcopy. simpl.
    apply copy_storage_ref_preserves in Hcopy as (_ & Hlog & _).
    unfold hook_runs. by rewrite Hlog.
  - unfold delete_EagerMirroredTensorImpl, drop_storage_ref, load_storage,
      destroy_TensorStorage.
    destruct (tensor_storage_ e) as [a0|]; run; [|done].
    destruct (storages w !! a0) as [c0|]; simpl; [|done].
    destruct (use_count c0 <=? 1)%nat; [|done].
    destruct (releaser_hook_ (storage c0)); simpl; [|done].
    unfold hook_runs. simpl. rewrite filter_app, length_app. lia.
Qed.

(** Dropping a valid reference returns, and leaves the other storages
    alone. *)
Lemma drop_storage_ref_returns p w :
  valid_storage_ref p w ->
  exists w',
    drop_storage_ref p w = (Ok tt, w') /\
    (forall a, p <> Some a -> storages w' !! a = storages w !! a).
Proof.
  unfold valid_storage_ref, drop_storage_ref, load_storage, destroy_TensorStorage,
    invoke_releaser_hook, PhysicalRun, Builder_ReleaseTensor.
  destruct p as [a0|]; [|by eexists]. intros [c0 Hc0]. run. rewrite Hc0. simpl.
  destruct (use_count c0 <=? 1)%nat.
  - destruct (releaser_hook_ (storage c0)); simpl; eexists; (split; [done|]);
      intros a Hne; simpl; apply lookup_delete_ne; congruence.
  - eexists. split; [done|]. intros a Hne. simpl.
    apply lookup_insert_ne. congruence.
Qed.

(** [UpdateTensorStorage] returns whenever the implementation has a live
    blob and a device, its old storage pointer is valid, and the allocator
    hands out an address that no storage has. *)
Lemma UpdateTensorStorage_returns self w b blob d :
  eager_blob_object_ self = Some b ->
  blobs w !! b = Some blob ->
  device (obj (tensor_meta_ self)) = Some d ->
  valid_storage_ref (tensor_storage_ self) w ->
  storages w !! next_addr w = None ->
  exists self' w', UpdateTensorStorage (self, w) = (Ok tt, (self', w')).
Proof.
  intros Hb Hblob Hd Hvalid Hfresh.
  pose (w1 := with_storages
                (fun m => <[next_addr w :=
                              {| storage := {| buffer := tensor_buffer blob;
                                               releaser_hook_ := None |};
                                 use_count := 1 |}]> m)
                (with_next_addr S w)).
  assert (Hvalid1 : valid_storage_ref (tensor_storage_ self) w1).
  { unfold valid_storage_ref in *. destruct (tensor_storage_ self) as [a|]; [|done].
    destruct Hvalid as [c Hc]. exists c. simpl.
    rewrite lookup_insert_ne; [done|]. intros <-. congruence. }
  destruct (drop_storage_ref_returns _ _ Hvalid1) as (w2 & Hdrop & Hothers).
  assert (Hnew : storages w2 !! next_addr w
                 = Some {| storage := {| buffer := tensor_buffer blob;
                                         releaser_hook_ := None |};
                           use_count := 1 |}).
  { rewrite Hothers; [simpl; by rewrite lookup_insert_eq|].
    intros Heq. unfold valid_storage_ref in Hvalid. rewrite Heq in Hvalid.
    destruct Hvalid as [c Hc]. congruence. }
  unfold UpdateTensorStorage, load_blob, make_shared_TensorStorage, alloc,
    set_releaser_hook, load_storage.
  run. rewrite Hb. simpl. rewrite Hblob. simpl.
  fold w1. rewrite Hdrop. simpl. rewrite Hd. simpl. rewrite Hnew. simpl.
  by eexists _, _.
Qed.



(** Three implementations share the storage at 30 and let go of it one
    after the other: the hook runs on the last release, once, and a single
    [ReleaseTensor] for the blob at 10 joins the queue; the buffer is still
    allocated, it goes when the executor reaches the instruction. *)
Example shared_storage_released_once :
  let w := owner_events
             [Detached bound_impl; Detached bound_impl;
              Deleted bound_impl; Deleted bound_impl;
              Deleted bound_impl; Deleted bound_impl] busy_world in
  hook_runs 30%nat w = 1%nat /\
  vm_queue w = [LocalCallOpKernel [10%nat];
                ReleaseTensor 10%nat {| device_tag := "cuda";
                                        machine_device_ids := [(0, 0)] |}] /\
  storages w !! 30%nat = None /\
  20%nat ∈ live_buffers w /\
  20%nat ∉ live_buffers (fold_right execute w (vm_queue w)).
Proof.
  cbv zeta. split; [|split; [|split; [|split]]]; try (vm_compute; reflexivity);
    apply (bool_decide_unpack _); vm_compute; exact I.
Qed.

Lemma shape_fast_path_and_idempotence_witness :
  exists w1 blob1,
    shape bound_impl busy_world = (Ok (SharedConst 1%nat [2; 4]), w1) /\
    blobs w1 !! 10%nat = Some blob1 /\ is_shape_synced blob1 = true /\
    shape bound_impl w1 = (Ok (SharedConst 1%nat [2; 4]), w1).
Proof.
  apply (proj2 (proj2 (shape_fast_path_and_idempotence bound_impl busy_world))
           10%nat (blob_2_4 false)); reflexivity.
Defined.

(** The first call on the busy runtime goes through the rendezvous: the
    pending kernel and the access instruction have left the queue, the
    lock is held again, the local flag is gone, the blob is synced. *)
Example shape_materialises_on_busy_world :
  let w1 := snd (shape bound_impl busy_world) in
  fst (shape bound_impl busy_world) = Ok (SharedConst 1%nat [2; 4]) /\
  vm_queue w1 = [] /\ foreign_lock_held w1 = true /\
  atomic_flags w1 = ∅ /\
  blobs w1 !! 10%nat = Some (blob_2_4 true) /\
  shape bound_impl w1 = (Ok (SharedConst 1%nat [2; 4]), w1).
Proof.
  cbv zeta. split; [|split; [|split; [|split; [|split]]]]; vm_compute; reflexivity.
Qed.

(** Held without the scoped release, the lock would keep the executor
    from the access instruction, and the caller would spin for ever. *)
Example spin_wait_needs_the_lock_released :
  fst (spin_wait 5%nat
         (with_vm_queue (fun q => q ++ [AccessBlobByCallback 10%nat (SetFlag 5%nat) "const"])
            busy_world))
    = Crash SpinsForever /\
  fst (WithScopedRelease (spin_wait 5%nat)
         (with_vm_queue (fun q => q ++ [AccessBlobByCallback 10%nat (SetFlag 5%nat) "const"])
            busy_world))
    = Ok tt.
Proof. split; vm_compute; reflexivity. Qed.

(* ================================================================== *)
(** * Further properties of the embedded code *)
(* ================================================================== *)

(** ** Meta comparison and hashing as a key contract *)

Lemma MirroredTensorMeta_eq_true_iff m1 m2 :
  MirroredTensorMeta_eq m1 m2 = Ok true <->
  obj (shape_ptr m1) = obj (shape_ptr m2) /\ dtype m1 = dtype m2 /\
  exists d, device m1 = Some d /\ device m2 = Some d.
Proof.
  unfold MirroredTensorMeta_eq. split.
  - destruct (bool_decide (obj (shape_ptr m1) = obj (shape_ptr m2))) eqn:Hs;
      [|discriminate].
    destruct (bool_decide (dtype m1 = dtype m2)) eqn:Hd; [|discriminate].
    apply bool_decide_eq_true_1 in Hs. apply bool_decide_eq_true_1 in Hd. simpl.
    destruct (device m1) as [d1|], (device m2) as [d2|]; simpl; try discriminate.
    intros [= Heq]. apply bool_decide_eq_true_1 in Heq as ->. by eauto 6.
  - intros (Hs & Hd & d & -> & ->).
    rewrite !bool_decide_eq_true_2 by done. simpl.
    by rewrite bool_decide_eq_true_2.
Qed.

(** X1: [MirroredTensorMeta::operator==] answers true exactly when shapes
    and dtypes agree and both metas carry the same device; it answers
    false, without looking at the devices, as soon as shapes or dtypes
    differ; and it dereferences a null device symbol exactly when shapes
    and dtypes agree and one of the metas has no device. *)
Theorem MirroredTensorMeta_eq_characterised (m1 m2 : MirroredTensorMeta) :
  (MirroredTensorMeta_eq m1 m2 = Ok true <->
   obj (shape_ptr m1) = obj (shape_ptr m2) /\ dtype m1 = dtype m2 /\
   exists d, device m1 = Some d /\ device m2 = Some d) /\
  (obj (shape_ptr m1) <> obj (shape_ptr m2) \/ dtype m1 <> dtype m2 ->
   MirroredTensorMeta_eq m1 m2 = Ok false) /\
  (MirroredTensorMeta_eq m1 m2 = Crash NullDereference <->
   obj (shape_ptr m1) = obj (shape_ptr m2) /\ dtype m1 = dtype m2 /\
   (device m1 = None \/ device m2 = None)).
Proof.
  unfold MirroredTensorMeta_eq.
  destruct (decide (obj (shape_ptr m1) = obj (shape_ptr m2))) as [Hs|Hs];
    destruct (decide (dtype m1 = dtype m2)) as [Hd|Hd].
  - rewrite !bool_decide_eq_true_2 by done. simpl.
    destruct (device m1) as [d1|], (device m2) as [d2|]; simpl.
    + destruct (decide (d1 = d2)) as [->|Hne].
      * rewrite bool_decide_eq_true_2 by done.
        split; [|split]; [split; [by eauto 6|done]|tauto|].
        split; [done|]. intros (_ & _ & [?|?]); done.
      * rewrite bool_decide_eq_false_2 by done.
        split; [|split]; [split; [done|]|tauto|split; [done|]].
        -- intros (_ & _ & d & [= ->] & [= ->]). done.
        -- intros (_ & _ & [?|?]); done.
    + split; [|split]; [split; [done|]|tauto|split; [by eauto|done]].
      intros (_ & _ & d & _ & ?). done.
    + split; [|split]; [split; [done|]|tauto|split; [by eauto|done]].
      intros (_ & _ & d & ? & _). done.
    + split; [|split]; [split; [done|]|tauto|split; [by eauto|done]].
      intros (_ & _ & d & ? & _). done.
  - rewrite (bool_decide_eq_false_2 (dtype m1 = dtype m2)) by done.
    rewrite andb_false_r.
    split; [|split]; [split; [done|tauto]|done|split; [done|tauto]].
  - rewrite (bool_decide_eq_false_2 (obj (shape_ptr m1) = obj (shape_ptr m2))) by done.
    simpl.
    split; [|split]; [split; [done|tauto]|done|split; [done|tauto]].
  - rewrite (bool_decide_eq_false_2 (obj (shape_ptr m1) = obj (shape_ptr m2))) by done.
    simpl.
    split; [|split]; [split; [done|tauto]|done|split; [done|tauto]].
Qed.

Lemma MirroredTensorMeta_eq_characterised_witness :
  MirroredTensorMeta_eq (meta_2_4 false)
    (obj (default_meta_at 100%nat 101%nat)) = Ok false.
Proof.
  apply (proj1 (proj2 (MirroredTensorMeta_eq_characterised (meta_2_4 false)
                         (obj (default_meta_at 100%nat 101%nat))))).
  left. discriminate.
Defined.

Section HashContract.

Context `{Hashers}.

(** X2: metas that compare equal hash equal, for mirrored metas (where
    the comparison returning true also means both hashes are computed)
    and for consistent metas: equality and hash agree as a key needs. *)
Theorem equal_metas_hash_equal
    (m1 m2 : MirroredTensorMeta) (c1 c2 : ConsistentTensorMeta) :
  (MirroredTensorMeta_eq m1 m2 = Ok true ->
   exists h, MirroredTensorMeta_CalcHashValue m1 = Ok h /\
             MirroredTensorMeta_CalcHashValue m2 = Ok h) /\
  (ConsistentTensorMeta_eq c1 c2 = true ->
   ConsistentTensorMeta_CalcHashValue c1 = ConsistentTensorMeta_CalcHashValue c2).
Proof.
  split.
  - unfold MirroredTensorMeta_eq, MirroredTensorMeta_CalcHashValue.
    destruct (bool_decide (obj (shape_ptr m1) = obj (shape_ptr m2))) eqn:Hs;
      [|discriminate].
    destruct (bool_decide (dtype m1 = dtype m2)) eqn:Hd; [|discriminate].
    apply bool_decide_eq_true_1 in Hs. apply bool_decide_eq_true_1 in Hd. simpl.
    destruct (device m1) as [d1|], (device m2) as [d2|]; simpl; try discriminate.
    intros [= Heq]. apply bool_decide_eq_true_1 in Heq as ->.
    rewrite Hs, Hd. by eexists.
  - unfold ConsistentTensorMeta_eq, ConsistentTensorMeta_CalcHashValue.
    intros Heq. repeat (apply andb_prop in Heq as [Heq ?]).
    repeat match goal with
           | Hb : bool_decide _ = true |- _ => apply bool_decide_eq_true_1 in Hb
           end.
    congruence.
Qed.

End HashContract.

Lemma equal_metas_hash_equal_witness :
  (exists h, MirroredTensorMeta_CalcHashValue (meta_2_4 false) = Ok h /\
             MirroredTensorMeta_CalcHashValue (meta_2_4 true) = Ok h) /\
  ConsistentTensorMeta_CalcHashValue (consistent_meta_8_4 false)
    = ConsistentTensorMeta_CalcHashValue (consistent_meta_8_4 true).
Proof.
  split.
  - apply (proj1 (equal_metas_hash_equal (H := simple_hashers)
                    (meta_2_4 false) (meta_2_4 true)
                    (consistent_meta_8_4 false) (consistent_meta_8_4 true))).
    reflexivity.
  - apply (proj2 (equal_metas_hash_equal (H := simple_hashers)
                    (meta_2_4 false) (meta_2_4 true)
                    (consistent_meta_8_4 false) (consistent_meta_8_4 true))).
    reflexivity.
Defined.

(** X3: [ConsistentTensorMeta::operator==] is an equivalence relation, and
    [MirroredTensorMeta::operator==] gives the same outcome with its
    arguments swapped and is transitive where it answers true. *)
Theorem meta_equality_is_an_equivalence
    (c1 c2 c3 : ConsistentTensorMeta) (m1 m2 m3 : MirroredTensorMeta) :
  ConsistentTensorMeta_eq c1 c1 = true /\
  ConsistentTensorMeta_eq c1 c2 = ConsistentTensorMeta_eq c2 c1 /\
  (ConsistentTensorMeta_eq c1 c2 = true -> ConsistentTensorMeta_eq c2 c3 = true ->
   ConsistentTensorMeta_eq c1 c3 = true) /\
  MirroredTensorMeta_eq m1 m2 = MirroredTensorMeta_eq m2 m1 /\
  (MirroredTensorMeta_eq m1 m2 = Ok true -> MirroredTensorMeta_eq m2 m3 = Ok true ->
   MirroredTensorMeta_eq m1 m3 = Ok true).
Proof.
  split; [|split; [|split; [|split]]].
  - unfold ConsistentTensorMeta_eq. by rewrite !bool_decide_eq_true_2.
  - unfold ConsistentTensorMeta_eq.
    rewrite (bool_decide_ext _ _ (symmetry_iff eq (obj (consistent_shape_ptr c1)) _)).
    rewrite (bool_decide_ext _ _ (symmetry_iff eq (consistent_dtype c1) _)).
    rewrite (bool_decide_ext _ _ (symmetry_iff eq (parallel_distribution c1) _)).
    by rewrite (bool_decide_ext _ _ (symmetry_iff eq (parallel_desc c1) _)).
  - unfold ConsistentTensorMeta_eq. intros H12 H23.
    repeat (apply andb_prop in H12 as [H12 ?]).
    repeat (apply andb_prop in H23 as [H23 ?]).
    repeat match goal with
           | Hb : bool_decide _ = true |- _ => apply bool_decide_eq_true_1 in Hb
           end.
    rewrite !bool_decide_eq_true_2; [done|congruence..].
  - unfold MirroredTensorMeta_eq.
    rewrite (bool_decide_ext _ _ (symmetry_iff eq (obj (shape_ptr m1)) _)).
    rewrite (bool_decide_ext _ _ (symmetry_iff eq (dtype m1) _)).
    destruct (_ && _); [|done].
    destruct (device m1) as [d1|], (device m2) as [d2|]; simpl; try done.
    by rewrite (bool_decide_ext _ _ (symmetry_iff eq d1 d2)).
  - intros H12 H23.
    apply (proj1 (MirroredTensorMeta_eq_true_iff m1 m2)) in H12
      as (Hs & Hd & d & Hd1 & Hd2).
    apply (proj1 (MirroredTensorMeta_eq_true_iff m2 m3)) in H23
      as (Hs' & Hd' & d' & Hd2' & Hd3).
    apply (proj2 (MirroredTensorMeta_eq_true_iff m1 m3)).
    repeat split; [congruence..|]. exists d. split; [done|congruence].
Qed.

Lemma meta_equality_is_an_equivalence_witness :
  ConsistentTensorMeta_eq (consistent_meta_8_4 false) (consistent_meta_8_4 false) = true /\
  MirroredTensorMeta_eq (with_is_dynamic true (meta_2_4 false)) (meta_2_4 false) = Ok true.
Proof.
  pose proof (meta_equality_is_an_equivalence
                (consistent_meta_8_4 false) (consistent_meta_8_4 true)
                (consistent_meta_8_4 false)
                (with_is_dynamic true (meta_2_4 false)) (meta_2_4 true) (meta_2_4 false))
    as (_ & _ & Hc & _ & Hm).
  split; [apply Hc|apply Hm]; reflexivity.
Defined.

(** ** The gradient slot over time *)

Lemma gradient_call_frame c t :
  requires_grad_ (gradient_call c t) = requires_grad_ t /\
  is_leaf_ (gradient_call c t) = is_leaf_ t /\
  match autograd_meta_ t with
  | None => gradient_call c t = t /\ gradient_call_returns c t = false
  | Some _ =>
      is_Some (autograd_meta_ (gradient_call c t)) /\ gradient_call_returns c t = true
  end.
Proof.
  destruct c; unfold gradient_call, gradient_call_returns, acc_grad, current_grad,
    set_acc_grad, mut_acc_grad, set_retain_grad; run;
    destruct (autograd_meta_ t) eqn:Hm; simpl; rewrite ?Hm; by eauto.
Qed.

(** X4: no sequence of gradient-slot calls attaches or removes the
    autograd metadata or touches [requires_grad] and [is_leaf].  With
    metadata every call of the sequence returns; without it none does and
    the implementation stays exactly as it was. *)
Theorem gradient_calls_keep_the_slot (cs : list GradientCall) (t : TensorImpl) :
  requires_grad_ (gradient_calls cs t) = requires_grad_ t /\
  is_leaf_ (gradient_calls cs t) = is_leaf_ t /\
  match autograd_meta_ t with
  | None => gradient_calls cs t = t /\ no_call_returns cs t = true
  | Some _ =>
      is_Some (autograd_meta_ (gradient_calls cs t)) /\ all_calls_return cs t = true
  end.
Proof.
  revert t. unfold gradient_calls.
  induction cs as [|c cs IH]; intros t; simpl.
  - destruct (autograd_meta_ t) eqn:Hm; rewrite ?Hm; by eauto.
  - destruct (gradient_call_frame c t) as (Hr & Hl & Hc).
    destruct (IH (gradient_call c t)) as (Hr' & Hl' & Hcs).
    rewrite Hr', Hl', Hr, Hl. split; [done|]. split; [done|].
    destruct (autograd_meta_ t) eqn:Hm.
    + destruct Hc as [[m' Hm'] Hret]. rewrite Hm' in Hcs. by rewrite Hret.
    + destruct Hc as [Heq Hret]. rewrite Heq in *. rewrite Hm in Hcs.
      by rewrite Hret.
Qed.

(** ** Creating the blob of an implementation *)

#[local] Arguments UpdateTensorStorage : simpl never.
#[local] Arguments set_eager_blob_object : simpl never.

(** What [InitEagerBlobObject] has done when it returns: three fresh
    addresses in a row, for the buffer, the blob and the storage. *)
Lemma InitEagerBlobObject_post mc self w self' w' :
  InitEagerBlobObject mc (self, w) = (Ok tt, (self', w')) ->
  exists d blob cell,
    device (obj (tensor_meta_ self)) = Some d /\
    self' = set_tensor_storage_ (Some (S (S (next_addr w))))
              (set_eager_blob_object_ (Some (S (next_addr w))) self) /\
    blobs w' !! S (next_addr w) = Some blob /\
    mem_case_ blob = mc /\
    blob_shape_ptr (blob_desc blob) = shape_ptr (obj (tensor_meta_ self)) /\
    data_type (blob_desc blob) = dtype (obj (tensor_meta_ self)) /\
    tensor_buffer blob = next_addr w /\
    next_addr w ∈ live_buffers w' /\
    storages w' !! S (S (next_addr w)) = Some cell /\
    buffer (storage cell) = next_addr w /\
    releaser_hook_ (storage cell)
      = Some {| captured_eager_blob_object := S (next_addr w);
                captured_parallel_desc := parallel_desc_ptr d w |}.
Proof.
  unfold InitEagerBlobObject. intros H.
  step H. apply this_Ok_inv in Hstep as [-> ->]. simpl in H.
  step H. apply CHECK_OR_RETURN_Ok_inv in Hstep as [_ ->].
  step_as H buf. apply in_world_Ok_inv in Hstep as (w1 & Hbuf & ->).
  unfold make_shared_TensorBuffer, alloc, bind, modify, ret in Hbuf.
  simpl in Hbuf. injection Hbuf as <- <-.
  step_as H d. apply lift_Ok_inv in Hstep as [Hd ->].
  destruct (device (obj (tensor_meta_ self))) as [d'|] eqn:Hdev; [|discriminate].
  injection Hd as ->.
  step_as H pd. apply in_world_Ok_inv in Hstep as (? & Hpd & ->).
  injection Hpd as <- <-.
  step_as H b. apply in_world_Ok_inv in Hstep as (w2 & Hb & ->).
  unfold make_shared_EagerBlobObject, alloc, bind, modify, ret in Hb.
  simpl in Hb. injection Hb as <- <-.
  step_as H u. destruct u. destruct st as [self1 w3].
  apply ret_Ok_inv in H as [_ [= -> ->]].
  unfold set_eager_blob_object in Hstep.
  step Hstep. apply assign_Ok_inv in Hstep0 as ->. simpl in Hstep.
  step Hstep. apply this_Ok_inv in Hstep0 as [-> ->]. simpl in Hstep.
  step_as Hstep blob. apply in_world_Ok_inv in Hstep0 as (? & Hblob & ->).
  apply load_blob_Ok_inv in Hblob as (? & [= <-] & Hblob & ->).
  simpl in Hblob. rewrite lookup_insert_eq in Hblob. injection Hblob as <-.
  step Hstep. apply CHECK_OR_RETURN_Ok_inv in Hstep0 as [_ ->].
  step Hstep. apply CHECK_OR_RETURN_Ok_inv in Hstep0 as [_ ->].
  step_as Hstep u. destruct u. destruct st as [self2 w4].
  apply ret_Ok_inv in Hstep as [_ [= -> ->]].
  apply UpdateTensorStorage_Ok in Hstep0
    as (b' & blob' & d0 & cell & [= <-] & Hblob' & Hd0 & -> & Hcell & Hbuf & Hhook
        & Hblobs & Hlive).
  simpl in *. rewrite Hdev in Hd0. injection Hd0 as <-.
  rewrite lookup_insert_eq in Hblob'. injection Hblob' as <-. simpl in *.
  eexists d, _, cell.
  split; [done|]. split; [done|].
  split; [rewrite Hblobs; simpl; by rewrite lookup_insert_eq|].
  simpl. repeat split; try done.
  rewrite Hlive. simpl. apply elem_of_union_l. by apply elem_of_singleton.
Qed.

(** X5: [InitEagerBlobObject] on an implementation whose meta has no
    device returns a check failure and leaves the implementation and the
    runtime as they were: no buffer, no blob, no storage. *)
Theorem InitEagerBlobObject_without_device
    (mc : MemoryCase) (self : EagerMirroredTensorImpl) (w : World)
    (Hdevice : device (obj (tensor_meta_ self)) = None) :
  InitEagerBlobObject mc (self, w) = (Err (CheckFailedError ""), (self, w)).
Proof.
  unfold InitEagerBlobObject. run. rewrite Hdevice.
  rewrite bool_decide_eq_false_2; [done|]. by intros [? ?].
Qed.

(** The default-constructed implementation is such a one. *)
Lemma InitEagerBlobObject_without_device_witness :
  match new_default_EagerMirroredTensorImpl idle_world with
  | (Ok impl, w) =>
      InitEagerBlobObject (mem_case cuda0) (impl, w)
      = (Err (CheckFailedError ""), (impl, w))
  | _ => False
  end.
Proof.
  simpl. apply InitEagerBlobObject_without_device. reflexivity.
Defined.

(** [set_eager_blob_object] returns when the blob it is given passes the
    two checks and [UpdateTensorStorage] has what it needs. *)
Lemma set_eager_blob_object_returns self w b blob d :
  blobs w !! b = Some blob ->
  get (blob_shape_ptr (blob_desc blob)) = get (shape_ptr (obj (tensor_meta_ self))) ->
  data_type (blob_desc blob) = dtype (obj (tensor_meta_ self)) ->
  device (obj (tensor_meta_ self)) = Some d ->
  valid_storage_ref (tensor_storage_ self) w ->
  storages w !! next_addr w = None ->
  exists self' w', set_eager_blob_object (Some b) (self, w) = (Ok tt, (self', w')).
Proof.
  intros Hblob Hptr Hdt Hd Hvalid Hfresh.
  destruct (UpdateTensorStorage_returns (set_eager_blob_object_ (Some b) self)
              w b blob d eq_refl Hblob Hd Hvalid Hfresh) as (self' & w' & HU).
  exists self', w'. unfold set_eager_blob_object, load_blob. run.
  rewrite Hblob. simpl. rewrite !bool_decide_eq_true_2 by done. simpl.
  by rewrite HU.
Qed.

Lemma InitEagerBlobObject_returns mc self w d :
  device (obj (tensor_meta_ self)) = Some d ->
  valid_storage_ref (tensor_storage_ self) w ->
  storages w !! S (S (next_addr w)) = None ->
  exists self' w', InitEagerBlobObject mc (self, w) = (Ok tt, (self', w')).
Proof.
  intros Hd Hvalid Hfresh.
  pose (blob := {| mem_case_ := mc;
                   blob_desc := {| blob_shape_ptr := shape_ptr (obj (tensor_meta_ self));
                                   data_type := dtype (obj (tensor_meta_ self)) |};
                   tensor_buffer := next_addr w;
                   blob_parallel_desc :=
                     parallel_desc_ptr d
                       (with_live_buffers (fun s => {[next_addr w]} ∪ s)
                          (with_next_addr S w));
                   is_shape_synced := true |}).
  pose (w2 := with_blobs (fun m => <[S (next_addr w) := blob]> m)
                (with_next_addr S
                   (with_live_buffers (fun s => {[next_addr w]} ∪ s)
                      (with_next_addr S w)))).
  destruct (set_eager_blob_object_returns self w2 (S (next_addr w)) blob d)
    as (self' & w' & Hset); try done.
  { simpl. by rewrite lookup_insert_eq. }
  exists self', w'.
  unfold InitEagerBlobObject, make_shared_TensorBuffer, make_shared_EagerBlobObject,
    alloc. run. rewrite Hd. rewrite bool_decide_eq_true_2 by by eexists. simpl.
  fold blob. fold w2. by rewrite Hset.
Qed.

(** X6: on an implementation with a device, a valid storage pointer and a
    fresh allocator, [InitEagerBlobObject] returns; the implementation then
    holds a new blob that shares the meta's shape object and dtype and
    sits on a new live buffer, and a new storage on that same buffer whose
    release hook captured the new blob. *)
Theorem InitEagerBlobObject_creates_blob_and_storage
    (mc : MemoryCase) (self : EagerMirroredTensorImpl) (w : World) (d : Device)
    (Hdevice : device (obj (tensor_meta_ self)) = Some d)
    (Hvalid : valid_storage_ref (tensor_storage_ self) w)
    (Hfresh : storages w !! S (S (next_addr w)) = None) :
  exists self' w' b s blob cell,
    InitEagerBlobObject mc (self, w) = (Ok tt, (self', w')) /\
    eager_blob_object_ self' = Some b /\ tensor_storage_ self' = Some s /\
    tensor_meta_ self' = tensor_meta_ self /\ base self' = base self /\
    blobs w' !! b = Some blob /\
    storages w' !! s = Some cell /\
    blob_shape_ptr (blob_desc blob) = shape_ptr (obj (tensor_meta_ self)) /\
    data_type (blob_desc blob) = dtype (obj (tensor_meta_ self)) /\
    mem_case_ blob = mc /\
    tensor_buffer blob ∈ live_buffers w' /\
    buffer (storage cell) = tensor_buffer blob /\
    (exists pd, releaser_hook_ (storage cell)
                = Some {| captured_eager_blob_object := b;
                          captured_parallel_desc := pd |}).
Proof.
  destruct (InitEagerBlobObject_returns mc self w d Hdevice Hvalid Hfresh)
    as (self' & w' & Hinit).
  destruct (InitEagerBlobObject_post _ _ _ _ _ Hinit)
    as (d' & blob & cell & _ & -> & Hblob & Hmc & Hshape & Hdt & Hbuf & Hlive
        & Hcell & Hcbuf & Hhook).
  eexists _, w', _, _, blob, cell. split; [exact Hinit|].
  simpl. rewrite Hbuf, Hcbuf. repeat split; try done. by eexists.
Qed.

Lemma InitEagerBlobObject_creates_blob_and_storage_witness :
  exists self' w' b s blob cell,
    InitEagerBlobObject (mem_case cuda0) (bound_impl, busy_world)
      = (Ok tt, (self', w')) /\
    eager_blob_object_ self' = Some b /\ tensor_storage_ self' = Some s /\
    blobs w' !! b = Some blob /\ storages w' !! s = Some cell /\
    blob_shape_ptr (blob_desc blob) = SharedConst 1%nat [2; 4] /\
    buffer (storage cell) = tensor_buffer blob.
Proof.
  destruct (InitEagerBlobObject_creates_blob_and_storage (mem_case cuda0)
              bound_impl busy_world cuda0 eq_refl)
    as (self' & w' & b & s & blob & cell & H1 & H2 & H3 & _ & _ & H4 & H5 & H6
        & _ & _ & _ & H7 & _).
  - simpl. by eexists.
  - reflexivity.
  - by exists self', w', b, s, blob, cell.
Defined.

(** [set_eager_blob_object] writes no blob and keeps the meta and the
    flags of the implementation. *)
Lemma set_eager_blob_object_frame self w p self' w' :
  set_eager_blob_object p (self, w) = (Ok tt, (self', w')) ->
  blobs w' = blobs w /\ tensor_meta_ self' = tensor_meta_ self /\
  base self' = base self.
Proof.
  unfold set_eager_blob_object. intros H.
  step H. apply assign_Ok_inv in Hstep as ->. simpl in H.
  step H. apply this_Ok_inv in Hstep as [-> ->]. simpl in H.
  step_as H blob. apply in_world_Ok_inv in Hstep as (? & Hblob & ->).
  apply load_blob_Ok_inv in Hblob as (b & -> & Hblob & ->).
  step H. apply CHECK_OR_RETURN_Ok_inv in Hstep as [_ ->].
  step H. apply CHECK_OR_RETURN_Ok_inv in Hstep as [_ ->].
  step_as H u. destruct u. destruct st as [self1 w1].
  apply ret_Ok_inv in H as [_ [= -> ->]].
  apply UpdateTensorStorage_Ok in Hstep
    as (? & ? & ? & ? & _ & _ & _ & -> & _ & _ & _ & Hblobs & _).
  by rewrite Hblobs.
Qed.

(** X7: once a blob is bound with [set_eager_blob_object], [shape] returns,
    and what it returns points to the very [Shape] object of the meta,
    whether the blob counted as synced or had to be waited for. *)
Theorem shape_after_binding_is_the_meta_shape
    (self self' : EagerMirroredTensorImpl) (w w' : World) (p : option addr)
    (Hbind : set_eager_blob_object p (self, w) = (Ok tt, (self', w'))) :
  exists ptr w'',
    shape self' w' = (Ok ptr, w'') /\
    get ptr = get (shape_ptr (obj (tensor_meta_ self'))).
Proof.
  pose proof (set_eager_blob_object_frame _ _ _ _ _ Hbind) as (Hblobs & Hmeta & _).
  apply set_eager_blob_object_Ok in Hbind
    as (b & blob & s & cell & -> & Hblob & Hptr & _ & Hb & _).
  rewrite <- Hblobs in Hblob. rewrite Hmeta.
  destruct (is_shape_synced blob) eqn:Hsync.
  - exists (blob_shape_ptr (blob_desc blob)), w'. split; [|done].
    unfold shape, load_blob. rewrite Hb. run. by rewrite Hblob, Hsync.
  - destruct (shape_slow_path self' w' b blob Hb Hblob Hsync) as (w'' & Hshape & _).
    by exists (blob_shape_ptr (blob_desc blob)), w''.
Qed.

Lemma shape_after_binding_is_the_meta_shape_witness :
  exists self' w' ptr w'',
    set_eager_blob_object (Some 10%nat) (eager_impl_2_4, busy_world)
      = (Ok tt, (self', w')) /\
    shape self' w' = (Ok ptr, w'') /\
    get ptr = 1%nat.
Proof.
  eexists _, _.
  assert (Hbind : set_eager_blob_object (Some 10%nat) (eager_impl_2_4, busy_world)
                  = (Ok tt, (_, _))) by (vm_compute; reflexivity).
  destruct (shape_after_binding_is_the_meta_shape _ _ _ _ _ Hbind)
    as (ptr & w'' & Hshape & Hget).
  exists ptr, w''. split; [exact Hbind|]. split; [exact Hshape|exact Hget].
Defined.

(** ** Replacing the storage of an implementation *)

(** X8: when [UpdateTensorStorage] gives an implementation its new storage,
    the storage it held before loses this owner.  If that was the last
    owner, the old storage is destroyed and its release hook, if it has
    one, queues one [ReleaseTensor] for the blob it captured; otherwise
    the old storage stays with one owner less and nothing is queued.  In
    no case is a buffer freed by the call itself. *)
Theorem UpdateTensorStorage_releases_old_storage
    (self : EagerMirroredTensorImpl) (w : World) (b s_old : addr)
    (blob : EagerBlobObject) (d : Device) (c_old : StorageCell)
    (Hb : eager_blob_object_ self = Some b)
    (Hblob : blobs w !! b = Some blob)
    (Hdevice : device (obj (tensor_meta_ self)) = Some d)
    (Hold : tensor_storage_ self = Some s_old)
    (Hcell : storages w !! s_old = Some c_old)
    (Hfresh : storages w !! next_addr w = None) :
  exists self' w',
    UpdateTensorStorage (self, w) = (Ok tt, (self', w')) /\
    tensor_storage_ self' = Some (next_addr w) /\
    next_addr w <> s_old /\
    live_buffers w' = live_buffers w /\
    if (use_count c_old <=? 1)%nat then
      storages w' !! s_old = None /\
      match releaser_hook_ (storage c_old) with
      | Some h =>
          vm_queue w' = vm_queue w ++ [ReleaseTensor (captured_eager_blob_object h)
                                         (captured_parallel_desc h)] /\
          hook_log w' = hook_log w ++ [s_old]
      | None => vm_queue w' = vm_queue w /\ hook_log w' = hook_log w
      end
    else
      storages w' !! s_old
        = Some {| storage := storage c_old; use_count := pred (use_count c_old) |} /\
      vm_queue w' = vm_queue w /\ hook_log w' = hook_log w.
Proof.
  assert (Hne : next_addr w <> s_old) by congruence.
  unfold UpdateTensorStorage, load_blob, make_shared_TensorStorage, alloc,
    drop_storage_ref, load_storage, destroy_TensorStorage, invoke_releaser_hook,
    PhysicalRun, Builder_ReleaseTensor, set_releaser_hook.
  run. rewrite Hb. simpl. rewrite Hblob. simpl. rewrite Hold. simpl.
  rewrite lookup_insert_ne by done. rewrite Hcell. simpl.
  destruct (use_count c_old <=? 1)%nat.
  - destruct (releaser_hook_ (storage c_old)) as [h|]; simpl; rewrite Hdevice; simpl;
      rewrite lookup_delete_ne by done; rewrite lookup_insert_eq; simpl;
      eexists _, _; (split; [reflexivity|]); simpl;
      rewrite lookup_insert_ne by done; rewrite lookup_delete_eq; done.
  - rewrite Hdevice. simpl.
    rewrite lookup_insert_ne by done. rewrite lookup_insert_eq. simpl.
    eexists _, _. split; [reflexivity|]. simpl.
    rewrite lookup_insert_ne by done. rewrite lookup_insert_eq. done.
Qed.

Lemma UpdateTensorStorage_releases_old_storage_witness :
  exists self' w',
    UpdateTensorStorage (bound_impl, busy_world) = (Ok tt, (self', w')) /\
    tensor_storage_ self' = Some 100%nat /\
    storages w' !! 30%nat = None /\
    vm_queue w' = [LocalCallOpKernel [10%nat];
                   ReleaseTensor 10%nat {| device_tag := "cuda";
                                           machine_device_ids := [(0, 0)] |}] /\
    hook_log w' = [30%nat] /\
    live_buffers w' = live_buffers busy_world.
Proof.
  destruct (UpdateTensorStorage_releases_old_storage bound_impl busy_world
              10%nat 30%nat (blob_2_4 false) cuda0
              {| storage :=
                   {| buffer := 20%nat;
                      releaser_hook_ :=
                        Some {| captured_eager_blob_object := 10%nat;
                                captured_parallel_desc :=
                                  {| device_tag := "cuda";
                                     machine_device_ids := [(0, 0)] |} |} |};
                 use_count := 1 |}
              eq_refl eq_refl eq_refl eq_refl eq_refl eq_refl)
    as (self' & w' & HU & Hs & _ & Hlive & Hgone & Hq & Hlog).
  by exists self', w'.
Defined.

(** ** Detaching and deleting *)

(** X9: detaching an implementation and deleting the detached one is a
    round trip for the runtime: the storage gains an owner and loses it
    again, nothing is destroyed, no hook runs, and the runtime state is
    the one before the detach. *)
Theorem detach_then_delete_restores_the_runtime
    (e : EagerMirroredTensorImpl) (w : World) (a : addr) (c : StorageCell)
    (Hstorage : tensor_storage_ e = Some a)
    (Hcell : storages w !! a = Some c)
    (Howned : (1 <= use_count c)%nat) :
  exists detached w1,
    EagerMirroredTensorImpl_detach e w = (Ok (EagerImpl detached), w1) /\
    storages w1 !! a = Some {| storage := storage c; use_count := S (use_count c) |} /\
    delete_EagerMirroredTensorImpl detached w1 = (Ok tt, w).
Proof.
  unfold EagerMirroredTensorImpl_detach, new_EagerMirroredTensorImpl_with_storage,
    delete_EagerMirroredTensorImpl, copy_storage_ref, drop_storage_ref, load_storage.
  rewrite Hstorage. run. rewrite Hcell. simpl.
  eexists _, _. split; [reflexivity|]. simpl.
  rewrite lookup_insert_eq. split; [done|]. simpl.
  destruct (use_count c) as [|n] eqn:Hn; [lia|]. simpl.
  f_equal. destruct w as [bl st lb fl q lk ctx nx lg]. unfold with_storages. simpl in *.
  f_equal. rewrite insert_insert_eq. apply insert_id.
  rewrite Hcell. f_equal. destruct c. simpl in *. by subst.
Qed.

Lemma detach_then_delete_restores_the_runtime_witness :
  exists detached w1,
    EagerMirroredTensorImpl_detach bound_impl busy_world
      = (Ok (EagerImpl detached), w1) /\
    delete_EagerMirroredTensorImpl detached w1 = (Ok tt, busy_world).
Proof.
  destruct (detach_then_delete_restores_the_runtime bound_impl busy_world 30%nat
              {| storage :=
                   {| buffer := 20%nat;
                      releaser_hook_ :=
                        Some {| captured_eager_blob_object := 10%nat;
                                captured_parallel_desc :=
                                  {| device_tag := "cuda";
                                     machine_device_ids := [(0, 0)] |} |} |};
                 use_count := 1 |} eq_refl eq_refl)
    as (detached & w1 & Hdetach & _ & Hdelete).
  - simpl. lia.
  - by exists detached, w1.
Defined.



(** ** Building the physical tensor of a rank *)

Lemma on_object_Ok_inv {T W A} (o : T) (c : M (T * W) A) w r w' :
  on_object o c w = (Ok r, w') ->
  c (o, w) = (Ok (fst r), (snd r, w')).
Proof.
  unfold on_object. destruct (c (o, w)) as [[a| |] [o' w1]]; try discriminate.
  by intros [= <- <-].
Qed.

#[local] Arguments InitEagerBlobObject : simpl never.

(** X11: when the physical shape of the rank cannot be computed,
    [NewWithPhyTensor] hands the error of [GetPhysicalShape] to its caller
    before anything is allocated: the runtime is as it was. *)
Theorem NewWithPhyTensor_propagates_shape_error
    (meta : ConsistentTensorMeta) (sbp : ParallelDistribution) (desc : ParallelDesc)
    (device : Symbol Device) (parallel_id : Z) (requires_grad is_leaf : bool)
    (w : World) (e : Error)
    (Hsbp : parallel_distribution meta = Some sbp)
    (Hdesc : parallel_desc meta = Some desc)
    (Hshape : GetPhysicalShape (obj (consistent_shape_ptr meta)) sbp desc parallel_id
              = Err e) :
  NewWithPhyTensor (Some meta) device parallel_id requires_grad is_leaf w = (Err e, w).
Proof.
  unfold NewWithPhyTensor. run. rewrite Hsbp, Hdesc. simpl. by rewrite Hshape.
Qed.

Lemma NewWithPhyTensor_propagates_shape_error_witness :
  NewWithPhyTensor (Some consistent_meta_bad_axis) (Some cuda0) 0 true false idle_world
  = (Err (CheckFailedError "axis out of range"), idle_world).
Proof.
  apply (NewWithPhyTensor_propagates_shape_error consistent_meta_bad_axis
           [SplitParallel 5] four_ranks); reflexivity.
Defined.

(** X12: an implementation that [New] builds from a meta holds an eager
    physical tensor whose shape is the physical shape of the rank, whose
    dtype is the meta's, which sits on the device of the process, and
    which holds a blob and a storage that are alive in the runtime and sit
    on one allocated buffer, the blob with the meta's shape object and
    dtype; [requires_grad] and [is_leaf] are the ones passed to [New], on
    the tensor and on the consistent implementation, and the meta is the
    one passed. *)
Theorem New_from_meta_builds_the_rank_tensor
    (meta : Symbol ConsistentTensorMeta) (requires_grad is_leaf : bool)
    (w w' : World) (impl : EagerConsistentTensorImpl)
    (Hnew : New_from_meta meta requires_grad is_leaf w = (Ok impl, w')) :
  exists m sbp desc d parallel_id phy e,
    meta = Some m /\ parallel_distribution m = Some sbp /\
    parallel_desc m = Some desc /\
    GetDevice4CurrentProcessCtx desc (-1) w = (Ok (Some d, parallel_id), w) /\
    GetPhysicalShape (obj (consistent_shape_ptr m)) sbp desc parallel_id = Ok phy /\
    cur_rank_phy_tensor_ impl = Some {| impl_ := EagerImpl e |} /\
    obj (shape_ptr (obj (tensor_meta_ e))) = phy /\
    dtype (obj (tensor_meta_ e)) = consistent_dtype m /\
    device (obj (tensor_meta_ e)) = Some d /\
    requires_grad_ (base e) = requires_grad /\ is_leaf_ (base e) = is_leaf /\
    requires_grad_ (consistent_base impl) = requires_grad /\
    is_leaf_ (consistent_base impl) = is_leaf /\
    consistent_tensor_meta_ impl = meta /\
    (exists b s blob cell,
       eager_blob_object_ e = Some b /\ tensor_storage_ e = Some s /\
       blobs w' !! b = Some blob /\ storages w' !! s = Some cell /\
       tensor_buffer blob = buffer (storage cell) /\
       tensor_buffer blob ∈ live_buffers w' /\
       blob_shape_ptr (blob_desc blob) = shape_ptr (obj (tensor_meta_ e)) /\
       data_type (blob_desc blob) = consistent_dtype m).
Proof.
  unfold New_from_meta in Hnew.
  step_as Hnew m. apply lift_Ok_inv in Hstep as [Hm ->].
  destruct meta as [m'|]; [|discriminate]. injection Hm as ->.
  step_as Hnew desc. apply lift_Ok_inv in Hstep as [Hdesc ->].
  destruct (parallel_desc m) as [desc'|] eqn:Hpd; [|discriminate].
  injection Hdesc as ->.
  step_as Hnew r.
  assert (Hw : st = w).
  { unfold GetDevice4CurrentProcessCtx, bind, gets, ret in Hstep.
    destruct (index_of _ _ _); by injection Hstep as _ <-. }
  subst st. destruct r as [device parallel_id]. simpl in Hnew.
  destruct device as [d|].
  2:{ rewrite bool_decide_eq_false_2 in Hnew by (by intros [? ?]). discriminate. }
  rewrite bool_decide_eq_true_2 in Hnew by by eexists.
  unfold NewWithPhyTensor in Hnew.
  step Hnew. apply lift_Ok_inv in Hstep0 as [[= <-] ->].
  step_as Hnew sbp. apply lift_Ok_inv in Hstep0 as [Hsbp ->].
  destruct (parallel_distribution m) as [sbp'|] eqn:Hdist; [|discriminate].
  injection Hsbp as ->.
  step Hnew. apply lift_Ok_inv in Hstep0 as [Hdesc' ->].
  rewrite Hpd in Hdesc'. injection Hdesc' as <-.
  step_as Hnew phy. apply lift_Ok_inv in Hstep0 as [Hphy ->].
  step_as Hnew shape_addr. injection Hstep0 as <- <-.
  step_as Hnew meta_addr. injection Hstep0 as <- <-.
  step Hnew. apply lift_Ok_inv in Hstep0 as [[= <-] ->].
  step_as Hnew r. apply on_object_Ok_inv in Hstep0.
  destruct r as [[] e]. simpl in Hstep0.
  apply lift_Ok_inv in Hnew as [Hctor ->]. simpl in Hctor. injection Hctor as <-.
  apply InitEagerBlobObject_post in Hstep0
    as (d0 & blob & cell & _ & -> & Hblob & _ & Hptr & Hdt & Hbuf & Hlive & Hcell
        & Hcbuf & _).
  simpl in *.
  exists m, sbp, desc, d, parallel_id, phy. eexists.
  do 14 (split; [done|]).
  eexists _, _, blob, cell. simpl.
  split; [reflexivity|]. split; [reflexivity|].
  rewrite Hbuf, Hcbuf. done.
Qed.

Lemma New_from_meta_builds_the_rank_tensor_witness :
  exists impl w' e,
    New_from_meta (Some (consistent_meta_8_4 false)) true false idle_world
      = (Ok impl, w') /\
    cur_rank_phy_tensor_ impl = Some {| impl_ := EagerImpl e |} /\
    obj (shape_ptr (obj (tensor_meta_ e))) = [2; 4] /\
    requires_grad_ (consistent_base impl) = true /\
    is_leaf_ (consistent_base impl) = false /\
    exists b s blob cell,
      eager_blob_object_ e = Some b /\ tensor_storage_ e = Some s /\
      blobs w' !! b = Some blob /\ storages w' !! s = Some cell /\
      tensor_buffer blob = buffer (storage cell) /\
      tensor_buffer blob ∈ live_buffers w'.
Proof.
  eexists _, _.
  assert (Hnew : New_from_meta (Some (consistent_meta_8_4 false)) true false idle_world
                 = (Ok _, _)) by (vm_compute; reflexivity).
  destruct (New_from_meta_builds_the_rank_tensor _ _ _ _ _ _ Hnew)
    as (m & sbp & desc & d & pid & phy & e & Hm & Hsbp & Hdesc & Hdev & Hphy & Ht
        & Hshape & _ & _ & _ & _ & Hrg & Hleaf & _
        & b & s & blob & cell & Hb & Hs & Hblob & Hcell & Hbuf & Hlive & _).
  exists e. split; [exact Hnew|]. split; [exact Ht|].
  split.
  { injection Hm as <-. injection Hsbp as <-. injection Hdesc as <-.
    vm_compute in Hdev. injection Hdev as <- <-.
    rewrite Hshape. vm_compute in Hphy. by injection Hphy as <-. }
  split; [exact Hrg|]. split; [exact Hleaf|].
  by exists b, s, blob, cell.
Defined.

(** ** Taking a share of an existing storage *)

(** X13: [InitEagerBlobObjectAndTensorStorage] on an implementation that
    holds no storage yet, given a blob and a storage on one buffer,
    returns with both bound, and its whole effect on the runtime is one
    more owner of that storage: no blob is written, nothing is queued,
    nothing is allocated. *)
Theorem InitEagerBlobObjectAndTensorStorage_adds_one_owner
    (self : EagerMirroredTensorImpl) (w : World) (b s : addr)
    (blob : EagerBlobObject) (cell : StorageCell)
    (Hnone : tensor_storage_ self = None)
    (Hblob : blobs w !! b = Some blob)
    (Hcell : storages w !! s = Some cell)
    (Hbuffer : tensor_buffer blob = buffer (storage cell)) :
  InitEagerBlobObjectAndTensorStorage (Some b) (Some s) (self, w)
  = (Ok tt,
     (set_tensor_storage_ (Some s) (set_eager_blob_object_ (Some b) self),
      with_storages
        (fun m => <[s := {| storage := storage cell;
                            use_count := S (use_count cell) |}]> m) w)).
Proof.
  unfold InitEagerBlobObjectAndTensorStorage, load_blob, load_storage,
    copy_storage_ref, drop_storage_ref.
  run. rewrite Hblob. simpl. rewrite Hcell. simpl.
  rewrite bool_decide_eq_true_2 by done. simpl. rewrite Hcell. simpl.
  unfold load_storage. by rewrite Hnone.
Qed.

Lemma InitEagerBlobObjectAndTensorStorage_adds_one_owner_witness :
  exists self' w' cell,
    InitEagerBlobObjectAndTensorStorage (Some 10%nat) (Some 30%nat)
      (eager_impl_2_4, busy_world) = (Ok tt, (self', w')) /\
    storages w' !! 30%nat = Some cell /\ use_count cell = 2%nat /\
    vm_queue w' = vm_queue busy_world /\ blobs w' = blobs busy_world.
Proof.
  eexists _, _, _. split.
  - apply (InitEagerBlobObjectAndTensorStorage_adds_one_owner eager_impl_2_4
             busy_world 10%nat 30%nat (blob_2_4 false)); reflexivity.
  - repeat split.
Defined.

(** ** Shape inference of the matmul operators *)

Lemma NumAxes_app (s t : Shape) : NumAxes (s ++ t) = NumAxes s + NumAxes t.
Proof. unfold NumAxes. rewrite length_app. lia. Qed.

Lemma axis_in_range (s : Shape) (i : Z) :
  0 <= i < NumAxes s -> (0 <=? i) && (i <? NumAxes s) = true.
Proof.
  intros [H0 H1]. apply andb_true_iff. split.
  - by apply Z.leb_le.
  - by apply Z.ltb_lt.
Qed.

Lemma Shape_At_app (pre post : Shape) x :
  Shape_At (pre ++ x :: post) (NumAxes pre) = Ok x.
Proof.
  unfold Shape_At. rewrite axis_in_range.
  - unfold NumAxes. rewrite Nat2Z.id. by rewrite list_lookup_middle.
  - rewrite NumAxes_app. unfold NumAxes. simpl. lia.
Qed.

Lemma Shape_At_app_next (pre post : Shape) x y :
  Shape_At (pre ++ x :: y :: post) (NumAxes pre + 1) = Ok y.
Proof.
  replace (pre ++ x :: y :: post) with ((pre ++ [x]) ++ y :: post)
    by by rewrite <- app_assoc.
  replace (NumAxes pre + 1) with (NumAxes (pre ++ [x]))
    by (rewrite NumAxes_app; unfold NumAxes; simpl; lia).
  apply Shape_At_app.
Qed.

Lemma Shape_Set_app (pre post : Shape) x v :
  Shape_Set (pre ++ x :: post) (NumAxes pre) v = Ok (pre ++ v :: post).
Proof.
  unfold Shape_Set. rewrite axis_in_range.
  - unfold NumAxes. rewrite Nat2Z.id. f_equal.
    rewrite insert_app_r_alt by lia. by rewrite Nat.sub_diag.
  - rewrite NumAxes_app. unfold NumAxes. simpl. lia.
Qed.

Lemma Shape_Set_app_next (pre post : Shape) x y v :
  Shape_Set (pre ++ x :: y :: post) (NumAxes pre + 1) v = Ok (pre ++ x :: v :: post).
Proof.
  replace (pre ++ x :: y :: post) with ((pre ++ [x]) ++ y :: post)
    by by rewrite <- app_assoc.
  replace (NumAxes pre + 1) with (NumAxes (pre ++ [x]))
    by (rewrite NumAxes_app; unfold NumAxes; simpl; lia).
  rewrite Shape_Set_app. by rewrite <- app_assoc.
Qed.

(** The loop over leading axes compares the two shapes axis by axis and
    stops at the first difference. *)
Lemma check_axes_equal_app (la lb : Shape) : forall (pa pb ta tb : Shape),
  length pa = length pb -> length la = length lb ->
  check_axes_equal (pa ++ la ++ ta) (pb ++ lb ++ tb)
    (seqZ (NumAxes pa) (NumAxes la))
  = if bool_decide (la = lb) then Ok tt else Err (CheckFailedError "").
Proof.
  revert lb. induction la as [|x la IH]; intros [|y lb] pa pb ta tb Hp Hl;
    try discriminate.
  - by rewrite bool_decide_eq_true_2.
  - replace (NumAxes (x :: la)) with (Z.succ (NumAxes la))
      by (unfold NumAxes; simpl; lia).
    rewrite seqZ_cons by (unfold NumAxes; lia). simpl.
    rewrite Shape_At_app.
    assert (NumAxes pa = NumAxes pb) as -> by (unfold NumAxes; congruence).
    rewrite Shape_At_app. simpl. unfold check_or_return.
    destruct (x =? y) eqn:Exy; simpl.
    + apply Z.eqb_eq in Exy as ->.
      replace (Z.pred (Z.succ (NumAxes la))) with (NumAxes la) by lia.
      replace (Z.succ (NumAxes pb)) with (NumAxes (pa ++ [y]))
        by (rewrite NumAxes_app; unfold NumAxes; simpl; lia).
      replace (pa ++ y :: la ++ ta) with ((pa ++ [y]) ++ la ++ ta)
        by by rewrite <- app_assoc.
      replace (pb ++ y :: lb ++ tb) with ((pb ++ [y]) ++ lb ++ tb)
        by by rewrite <- app_assoc.
      rewrite IH.
      * destruct (decide (la = lb)) as [->|Hne].
        -- by rewrite !bool_decide_eq_true_2.
        -- rewrite !bool_decide_eq_false_2; [done|congruence|done].
      * rewrite !length_app. simpl. lia.
      * simpl in Hl. lia.
    + apply Z.eqb_neq in Exy. rewrite bool_decide_eq_false_2; [done|congruence].
Qed.

Lemma Shape_split_last2 (s : Shape) :
  2 <= NumAxes s -> exists pre x y, s = pre ++ [x; y].
Proof.
  unfold NumAxes. intros H.
  destruct (decide (s = [])) as [->|Hs]; [simpl in H; lia|].
  destruct (exists_last Hs) as (s1 & y & ->).
  rewrite length_app in H. simpl in H.
  destruct (decide (s1 = [])) as [->|Hs1]; [simpl in H; lia|].
  destruct (exists_last Hs1) as (pre & x & ->).
  exists pre, x, y. by rewrite <- app_assoc.
Qed.

Lemma check_add_to_output_state op (s : TensorDesc) r s' :
  check_add_to_output op s = (r, s') -> s' = s.
Proof.
  unfold check_add_to_output. destruct (op_add_to_output op); run.
  - destruct (bool_decide _); by intros [= _ <-].
  - by intros [= _ <-].
Qed.

(** The loop over the leading axes of [InferTensorDesc4Matmul], guarded by
    [num_axes > 2], accepts exactly equal leading axes. *)
Lemma leading_axes_check (pa pb ta tb : Shape) :
  length pa = length pb ->
  (if 2 <? NumAxes pa + 2
   then lift (check_axes_equal (pa ++ ta) (pb ++ tb) (seqZ 0 (NumAxes pa)))
   else ret tt)
  = (lift (if bool_decide (pa = pb) then Ok tt else Err (CheckFailedError ""))
     : M TensorDesc unit).
Proof.
  intros Hlen.
  pose proof (check_axes_equal_app pa pb [] [] ta tb eq_refl Hlen) as Hloop.
  simpl in Hloop. change (NumAxes []) with 0 in Hloop.
  destruct (2 <? NumAxes pa + 2) eqn:E.
  - by rewrite Hloop.
  - apply Z.ltb_ge in E. unfold NumAxes in E.
    destruct pa; [|simpl in E; lia]. destruct pb; [|discriminate].
    by rewrite bool_decide_eq_true_2.
Qed.

(** What [InferTensorDesc4Matmul] does on two shapes of the same rank, at
    least two: [pa], [pb] are the leading axes, [x y] and [u v] the last
    two. *)
Lemma InferTensorDesc4Matmul_eval op (pa pb : Shape) x y u v out :
  desc_shape (op_input_a op) = pa ++ [x; y] ->
  desc_shape (op_input_b op) = pb ++ [u; v] ->
  length pa = length pb ->
  InferTensorDesc4Matmul op out =
    let m := if op_transpose_a op then y else x in
    let k := if op_transpose_a op then x else y in
    let k_b := if op_transpose_b op then v else u in
    let n := if op_transpose_b op then u else v in
    let out1 := set_desc_is_dynamic (desc_is_dynamic (op_input_a op))
                  (set_desc_shape (pa ++ [x; y]) out) in
    if bool_decide (pa = pb) then
      if k =? k_b
      then check_add_to_output op (set_desc_shape (pa ++ [m; n]) out1)
      else (Err (CheckFailedError ""), out1)
    else (Err (CheckFailedError ""), out).
Proof.
  intros Ha Hb Hlen. unfold InferTensorDesc4Matmul. rewrite Ha, Hb.
  assert (NumAxes (pa ++ [x; y]) = NumAxes pa + 2) as ->
    by (rewrite NumAxes_app; reflexivity).
  assert (NumAxes (pb ++ [u; v]) = NumAxes pa + 2) as ->
    by (rewrite NumAxes_app; unfold NumAxes; rewrite Hlen; reflexivity).
  replace (NumAxes pa + 2 - 2) with (NumAxes pa) by lia.
  replace (NumAxes pa + 2 - 1) with (NumAxes pa + 1) by lia.
  rewrite Z.eqb_refl.
  rewrite (proj2 (Z.leb_le 2 (NumAxes pa + 2))) by (unfold NumAxes; lia).
  rewrite (leading_axes_check pa pb [x; y] [u; v] Hlen).
  cbv zeta.
  destruct (decide (pa = pb)) as [<-|Hne].
  - rewrite bool_decide_eq_true_2 by done.
    unfold bind, CHECK_OR_RETURN, lift, modify, gets, check_or_return. simpl.
    destruct (op_transpose_a op), (op_transpose_b op);
      rewrite ?Shape_At_app, ?Shape_At_app_next; simpl;
      match goal with |- context [?a =? ?b] => destruct (a =? b) end; simpl;
      try reflexivity;
      rewrite Shape_Set_app; simpl; rewrite Shape_Set_app_next; reflexivity.
  - rewrite bool_decide_eq_false_2 by done. reflexivity.
Qed.

Lemma check_add_to_output_Ok_inv op (s : TensorDesc) r s' :
  check_add_to_output op s = (Ok r, s') ->
  forall add, op_add_to_output op = Some add -> desc_shape add = desc_shape s.
Proof.
  intros H add Hadd. unfold check_add_to_output in H. rewrite Hadd in H.
  unfold bind, gets, CHECK_OR_RETURN, lift, check_or_return in H. simpl in H.
  match type of H with context [bool_decide ?P] => destruct (decide P) as [HP|HP] end.
  - exact HP.
  - rewrite bool_decide_eq_false_2 in H by done. discriminate.
Qed.

Lemma check_add_to_output_Ok op (s : TensorDesc) :
  (forall add, op_add_to_output op = Some add -> desc_shape add = desc_shape s) ->
  check_add_to_output op s = (Ok tt, s).
Proof.
  intros Hadd. unfold check_add_to_output.
  destruct (op_add_to_output op) as [add|]; [|reflexivity].
  unfold bind, gets, CHECK_OR_RETURN, lift, check_or_return. simpl.
  rewrite bool_decide_eq_true_2; [reflexivity|]. by apply Hadd.
Qed.

Lemma check_add_to_output_cases op (s : TensorDesc) :
  check_add_to_output op s = (Ok tt, s)
  \/ check_add_to_output op s = (Err (CheckFailedError ""), s).
Proof.
  unfold check_add_to_output. destruct (op_add_to_output op); [|by left].
  unfold bind, gets, CHECK_OR_RETURN, lift, check_or_return. simpl.
  destruct (bool_decide _); [by left|by right].
Qed.

Lemma InferTensorDesc4Matmul_rank_error op out :
  NumAxes (desc_shape (op_input_a op)) <> NumAxes (desc_shape (op_input_b op))
  \/ NumAxes (desc_shape (op_input_a op)) < 2 ->
  InferTensorDesc4Matmul op out = (Err (CheckFailedError ""), out).
Proof.
  intros H. unfold InferTensorDesc4Matmul, bind, CHECK_OR_RETURN, lift, check_or_return.
  destruct (NumAxes (desc_shape (op_input_a op)) =? NumAxes (desc_shape (op_input_b op)))
    eqn:E1; [|reflexivity].
  destruct (2 <=? NumAxes (desc_shape (op_input_a op))) eqn:E2; [|reflexivity].
  apply Z.eqb_eq in E1. apply Z.leb_le in E2. lia.
Qed.

(** Either a rank check rejects the operator, or both shapes end in two
    axes after leading axes of the same number. *)
Lemma matmul_ranks op :
  (NumAxes (desc_shape (op_input_a op)) <> NumAxes (desc_shape (op_input_b op))
   \/ NumAxes (desc_shape (op_input_a op)) < 2)
  \/ exists pa pb x y u v,
       desc_shape (op_input_a op) = pa ++ [x; y] /\
       desc_shape (op_input_b op) = pb ++ [u; v] /\
       length pa = length pb.
Proof.
  destruct (decide (NumAxes (desc_shape (op_input_a op))
                    = NumAxes (desc_shape (op_input_b op)))) as [Heq|Hne]; [|by left; left].
  destruct (decide (2 <= NumAxes (desc_shape (op_input_a op)))) as [Hge|Hlt];
    [|left; right; lia].
  right.
  destruct (Shape_split_last2 _ Hge) as (pa & x & y & Ha).
  assert (2 <= NumAxes (desc_shape (op_input_b op))) as Hgeb by lia.
  destruct (Shape_split_last2 _ Hgeb) as (pb & u & v & Hb).
  exists pa, pb, x, y, u, v. split; [done|]. split; [done|].
  rewrite Ha, Hb in Heq. unfold NumAxes in Heq. rewrite !length_app in Heq.
  simpl in Heq. lia.
Qed.

Lemma InferTensorDesc4Matmul_Ok_inv op out r out' :
  InferTensorDesc4Matmul op out = (Ok r, out') ->
  exists pre x y u v,
    desc_shape (op_input_a op) = pre ++ [x; y] /\
    desc_shape (op_input_b op) = pre ++ [u; v] /\
    (if op_transpose_a op then x else y) = (if op_transpose_b op then v else u) /\
    out' = {| desc_shape := pre ++ [if op_transpose_a op then y else x;
                                    if op_transpose_b op then u else v];
              desc_data_type := desc_data_type out;
              desc_is_dynamic := desc_is_dynamic (op_input_a op) |} /\
    (forall add, op_add_to_output op = Some add -> desc_shape add = desc_shape out').
Proof.
  intros H. destruct (matmul_ranks op) as [Hrank|(pa & pb & x & y & u & v & Ha & Hb & Hlen)].
  - rewrite (InferTensorDesc4Matmul_rank_error op out Hrank) in H. discriminate.
  - rewrite (InferTensorDesc4Matmul_eval op pa pb x y u v out Ha Hb Hlen) in H.
    cbv zeta in H.
    destruct (decide (pa = pb)) as [<-|Hne];
      [rewrite bool_decide_eq_true_2 in H by done
      |rewrite bool_decide_eq_false_2 in H by done; discriminate].
    match type of H with context [?a =? ?b] => destruct (a =? b) eqn:Ek end;
      [|discriminate].
    apply Z.eqb_eq in Ek.
    pose proof (check_add_to_output_state _ _ _ _ H) as ->.
    exists pa, x, y, u, v. split; [done|]. split; [done|]. split; [done|].
    split; [reflexivity|].
    intros add Hadd. unfold check_add_to_output in H. rewrite Hadd in H.
    unfold bind, gets, CHECK_OR_RETURN, lift, check_or_return in H. simpl in H.
    match type of H with context [bool_decide ?P] => destruct (decide P) as [HP|HP] end.
    + exact HP.
    + rewrite bool_decide_eq_false_2 in H by done. discriminate.
Qed.

Lemma InferTensorDesc4Matmul_Ok op out pre x y u v :
  desc_shape (op_input_a op) = pre ++ [x; y] ->
  desc_shape (op_input_b op) = pre ++ [u; v] ->
  (if op_transpose_a op then x else y) = (if op_transpose_b op then v else u) ->
  (forall add, op_add_to_output op = Some add ->
     desc_shape add = pre ++ [if op_transpose_a op then y else x;
                              if op_transpose_b op then u else v]) ->
  InferTensorDesc4Matmul op out
  = (Ok tt, {| desc_shape := pre ++ [if op_transpose_a op then y else x;
                                     if op_transpose_b op then u else v];
               desc_data_type := desc_data_type out;
               desc_is_dynamic := desc_is_dynamic (op_input_a op) |}).
Proof.
  intros Ha Hb Hk Hadd.
  rewrite (InferTensorDesc4Matmul_eval op pre pre x y u v out Ha Hb eq_refl).
  cbv zeta. rewrite bool_decide_eq_true_2 by done.
  rewrite Hk, Z.eqb_refl. unfold check_add_to_output.
  destruct (op_add_to_output op) as [add|] eqn:E; [|reflexivity].
  unfold bind, gets, CHECK_OR_RETURN, lift, check_or_return. simpl.
  rewrite bool_decide_eq_true_2; [reflexivity|]. by apply Hadd.
Qed.

(** X14: [InferTensorDesc4Matmul] accepts an operator exactly when [a] and
    [b] have the same leading axes before their last two, the inner
    extents agree under the two transpose flags, and an [_add_to_output]
    input, if there is one, has the shape of the result.  [out] then has
    the leading axes followed by [m] and [n] and the dynamic flag of [a];
    its data type is not written. *)
Theorem InferTensorDesc4Matmul_accepts_iff op out out' :
  InferTensorDesc4Matmul op out = (Ok tt, out') <->
  exists pre x y u v,
    desc_shape (op_input_a op) = pre ++ [x; y] /\
    desc_shape (op_input_b op) = pre ++ [u; v] /\
    (if op_transpose_a op then x else y) = (if op_transpose_b op then v else u) /\
    out' = {| desc_shape := pre ++ [if op_transpose_a op then y else x;
                                    if op_transpose_b op then u else v];
              desc_data_type := desc_data_type out;
              desc_is_dynamic := desc_is_dynamic (op_input_a op) |} /\
    (forall add, op_add_to_output op = Some add -> desc_shape add = desc_shape out').
Proof.
  split.
  - apply InferTensorDesc4Matmul_Ok_inv.
  - intros (pre & x & y & u & v & Ha & Hb & Hk & -> & Hadd).
    by apply (InferTensorDesc4Matmul_Ok op out pre x y u v).
Qed.

Lemma InferTensorDesc4Matmul_accepts_iff_witness :
  InferTensorDesc4Matmul (matmul_op true false [5; 3; 2] [5; 3; 4]) blank_desc
  = (Ok tt, {| desc_shape := [5; 2; 4]; desc_data_type := kInvalidDataType;
               desc_is_dynamic := false |}).
Proof.
  apply (proj2 (InferTensorDesc4Matmul_accepts_iff
                  (matmul_op true false [5; 3; 2] [5; 3; 4]) blank_desc _)).
  exists [5], 3, 2, 3, 4.
  split; [reflexivity|]. split; [reflexivity|]. split; [reflexivity|].
  split; [reflexivity|]. intros add Hadd. discriminate.
Defined.

(** X15: [InferTensorDesc4Matmul] never reads or writes an axis that is
    not there: whatever the operator, it returns or fails one of its
    checks, and the data type of [out] is as before. *)
Theorem InferTensorDesc4Matmul_never_aborts op out :
  exists out',
    (InferTensorDesc4Matmul op out = (Ok tt, out')
     \/ InferTensorDesc4Matmul op out = (Err (CheckFailedError ""), out'))
    /\ desc_data_type out' = desc_data_type out.
Proof.
  destruct (matmul_ranks op) as [Hrank|(pa & pb & x & y & u & v & Ha & Hb & Hlen)].
  - exists out. split; [right; by apply InferTensorDesc4Matmul_rank_error|done].
  - rewrite (InferTensorDesc4Matmul_eval op pa pb x y u v out Ha Hb Hlen).
    cbv zeta. destruct (bool_decide (pa = pb)); [|by exists out; split; [right|]].
    match goal with |- context [?a =? ?b] => destruct (a =? b) end.
    + eexists. split; [apply check_add_to_output_cases|reflexivity].
    + eexists. split; [by right|reflexivity].
Qed.

(** X16: a failure of [InferTensorDesc4Matmul] is not atomic: when the two
    shapes pass the rank and leading-axes checks and the inner extents
    differ, the check fails after [out] has been given the shape and the
    dynamic flag of [a]. *)
Theorem InferTensorDesc4Matmul_inner_mismatch_overwrites_out
    op (pre : Shape) x y u v out :
  desc_shape (op_input_a op) = pre ++ [x; y] ->
  desc_shape (op_input_b op) = pre ++ [u; v] ->
  (if op_transpose_a op then x else y) <> (if op_transpose_b op then v else u) ->
  InferTensorDesc4Matmul op out
  = (Err (CheckFailedError ""),
     {| desc_shape := desc_shape (op_input_a op);
        desc_data_type := desc_data_type out;
        desc_is_dynamic := desc_is_dynamic (op_input_a op) |}).
Proof.
  intros Ha Hb Hk.
  rewrite (InferTensorDesc4Matmul_eval op pre pre x y u v out Ha Hb eq_refl).
  cbv zeta. rewrite bool_decide_eq_true_2 by done.
  rewrite (proj2 (Z.eqb_neq _ _) Hk). by rewrite Ha.
Qed.

Lemma InferTensorDesc4Matmul_inner_mismatch_overwrites_out_witness :
  InferTensorDesc4Matmul (matmul_op false false [7; 2; 3] [7; 4; 5])
    {| desc_shape := [1]; desc_data_type := 2%nat; desc_is_dynamic := true |}
  = (Err (CheckFailedError ""),
     {| desc_shape := [7; 2; 3]; desc_data_type := 2%nat; desc_is_dynamic := false |}).
Proof.
  apply (InferTensorDesc4Matmul_inner_mismatch_overwrites_out
           (matmul_op false false [7; 2; 3] [7; 4; 5]) [7] 2 3 4 5);
    [reflexivity|reflexivity|simpl; lia].
Defined.

Ltac infer_gradient_shape Hfn :=
  unfold inferred_shape; simpl; rewrite ?Hfn;
  first [ erewrite InferTensorDesc4Matmul_Ok
            by (simpl; first [eassumption | reflexivity | discriminate | congruence]) ];
  simpl; unfold fw_input_shape; simpl; congruence.

(** X17: the gradient operators that [GenBackwardOpConf4Matmul] adds for
    [matmul] and [batch_matmul] are themselves accepted by the shape
    inference registered for them, and each infers the shape of the
    forward input its output is bound to, for all four combinations of
    [transpose_a] and [transpose_b]; the gradient of [out] is given the
    shape the forward inference gave [out]. *)
Theorem matmul_gradient_ops_infer_input_shapes
    op_type_name fw out fw_out out_grad blank :
  op_type_name = "matmul" \/ op_type_name = "batch_matmul" ->
  InferTensorDesc4Matmul fw out = (Ok tt, fw_out) ->
  desc_shape out_grad = desc_shape fw_out ->
  Forall (fun g => inferred_shape fw out_grad blank g.1 = fw_input_shape fw g.2)
    (GenBackwardOpConf4Matmul op_type_name fw).
Proof.
  intros Hname Hfw Hog.
  apply InferTensorDesc4Matmul_Ok_inv in Hfw
    as (pre & x & y & u & v & Ha & Hb & Hk & -> & _).
  simpl in Hog.
  assert (TensorDescInferFn op_type_name = Some InferTensorDesc4Matmul) as Hfn
    by (destruct Hname as [ -> | -> ]; reflexivity).
  destruct fw as [nm ta tb al ia ib ad ga gb]. simpl in *.
  unfold GenBackwardOpConf4Matmul. simpl.
  apply Forall_app. split.
  - destruct ga; [|constructor].
    destruct ta, tb; (constructor; [|constructor]); simpl; subst;
      infer_gradient_shape Hfn.
  - destruct gb; [|constructor].
    destruct ta, tb; (constructor; [|constructor]); simpl; subst;
      infer_gradient_shape Hfn.
Qed.

Lemma matmul_gradient_ops_infer_input_shapes_witness :
  let fw := matmul_op true false [5; 3; 2] [5; 3; 4] in
  let out_grad := {| desc_shape := [5; 2; 4]; desc_data_type := 2%nat;
                     desc_is_dynamic := false |} in
  map snd (GenBackwardOpConf4Matmul "batch_matmul" fw) = ["a"; "b"] /\
  Forall (fun g => inferred_shape fw out_grad blank_desc g.1 = fw_input_shape fw g.2)
    (GenBackwardOpConf4Matmul "batch_matmul" fw).
Proof.
  split; [reflexivity|].
  apply (matmul_gradient_ops_infer_input_shapes "batch_matmul"
           (matmul_op true false [5; 3; 2] [5; 3; 4]) blank_desc
           {| desc_shape := [5; 2; 4]; desc_data_type := kInvalidDataType;
              desc_is_dynamic := false |});
    [by right|reflexivity|reflexivity].
Defined.

(** What the shape inference of [broadcast_matmul] does once its three
    leading checks pass. *)
Lemma InferTensorDesc4BroadcastMatmul_eval op (pre : Shape) k u v out :
  desc_shape (op_input_a op) = pre ++ [k] ->
  desc_shape (op_input_b op) = [u; v] ->
  (2 <= length pre)%nat ->
  op_transpose_a op = false ->
  InferTensorDesc4BroadcastMatmul op out =
    if k =? (if op_transpose_b op then v else u)
    then check_add_to_output op
           (set_desc_shape (pre ++ [if op_transpose_b op then u else v]) out)
    else (Err (CheckFailedError ""), out).
Proof.
  intros Ha Hb Hlen Hta. unfold InferTensorDesc4BroadcastMatmul.
  rewrite Ha, Hb, Hta.
  assert (NumAxes (pre ++ [k]) = NumAxes pre + 1) as ->
    by (rewrite NumAxes_app; reflexivity).
  change (NumAxes [u; v]) with 2.
  replace (NumAxes pre + 1 - 1) with (NumAxes pre) by lia.
  rewrite (proj2 (Z.ltb_lt 2 (NumAxes pre + 1))) by (unfold NumAxes; lia).
  rewrite Shape_At_app.
  unfold NumAxes at 1. rewrite Nat2Z.id, take_app_length.
  unfold bind, CHECK_OR_RETURN, lift, modify, check_or_return. simpl.
  destruct (op_transpose_b op); simpl;
    match goal with |- context [?a =? ?b] => destruct (a =? b) end; reflexivity.
Qed.

(** What the shape inference of [broadcast_matmul_grad_b] does on two
    shapes of the same rank, at least one. *)
Lemma InferTensorDesc4BroadcastMatmulGradB_eval op (pa pb : Shape) x y out :
  desc_shape (op_input_a op) = pa ++ [x] ->
  desc_shape (op_input_b op) = pb ++ [y] ->
  length pa = length pb ->
  InferTensorDesc4BroadcastMatmulGradB op out =
    if bool_decide (pa = pb)
    then check_add_to_output op (set_desc_shape [x; y] out)
    else (Err (CheckFailedError ""), out).
Proof.
  intros Ha Hb Hlen. unfold InferTensorDesc4BroadcastMatmulGradB.
  rewrite Ha, Hb.
  assert (NumAxes (pa ++ [x]) = NumAxes pa + 1) as ->
    by (rewrite NumAxes_app; reflexivity).
  assert (NumAxes (pb ++ [y]) = NumAxes pa + 1) as ->
    by (rewrite NumAxes_app; unfold NumAxes; rewrite Hlen; reflexivity).
  replace (NumAxes pa + 1 - 1) with (NumAxes pa) by lia.
  rewrite Z.eqb_refl.
  pose proof (check_axes_equal_app pa pb [] [] [x] [y] eq_refl Hlen) as Hloop.
  simpl in Hloop. change (NumAxes []) with 0 in Hloop. rewrite Hloop.
  destruct (decide (pa = pb)) as [<-|Hne].
  - rewrite bool_decide_eq_true_2 by done.
    unfold bind, CHECK_OR_RETURN, lift, modify, check_or_return. simpl.
    by rewrite !Shape_At_app.
  - by rewrite bool_decide_eq_false_2 by done.
Qed.

Lemma InferTensorDesc4BroadcastMatmul_Ok_inv op out r out' :
  InferTensorDesc4BroadcastMatmul op out = (Ok r, out') ->
  exists pre k u v,
    desc_shape (op_input_a op) = pre ++ [k] /\
    desc_shape (op_input_b op) = [u; v] /\
    (2 <= length pre)%nat /\
    op_transpose_a op = false /\
    k = (if op_transpose_b op then v else u) /\
    out' = set_desc_shape (pre ++ [if op_transpose_b op then u else v]) out /\
    (forall add, op_add_to_output op = Some add -> desc_shape add = desc_shape out').
Proof.
  intros H. pose proof H as H0. unfold InferTensorDesc4BroadcastMatmul in H0.
  step H0. apply CHECK_OR_RETURN_Ok_inv in Hstep as [Hlt ->].
  step H0. apply CHECK_OR_RETURN_Ok_inv in Hstep as [Hb2 ->].
  step H0. apply CHECK_OR_RETURN_Ok_inv in Hstep as [Hta ->].
  clear H0. apply Z.ltb_lt in Hlt. apply Z.eqb_eq in Hb2.
  apply negb_true_iff in Hta.
  destruct (desc_shape (op_input_b op)) as [|u [|v [|? ?]]] eqn:Hb;
    try (unfold NumAxes in Hb2; simpl in Hb2; lia).
  destruct (decide (desc_shape (op_input_a op) = [])) as [Hnil|Hnn];
    [rewrite Hnil in Hlt; unfold NumAxes in Hlt; simpl in Hlt; lia|].
  destruct (exists_last Hnn) as (pre & k & Ha).
  assert (2 <= length pre)%nat as Hlen.
  { rewrite Ha in Hlt. unfold NumAxes in Hlt. rewrite length_app in Hlt.
    simpl in Hlt. lia. }
  rewrite (InferTensorDesc4BroadcastMatmul_eval op pre k u v out Ha Hb Hlen Hta) in H.
  match type of H with context [?a =? ?b] => destruct (a =? b) eqn:Ek end;
    [|discriminate].
  apply Z.eqb_eq in Ek.
  pose proof (check_add_to_output_state _ _ _ _ H) as ->.
  exists pre, k, u, v. repeat (split; [done|]).
  exact (check_add_to_output_Ok_inv _ _ _ _ H).
Qed.

Lemma InferTensorDesc4BroadcastMatmul_Ok op out pre k u v :
  desc_shape (op_input_a op) = pre ++ [k] ->
  desc_shape (op_input_b op) = [u; v] ->
  (2 <= length pre)%nat ->
  op_transpose_a op = false ->
  k = (if op_transpose_b op then v else u) ->
  (forall add, op_add_to_output op = Some add ->
     desc_shape add = pre ++ [if op_transpose_b op then u else v]) ->
  InferTensorDesc4BroadcastMatmul op out
  = (Ok tt, set_desc_shape (pre ++ [if op_transpose_b op then u else v]) out).
Proof.
  intros Ha Hb Hlen Hta Hk Hadd.
  rewrite (InferTensorDesc4BroadcastMatmul_eval op pre k u v out Ha Hb Hlen Hta).
  rewrite <- Hk, Z.eqb_refl. by apply check_add_to_output_Ok.
Qed.

(** X18: the shape inference of [broadcast_matmul] accepts an operator
    exactly when [a] has at least three axes, [b] has two, [transpose_a]
    is off, the last extent of [a] is the inner extent of [b], and an
    [_add_to_output] input, if there is one, has the shape of the result.
    Only the shape of [out] is written: the axes of [a] but the last,
    then [n]. *)
Theorem InferTensorDesc4BroadcastMatmul_accepts_iff op out out' :
  InferTensorDesc4BroadcastMatmul op out = (Ok tt, out') <->
  exists pre k u v,
    desc_shape (op_input_a op) = pre ++ [k] /\
    desc_shape (op_input_b op) = [u; v] /\
    (2 <= length pre)%nat /\
    op_transpose_a op = false /\
    k = (if op_transpose_b op then v else u) /\
    out' = set_desc_shape (pre ++ [if op_transpose_b op then u else v]) out /\
    (forall add, op_add_to_output op = Some add -> desc_shape add = desc_shape out').
Proof.
  split.
  - apply InferTensorDesc4BroadcastMatmul_Ok_inv.
  - intros (pre & k & u & v & Ha & Hb & Hlen & Hta & Hk & -> & Hadd).
    by apply (InferTensorDesc4BroadcastMatmul_Ok op out pre k u v).
Qed.

Lemma InferTensorDesc4BroadcastMatmul_accepts_iff_witness :
  InferTensorDesc4BroadcastMatmul (matmul_op false true [6; 5; 3] [4; 3]) blank_desc
  = (Ok tt, {| desc_shape := [6; 5; 4]; desc_data_type := kInvalidDataType;
               desc_is_dynamic := false |}).
Proof.
  apply (proj2 (InferTensorDesc4BroadcastMatmul_accepts_iff
                  (matmul_op false true [6; 5; 3] [4; 3]) blank_desc _)).
  exists [6; 5], 3, 4, 3.
  split; [reflexivity|]. split; [reflexivity|]. split; [simpl; lia|].
  split; [reflexivity|]. split; [reflexivity|]. split; [reflexivity|].
  intros add Hadd. discriminate.
Defined.

Ltac infer_broadcast_gradient_shape :=
  unfold inferred_shape; simpl;
  first [ erewrite InferTensorDesc4BroadcastMatmul_eval
            by (simpl; first [eassumption | reflexivity | lia])
        | erewrite InferTensorDesc4BroadcastMatmulGradB_eval
            by (simpl; first [eassumption | reflexivity]) ];
  simpl; rewrite ?Z.eqb_refl, ?bool_decide_eq_true_2 by done;
  simpl; unfold fw_input_shape; simpl; congruence.

(** X19: for a [broadcast_matmul] that passed its own shape inference, the
    backward generator passes its [CHECK(!transpose_a)] and defines two
    operators; the [broadcast_matmul] for [a] and the
    [broadcast_matmul_grad_b] for [b] are accepted by their shape inference
    and infer the shapes of the forward inputs [a] and [b]. *)
Theorem broadcast_matmul_gradient_ops_infer_input_shapes
    fw out fw_out out_grad blank :
  InferTensorDesc4BroadcastMatmul fw out = (Ok tt, fw_out) ->
  desc_shape out_grad = desc_shape fw_out ->
  exists ops,
    GenBackwardOpConf4BroadcastMatmul fw = Ok ops /\
    map snd ops = ["a"; "b"] /\
    Forall (fun g => inferred_shape fw out_grad blank g.1 = fw_input_shape fw g.2) ops.
Proof.
  intros Hfw Hog.
  apply InferTensorDesc4BroadcastMatmul_Ok_inv in Hfw
    as (pre & k & u & v & Ha & Hb & Hlen & Hta & Hk & -> & _).
  simpl in Hog.
  destruct fw as [nm ta tb al ia ib ad ga gb]. simpl in *. subst ta.
  unfold GenBackwardOpConf4BroadcastMatmul. simpl.
  eexists. split; [reflexivity|]. split; [reflexivity|].
  destruct tb; simpl; subst; (constructor; [|constructor; [|constructor]]); simpl.
  all: infer_broadcast_gradient_shape.
Qed.

Lemma broadcast_matmul_gradient_ops_infer_input_shapes_witness :
  let fw := matmul_op false true [6; 5; 3] [4; 3] in
  let out_grad := {| desc_shape := [6; 5; 4]; desc_data_type := 2%nat;
                     desc_is_dynamic := false |} in
  exists ops,
    GenBackwardOpConf4BroadcastMatmul fw = Ok ops /\
    map snd ops = ["a"; "b"] /\
    Forall (fun g => inferred_shape fw out_grad blank_desc g.1 = fw_input_shape fw g.2) ops.
Proof.
  apply (broadcast_matmul_gradient_ops_infer_input_shapes
           (matmul_op false true [6; 5; 3] [4; 3]) blank_desc
           {| desc_shape := [6; 5; 4]; desc_data_type := kInvalidDataType;
              desc_is_dynamic := false |});
    reflexivity.
Defined.

(** ** Shape inference of the gather operators *)

Lemma Shape_At_in_range (s : Shape) (i : Z) :
  0 <= i < NumAxes s ->
  exists e, s !! Z.to_nat i = Some e /\ Shape_At s i = Ok e.
Proof.
  intros Hi. unfold Shape_At. rewrite axis_in_range by done.
  destruct (s !! Z.to_nat i) as [e|] eqn:E; [by exists e|].
  apply lookup_ge_None_1 in E. unfold NumAxes in Hi. lia.
Qed.

(** The loop of [dim_gather] passes exactly when the two shapes agree on
    every visited axis other than [dim], and otherwise fails its check. *)
Lemma check_axes_equal_but_spec dim (a b : Shape) (indices : list Z) :
  Forall (fun i => 0 <= i < NumAxes a /\ i < NumAxes b) indices ->
  check_axes_equal_but dim a b indices
  = if bool_decide (Forall (fun i => i <> dim -> a !! Z.to_nat i = b !! Z.to_nat i)
                      indices)
    then Ok tt else Err (CheckFailedError "").
Proof.
  induction indices as [|i rest IH]; intros Hin.
  - by rewrite bool_decide_eq_true_2.
  - apply Forall_cons in Hin as [[Hia Hib] Hrest]. specialize (IH Hrest). simpl.
    destruct (i =? dim) eqn:Ei.
    + apply Z.eqb_eq in Ei. rewrite IH.
      destruct (decide (Forall (fun i => i <> dim -> a !! Z.to_nat i = b !! Z.to_nat i)
                          rest)) as [Hall|Hnot].
      * rewrite !bool_decide_eq_true_2; [done| |done].
        apply Forall_cons. split; [intros Hne; by destruct Hne|done].
      * rewrite !bool_decide_eq_false_2; [done| |done].
        intros Hall. by apply Forall_cons in Hall as [_ Hall].
    + apply Z.eqb_neq in Ei.
      destruct (Shape_At_in_range a i Hia) as (x & Hx & ->).
      destruct (Shape_At_in_range b i (conj (proj1 Hia) Hib)) as (y & Hy & ->).
      simpl. unfold check_or_return.
      destruct (x =? y) eqn:Exy; simpl.
      * apply Z.eqb_eq in Exy as ->. rewrite IH.
        destruct (decide (Forall (fun i => i <> dim -> a !! Z.to_nat i = b !! Z.to_nat i)
                            rest)) as [Hall|Hnot].
        -- rewrite !bool_decide_eq_true_2; [done| |done].
           apply Forall_cons. split; [intros _; congruence|done].
        -- rewrite !bool_decide_eq_false_2; [done| |done].
           intros Hall. by apply Forall_cons in Hall as [_ Hall].
      * apply Z.eqb_neq in Exy. rewrite bool_decide_eq_false_2; [done|].
        intros Hall. apply Forall_cons in Hall as [Hi _].
        specialize (Hi Ei). congruence.
Qed.

(** Two shapes of the same rank agree on every axis of the loop other than
    [dim] exactly when they agree at every position other than [dim]. *)
Lemma agree_but_seqZ dim (a b : Shape) :
  length a = length b ->
  Forall (fun i => i <> dim -> a !! Z.to_nat i = b !! Z.to_nat i)
    (seqZ 0 (NumAxes a))
  <-> (forall i : nat, Z.of_nat i <> dim -> a !! i = b !! i).
Proof.
  intros Hlen. rewrite Forall_seqZ. unfold NumAxes. split.
  - intros H i Hne. destruct (decide (i < length a)%nat) as [Hlt|Hge].
    + specialize (H (Z.of_nat i)). rewrite Nat2Z.id in H. apply H; [lia|done].
    + rewrite !lookup_ge_None_2; [done|lia|lia].
  - intros H z Hz Hne. apply H. rewrite Z2Nat.id; [done|lia].
Qed.

Lemma check_axes_equal_same (s : Shape) :
  check_axes_equal s s (seqZ 0 (NumAxes s)) = Ok tt.
Proof.
  pose proof (check_axes_equal_app s s [] [] [] [] eq_refl eq_refl) as H.
  simpl in H. rewrite app_nil_r in H. change (NumAxes []) with 0 in H.
  by rewrite bool_decide_eq_true_2 in H.
Qed.

Section DimGatherProperties.

Variable kDimGatherMaxDimCount : Z.

Lemma InferTensorDesc4DimGather_eval op out :
  let a := desc_shape (gather_input op) in
  let b := desc_shape (gather_index op) in
  InferTensorDesc4DimGather kDimGatherMaxDimCount op out =
    if (0 <? NumAxes a) && (NumAxes a <=? kDimGatherMaxDimCount)
       && (0 <=? gather_dim op) && (gather_dim op <? NumAxes a)
       && (NumAxes a =? NumAxes b)
       && bool_decide (desc_is_dynamic (gather_input op)
                       = desc_is_dynamic (gather_index op))
       && bool_decide (Forall (fun i => i <> gather_dim op ->
                                 a !! Z.to_nat i = b !! Z.to_nat i)
                         (seqZ 0 (NumAxes a)))
    then (Ok tt, set_desc_shape b out)
    else (Err (CheckFailedError ""), out).
Proof.
  cbv zeta. unfold InferTensorDesc4DimGather, bind, CHECK_OR_RETURN, lift, modify,
    check_or_return.
  destruct (0 <? NumAxes (desc_shape (gather_input op))) eqn:E1; [|reflexivity].
  destruct (NumAxes (desc_shape (gather_input op)) <=? kDimGatherMaxDimCount);
    [|reflexivity].
  destruct (0 <=? gather_dim op); [|reflexivity].
  destruct (gather_dim op <? NumAxes (desc_shape (gather_input op))); [|reflexivity].
  destruct (NumAxes (desc_shape (gather_input op))
            =? NumAxes (desc_shape (gather_index op))) eqn:E5; [|reflexivity].
  destruct (bool_decide (desc_is_dynamic (gather_input op)
                         = desc_is_dynamic (gather_index op))); [|reflexivity].
  simpl. apply Z.eqb_eq in E5.
  rewrite check_axes_equal_but_spec
    by (apply Forall_seqZ; intros i Hi; lia).
  by destruct (bool_decide _).
Qed.

Lemma InferTensorDesc4DimGather_Ok_inv op out r out' :
  InferTensorDesc4DimGather kDimGatherMaxDimCount op out = (Ok r, out') ->
  0 < NumAxes (desc_shape (gather_input op)) <= kDimGatherMaxDimCount /\
  0 <= gather_dim op < NumAxes (desc_shape (gather_input op)) /\
  NumAxes (desc_shape (gather_input op)) = NumAxes (desc_shape (gather_index op)) /\
  desc_is_dynamic (gather_input op) = desc_is_dynamic (gather_index op) /\
  (forall i : nat, Z.of_nat i <> gather_dim op ->
     desc_shape (gather_input op) !! i = desc_shape (gather_index op) !! i) /\
  out' = set_desc_shape (desc_shape (gather_index op)) out.
Proof.
  rewrite InferTensorDesc4DimGather_eval. cbv zeta. intros H.
  match type of H with (if ?c then _ else _) = _ => destruct c eqn:E end;
    [|discriminate].
  injection H as _ <-.
  repeat (apply andb_true_iff in E as [E ?]).
  repeat match goal with
         | H : bool_decide _ = true |- _ => apply bool_decide_eq_true_1 in H
         | H : (_ <? _) = true |- _ => apply Z.ltb_lt in H
         | H : (_ <=? _) = true |- _ => apply Z.leb_le in H
         | H : (_ =? _) = true |- _ => apply Z.eqb_eq in H
         end.
  split; [lia|]. split; [lia|]. split; [done|]. split; [done|].
  split; [|done]. apply agree_but_seqZ; [|done]. unfold NumAxes in *. lia.
Qed.

Lemma InferTensorDesc4DimGather_Ok op out :
  0 < NumAxes (desc_shape (gather_input op)) <= kDimGatherMaxDimCount ->
  0 <= gather_dim op < NumAxes (desc_shape (gather_input op)) ->
  NumAxes (desc_shape (gather_input op)) = NumAxes (desc_shape (gather_index op)) ->
  desc_is_dynamic (gather_input op) = desc_is_dynamic (gather_index op) ->
  (forall i : nat, Z.of_nat i <> gather_dim op ->
     desc_shape (gather_input op) !! i = desc_shape (gather_index op) !! i) ->
  InferTensorDesc4DimGather kDimGatherMaxDimCount op out
  = (Ok tt, set_desc_shape (desc_shape (gather_index op)) out).
Proof.
  intros [H1 H2] [H3 H4] H5 H6 H7.
  rewrite InferTensorDesc4DimGather_eval. cbv zeta.
  rewrite (proj2 (Z.ltb_lt _ _) H1), (proj2 (Z.leb_le _ _) H2),
    (proj2 (Z.leb_le _ _) H3), (proj2 (Z.ltb_lt _ _) H4),
    (proj2 (Z.eqb_eq _ _) H5). simpl.
  rewrite !bool_decide_eq_true_2; [done| |done].
  apply agree_but_seqZ; [|done]. unfold NumAxes in H5. lia.
Qed.

(** X20: the shape inference of [dim_gather] accepts an operator exactly
    when the input has between one and [kDimGatherMaxDimCount] axes, [dim]
    is one of them, the index has as many axes and the same dynamic flag,
    and input and index have the same extent on every axis other than
    [dim]; the output then has the shape of the index, and nothing else of
    it is written. *)
Theorem InferTensorDesc4DimGather_accepts_iff op out out' :
  InferTensorDesc4DimGather kDimGatherMaxDimCount op out = (Ok tt, out') <->
  0 < NumAxes (desc_shape (gather_input op)) <= kDimGatherMaxDimCount /\
  0 <= gather_dim op < NumAxes (desc_shape (gather_input op)) /\
  NumAxes (desc_shape (gather_input op)) = NumAxes (desc_shape (gather_index op)) /\
  desc_is_dynamic (gather_input op) = desc_is_dynamic (gather_index op) /\
  (forall i : nat, Z.of_nat i <> gather_dim op ->
     desc_shape (gather_input op) !! i = desc_shape (gather_index op) !! i) /\
  out' = set_desc_shape (desc_shape (gather_index op)) out.
Proof.
  split.
  - apply InferTensorDesc4DimGather_Ok_inv.
  - intros (H1 & H2 & H3 & H4 & H5 & ->). by apply InferTensorDesc4DimGather_Ok.
Qed.

(** X21: the [dim_scatter_add_like] that the backward generator of
    [dim_gather] defines is bound to the gradient of [input], passes its own
    shape inference whenever the forward operator passed, and infers the
    shape of the forward [input]; the gradient of [output] is given the
    shape the forward inference gave [output]. *)
Theorem dim_gather_gradient_op_infers_input_shape fw out fw_out out_grad blank :
  InferTensorDesc4DimGather kDimGatherMaxDimCount fw out = (Ok tt, fw_out) ->
  desc_shape out_grad = desc_shape fw_out ->
  exists op,
    scatter_conf_as_op fw out_grad (GenBackwardOpConf4DimGather fw).1 = Some op /\
    (GenBackwardOpConf4DimGather fw).2 = "input" /\
    InferTensorDesc4DimScatterAddLike kDimGatherMaxDimCount op blank
    = (Ok tt, set_desc_shape (desc_shape (gather_input fw)) blank).
Proof.
  intros Hfw Hog.
  apply InferTensorDesc4DimGather_Ok_inv in Hfw
    as ([H1 H2] & _ & H5 & _ & _ & ->).
  simpl in Hog.
  eexists. split; [reflexivity|]. split; [reflexivity|].
  unfold InferTensorDesc4DimScatterAddLike, bind, CHECK_OR_RETURN, lift, modify,
    check_or_return. simpl. rewrite Hog, <- H5.
  rewrite (proj2 (Z.ltb_lt _ _) H1), (proj2 (Z.leb_le _ _) H2), Z.eqb_refl.
  rewrite H5, check_axes_equal_same. reflexivity.
Qed.

End DimGatherProperties.

Lemma InferTensorDesc4DimGather_accepts_iff_witness :
  InferTensorDesc4DimGather 8 (gather_op 1 [4; 5; 6] [4; 2; 6]) blank_desc
  = (Ok tt, {| desc_shape := [4; 2; 6]; desc_data_type := kInvalidDataType;
               desc_is_dynamic := false |}).
Proof.
  apply (proj2 (InferTensorDesc4DimGather_accepts_iff 8
                  (gather_op 1 [4; 5; 6] [4; 2; 6]) blank_desc _)).
  split; [simpl; unfold NumAxes; simpl; lia|].
  split; [simpl; unfold NumAxes; simpl; lia|].
  split; [reflexivity|]. split; [reflexivity|]. split; [|reflexivity].
  intros [|[|[|i]]] Hi; simpl in *; try reflexivity. lia.
Defined.

Lemma dim_gather_gradient_op_infers_input_shape_witness :
  let fw := gather_op 1 [4; 5; 6] [4; 2; 6] in
  let out_grad := {| desc_shape := [4; 2; 6]; desc_data_type := 2%nat;
                     desc_is_dynamic := false |} in
  exists op,
    scatter_conf_as_op fw out_grad (GenBackwardOpConf4DimGather fw).1 = Some op /\
    (GenBackwardOpConf4DimGather fw).2 = "input" /\
    InferTensorDesc4DimScatterAddLike 8 op blank_desc
    = (Ok tt, set_desc_shape [4; 5; 6] blank_desc).
Proof.
  apply (dim_gather_gradient_op_infers_input_shape 8
           (gather_op 1 [4; 5; 6] [4; 2; 6]) blank_desc
           {| desc_shape := [4; 2; 6]; desc_data_type := kInvalidDataType;
              desc_is_dynamic := false |});
    reflexivity.
Defined.
